(** * CNN accelerator driver: a shallow embedding of [cnn_accelerator.c]

    The driver of the ZUBoard AI edge accelerator talks to the hardware
    through memory-mapped registers ([Xil_In32]/[Xil_Out32]), cache
    maintenance calls and [usleep], and post-processes the Q8.8 output of
    the accelerator with single-precision arithmetic.

    - Unsigned 32-bit quantities are [Z] with the wrap-around written out.
    - [float] is IEEE-754 binary32, modelled with [SpecFloat] at
      precision 24 and maximal exponent 128.
    - Every interaction with the outside world is recorded in a trace of
      events; what a register read returns is decided by the hardware,
      which is a function of the whole history and of the address. *)

From Stdlib Require Import ZArith List Bool Lia.
From Stdlib Require Import Floats.SpecFloat.
From stdpp Require Import base list.
Import ListNotations.
Local Open Scope Z_scope.

(* ------------------------------------------------------------------ *)
(** * Single-precision floats *)

Module F32.

Definition prec : Z := 24.
Definition emax : Z := 128.

Abbreviation float := spec_float.

(** Conversion of an integer constant or of an integer value ((float)n). *)
Definition of_Z (n : Z) : float := binary_normalize prec emax n 0 false.

Definition add : float -> float -> float := SFadd prec emax.
Definition sub : float -> float -> float := SFsub prec emax.
Definition mul : float -> float -> float := SFmul prec emax.
Definition div : float -> float -> float := SFdiv prec emax.

(** The C comparisons: anything compared with a NaN is false. *)
Definition lt (x y : float) : bool := SFltb x y.
Definition gt (x y : float) : bool := SFltb y x.
Definition le (x y : float) : bool := SFleb x y.

(** Conversion to an integer type truncates toward zero. *)
Definition trunc (x : float) : option Z :=
  match x with
  | S754_zero _ => Some 0
  | S754_finite s m e =>
      let mag := if 0 <=? e then Z.pos m * 2 ^ e else Z.pos m / 2 ^ (- e) in
      Some (if s then - mag else mag)
  | S754_infinity _ | S754_nan => None
  end.

End F32.

(* ------------------------------------------------------------------ *)
(** * Constants of [cnn_accelerator.h] *)

Definition XST_SUCCESS : Z := 0.
Definition XST_FAILURE : Z := 1.

Definition CNN_ACCEL_BASE_ADDR   : Z := 0x80000000.
Definition DMA_VIDEO_BASE_ADDR   : Z := 0x80010000.
Definition DMA_WEIGHTS_BASE_ADDR : Z := 0x80020000.

Definition CNN_REG_CONTROL     : Z := 0x00.
Definition CNN_REG_STATUS      : Z := 0x04.
Definition CNN_REG_CONFIG      : Z := 0x08.
Definition CNN_REG_INPUT_DIM   : Z := 0x0C.
Definition CNN_REG_WEIGHT_ADDR : Z := 0x10.
Definition CNN_REG_BIAS_ADDR   : Z := 0x14.
Definition CNN_REG_INPUT_ADDR  : Z := 0x18.
Definition CNN_REG_OUTPUT_ADDR : Z := 0x1C.
Definition CNN_REG_IRQ_ENABLE  : Z := 0x20.
Definition CNN_REG_IRQ_STATUS  : Z := 0x24.
Definition CNN_REG_PERF_CYCLES : Z := 0x28.
Definition CNN_REG_PERF_OPS    : Z := 0x2C.

Definition CNN_CTRL_START : Z := 0x01.
Definition CNN_CTRL_STOP  : Z := 0x02.
Definition CNN_CTRL_RESET : Z := 0x04.

Definition CNN_STAT_BUSY       : Z := 0x01.
Definition CNN_STAT_DONE       : Z := 0x02.
Definition CNN_STAT_ERROR_MASK : Z := 0xF0.

Definition CNN_CFG_LAYER_EN_MASK : Z := 0x000000FF.
Definition CNN_CFG_ACT_MASK      : Z := 0x00000700.
Definition CNN_CFG_ACT_SHIFT     : Z := 8.
Definition CNN_CFG_POOL_TYPE     : Z := 0x00000800.

Definition CNN_IRQ_DONE  : Z := 0x01.
Definition CNN_IRQ_ERROR : Z := 0x02.

Definition CNN_MAX_CLASSES    : Z := 100.
Definition CNN_MAX_DETECTIONS : Z := 20.

(** Arithmetic on [uint32_t] wraps modulo 2^32. *)
Definition wrap32 (z : Z) : Z := z mod 2 ^ 32.

(** The ranges of the fixed-width integer types. *)
Definition is_int16 (v : Z) : Prop := -32768 <= v <= 32767.
Definition is_uint8 (v : Z) : Prop := 0 <= v <= 255.
Definition is_uint16 (v : Z) : Prop := 0 <= v <= 65535.
Definition is_uint32 (v : Z) : Prop := 0 <= v < 2 ^ 32.

(* ------------------------------------------------------------------ *)
(** * FixedPointCodec: Q8.8 <-> float *)

Definition Q8_8_SCALE : F32.float := F32.of_Z 256.
Definition Q8_8_FRAC_BITS : Z := 8.

(** [CNN_FixedToFloat]: (float)value / Q8_8_SCALE. *)
Definition CNN_FixedToFloat (value : Z) : F32.float :=
  F32.div (F32.of_Z value) Q8_8_SCALE.

(** [CNN_FloatToFixed]: scale, clamp to the int16 range, convert.  The
    conversion of a float the target type cannot hold (a NaN survives both
    clamps) is undefined in C, which is [None] here. *)
Definition CNN_FloatToFixed (value : F32.float) : option Z :=
  let scaled := F32.mul value Q8_8_SCALE in
  let scaled := if F32.gt scaled (F32.of_Z 32767) then F32.of_Z 32767 else scaled in
  let scaled := if F32.lt scaled (F32.of_Z (-32768)) then F32.of_Z (-32768) else scaled in
  match F32.trunc scaled with
  | Some r => if (-32768 <=? r) && (r <=? 32767) then Some r else None
  | None => None
  end.

(** Bounded universal quantification over an interval of integers, by
    computation: [forall_from lo n f] checks [f] on [lo], [lo+1], ..., [lo+n-1]. *)
Fixpoint forall_from (lo : Z) (n : nat) (f : Z -> bool) : bool :=
  match n with
  | O => true
  | S n' => f lo && forall_from (lo + 1) n' f
  end.

Definition roundtrip_ok (v : Z) : bool :=
  match CNN_FloatToFixed (CNN_FixedToFloat v) with
  | Some r => r =? v
  | None => false
  end.

(* ------------------------------------------------------------------ *)
(** * Data model of [cnn_accelerator.h] *)

Inductive CnnActivation_t : Set :=
| CNN_ACT_NONE | CNN_ACT_RELU | CNN_ACT_RELU6 | CNN_ACT_LEAKY_RELU
| CNN_ACT_SIGMOID | CNN_ACT_TANH | CNN_ACT_SWISH.

(** The integer value of an enumerator. *)
Definition activation_code (a : CnnActivation_t) : Z :=
  match a with
  | CNN_ACT_NONE => 0 | CNN_ACT_RELU => 1 | CNN_ACT_RELU6 => 2
  | CNN_ACT_LEAKY_RELU => 3 | CNN_ACT_SIGMOID => 4 | CNN_ACT_TANH => 5
  | CNN_ACT_SWISH => 6
  end.

Inductive CnnPoolType_t : Set := CNN_POOL_MAX | CNN_POOL_AVG.

(** [input_width], [input_height] are [uint16_t]; [input_channels],
    [num_classes], [layer_enable] are [uint8_t]. *)
Record CnnConfig_t : Set := mkConfig {
  input_width    : Z;
  input_height   : Z;
  input_channels : Z;
  num_classes    : Z;
  layer_enable   : Z;
  activation     : CnnActivation_t;
  pool_type      : CnnPoolType_t
}.

Definition config_in_range (c : CnnConfig_t) : Prop :=
  is_uint16 (input_width c) /\ is_uint16 (input_height c) /\
  is_uint8 (input_channels c) /\ is_uint8 (num_classes c) /\
  is_uint8 (layer_enable c).

Record CnnStatus_t : Set := mkStatus {
  busy       : Z;
  done       : Z;
  error_code : Z;
  cycles     : Z;
  operations : Z
}.

Record ClassificationResult_t : Set := mkClassification {
  class_id   : Z;
  confidence : F32.float
}.

(** Only the [classifications] member of the anonymous union is used by the
    driver; it has room for [CNN_MAX_CLASSES] entries. *)
Record InferenceResult_t : Set := mkResult {
  num_results     : Z;
  classifications : list ClassificationResult_t
}.

Record CnnAccelerator_t : Set := mkHandle {
  base_addr          : Z;
  dma_video_addr     : Z;
  dma_weights_addr   : Z;
  config             : CnnConfig_t;
  weight_mem_addr    : Z;
  bias_mem_addr      : Z;
  input_frame_addr   : Z;
  output_result_addr : Z;
  inference_done     : Z
}.

Definition set_config (c : CnnConfig_t) (h : CnnAccelerator_t) : CnnAccelerator_t :=
  mkHandle (base_addr h) (dma_video_addr h) (dma_weights_addr h) c
           (weight_mem_addr h) (bias_mem_addr h) (input_frame_addr h)
           (output_result_addr h) (inference_done h).

Definition set_inference_done (d : Z) (h : CnnAccelerator_t) : CnnAccelerator_t :=
  mkHandle (base_addr h) (dma_video_addr h) (dma_weights_addr h) (config h)
           (weight_mem_addr h) (bias_mem_addr h) (input_frame_addr h)
           (output_result_addr h) d.

(* ------------------------------------------------------------------ *)
(** * The outside world *)

(** What the driver does to its environment, in the order it does it. *)
Inductive event : Set :=
| EvIn32 (addr value : Z)                  (* Xil_In32: a register read and what it returned *)
| EvOut32 (addr value : Z)                 (* Xil_Out32 *)
| EvFlush (addr len : Z)                   (* Xil_DCacheFlushRange *)
| EvInvalidate (addr len : Z)              (* Xil_DCacheInvalidateRange *)
| EvMemcpy (dst : Z) (src : list Z) (n : Z)  (* memcpy into device memory *)
| EvSleep (usec : Z).                      (* usleep *)

Definition is_write (e : event) : bool :=
  match e with EvOut32 _ _ => true | _ => false end.

Definition is_read (e : event) : bool :=
  match e with EvIn32 _ _ => true | _ => false end.

(** Microseconds spent in [usleep] along a trace. *)
Fixpoint slept (t : list event) : Z :=
  match t with
  | [] => 0
  | EvSleep us :: t' => us + slept t'
  | _ :: t' => slept t'
  end.

(** The state the driver functions run in: the handle object [*cnn] and the
    history of interactions with the environment. *)
Record World : Set := mkWorld {
  handle : CnnAccelerator_t;
  trace  : list event
}.

(** A [CnnAccelerator_t *]: null, or the address of the handle object. *)
Inductive pointer : Set := NULL | PTR.

(** State-passing computations over the world. *)
Definition M (A : Type) : Type := World -> A * World.

Definition ret {A} (a : A) : M A := fun w => (a, w).
Definition bind {A B} (m : M A) (k : A -> M B) : M B :=
  fun w => let (a, w') := m w in k a w'.

Notation "x <- m ;; k" := (bind m (fun x => k))
  (at level 100, m at next level, right associativity).
Notation "m ;; k" := (bind m (fun _ => k))
  (at level 100, right associativity).

Definition get_handle : M CnnAccelerator_t := fun w => (handle w, w).
Definition put_handle (h : CnnAccelerator_t) : M unit :=
  fun w => (tt, mkWorld h (trace w)).
Definition modify_handle (f : CnnAccelerator_t -> CnnAccelerator_t) : M unit :=
  fun w => (tt, mkWorld (f (handle w)) (trace w)).
Definition emit (e : event) : M unit :=
  fun w => (tt, mkWorld (handle w) (trace w ++ [e])).

Definition Xil_Out32 (addr value : Z) : M unit := emit (EvOut32 addr value).
Definition Xil_DCacheFlushRange (addr len : Z) : M unit := emit (EvFlush addr len).
Definition Xil_DCacheInvalidateRange (addr len : Z) : M unit :=
  emit (EvInvalidate addr len).
Definition usleep (usec : Z) : M unit := emit (EvSleep usec).
Definition memcpy (dst : Z) (src : list Z) (n : Z) : M unit :=
  emit (EvMemcpy dst src n).

(** [(status & MASK)] used as a C truth value. *)
Definition test_bits (v mask : Z) : bool := negb (Z.land v mask =? 0).

(* ------------------------------------------------------------------ *)
(** * ResultRanker: top-K selection *)

(** The sentinel [-1.0f] the scan starts from. *)
Definition neg_one : F32.float := F32.of_Z (-1).

(** One iteration of the inner loop of [CNN_GetTopK], at index [i]:
    [if (!selected[i] && probs[i] > max_prob) { max_prob = probs[i]; max_idx = i; }].
    [selected] has [CNN_MAX_CLASSES] elements and [probs] as many as the
    list holds; an access outside either is undefined behaviour, [None]. *)
Definition scan_step (probs : list F32.float) (selected : list bool)
    (st : option (F32.float * Z)) (i : nat) : option (F32.float * Z) :=
  match st with
  | None => None
  | Some (max_prob, max_idx) =>
      match selected !! i with
      | None => None
      | Some true => Some (max_prob, max_idx)
      | Some false =>
          match probs !! i with
          | None => None
          | Some p =>
              if F32.gt p max_prob then Some (p, Z.of_nat i)
              else Some (max_prob, max_idx)
          end
      end
  end.

(** The inner loop: [for (i = 0; i < num_classes; i++)], started at
    [max_prob = -1.0f], [max_idx = -1]. *)
Definition scan (probs : list F32.float) (num_classes : Z) (selected : list bool)
  : option (F32.float * Z) :=
  fold_left (scan_step probs selected) (seq 0 (Z.to_nat num_classes))
            (Some (neg_one, -1)).

(** The outer loop, [rounds] iterations from round [k] on. *)
Fixpoint topk_rounds (probs : list F32.float) (num_classes : Z) (rounds : nat)
    (k : nat) (selected : list bool) (results : list ClassificationResult_t)
  : option (list ClassificationResult_t) :=
  match rounds with
  | O => Some results
  | S rounds' =>
      match scan probs num_classes selected with
      | None => None
      | Some (max_prob, max_idx) =>
          if 0 <=? max_idx then
            match results !! k with
            | None => None
            | Some _ =>
                topk_rounds probs num_classes rounds' (S k)
                  (<[Z.to_nat max_idx := true]> selected)
                  (<[k := mkClassification max_idx max_prob]> results)
            end
          else topk_rounds probs num_classes rounds' (S k) selected results
      end
  end.

(** [CNN_GetTopK(probs, num_classes, top_k, results)]: the contents of the
    caller's [results] array afterwards. *)
Definition CNN_GetTopK (probs : list F32.float) (num_classes top_k : Z)
    (results : list ClassificationResult_t)
  : option (list ClassificationResult_t) :=
  topk_rounds probs num_classes (Z.to_nat top_k) 0
              (replicate (Z.to_nat CNN_MAX_CLASSES) false) results.

(* ------------------------------------------------------------------ *)
(** * The driver *)

Section Driver.

(** The hardware: what a 32-bit read at an address returns after a given
    history, and the 16-bit word the host sees at an address of device
    memory after a given history. *)
Variable hw_read : list event -> Z -> Z.
Variable dev_mem : list event -> Z -> Z.
(** [expf] of the C library. *)
Variable expf : F32.float -> F32.float.

Definition Xil_In32 (addr : Z) : M Z :=
  fun w =>
    let v := hw_read (trace w) addr in
    (v, mkWorld (handle w) (trace w ++ [EvIn32 addr v])).

Definition CNN_WRITE_REG (offset val : Z) : M unit :=
  h <- get_handle ;; Xil_Out32 (wrap32 (base_addr h + offset)) val.

Definition CNN_READ_REG (offset : Z) : M Z :=
  h <- get_handle ;; Xil_In32 (wrap32 (base_addr h + offset)).

Definition CNN_Reset (cnn : pointer) : M unit :=
  match cnn with
  | NULL => ret tt
  | PTR =>
      CNN_WRITE_REG CNN_REG_CONTROL CNN_CTRL_RESET ;;
      usleep 10 ;;
      CNN_WRITE_REG CNN_REG_CONTROL 0 ;;
      CNN_WRITE_REG CNN_REG_IRQ_STATUS 0xFFFFFFFF ;;
      modify_handle (set_inference_done 0)
  end.

Definition default_config : CnnConfig_t :=
  mkConfig 128 128 3 10 0xFF CNN_ACT_RELU CNN_POOL_MAX.

Definition CNN_Init (cnn : pointer) : M Z :=
  match cnn with
  | NULL => ret XST_FAILURE
  | PTR =>
      put_handle (mkHandle CNN_ACCEL_BASE_ADDR DMA_VIDEO_BASE_ADDR
                           DMA_WEIGHTS_BASE_ADDR default_config
                           0x10000000 0x18000000 0x20000000 0x28000000 0) ;;
      CNN_Reset cnn ;;
      status <- CNN_READ_REG CNN_REG_STATUS ;;
      if status =? 0xFFFFFFFF then ret XST_FAILURE else ret XST_SUCCESS
  end.

(** The packed configuration register. *)
Definition cfg_reg_of (c : CnnConfig_t) : Z :=
  let cfg_reg := 0 in
  let cfg_reg := Z.lor cfg_reg (Z.land (layer_enable c) CNN_CFG_LAYER_EN_MASK) in
  let cfg_reg :=
    Z.lor cfg_reg
          (Z.land (Z.shiftl (activation_code (activation c)) CNN_CFG_ACT_SHIFT)
                  CNN_CFG_ACT_MASK) in
  match pool_type c with
  | CNN_POOL_AVG => Z.lor cfg_reg CNN_CFG_POOL_TYPE
  | CNN_POOL_MAX => cfg_reg
  end.

Definition dim_reg_of (c : CnnConfig_t) : Z :=
  wrap32 (Z.lor (Z.shiftl (input_height c) 16) (input_width c)).

Definition CNN_Configure (cnn : pointer) (config : option CnnConfig_t) : M Z :=
  match cnn, config with
  | NULL, _ | _, None => ret XST_FAILURE
  | PTR, Some config =>
      if (input_width config =? 0) || (input_height config =? 0) ||
         (224 <? input_width config) || (224 <? input_height config)
      then ret XST_FAILURE
      else
        modify_handle (set_config config) ;;
        CNN_WRITE_REG CNN_REG_CONFIG (cfg_reg_of config) ;;
        CNN_WRITE_REG CNN_REG_INPUT_DIM (dim_reg_of config) ;;
        h <- get_handle ;;
        CNN_WRITE_REG CNN_REG_WEIGHT_ADDR (weight_mem_addr h) ;;
        CNN_WRITE_REG CNN_REG_BIAS_ADDR (bias_mem_addr h) ;;
        CNN_WRITE_REG CNN_REG_INPUT_ADDR (input_frame_addr h) ;;
        CNN_WRITE_REG CNN_REG_OUTPUT_ADDR (output_result_addr h) ;;
        ret XST_SUCCESS
  end.

Definition CNN_LoadWeights (cnn : pointer) (weights : option (list Z)) (size : Z)
  : M Z :=
  match cnn, weights with
  | NULL, _ | _, None => ret XST_FAILURE
  | PTR, Some weights =>
      if size =? 0 then ret XST_FAILURE
      else
        h <- get_handle ;;
        memcpy (weight_mem_addr h) weights size ;;
        Xil_DCacheFlushRange (weight_mem_addr h) size ;;
        CNN_WRITE_REG CNN_REG_WEIGHT_ADDR (weight_mem_addr h) ;;
        ret XST_SUCCESS
  end.

Definition CNN_LoadBiases (cnn : pointer) (biases : option (list Z)) (size : Z)
  : M Z :=
  match cnn, biases with
  | NULL, _ | _, None => ret XST_FAILURE
  | PTR, Some biases =>
      if size =? 0 then ret XST_FAILURE
      else
        h <- get_handle ;;
        memcpy (bias_mem_addr h) biases size ;;
        Xil_DCacheFlushRange (bias_mem_addr h) size ;;
        CNN_WRITE_REG CNN_REG_BIAS_ADDR (bias_mem_addr h) ;;
        ret XST_SUCCESS
  end.

(** The extent flushed by [CNN_StartInference]; for a configuration that
    passed [CNN_Configure] the product stays far below 2^31. *)
Definition frame_size_of (c : CnnConfig_t) : Z :=
  wrap32 (input_width c * input_height c * input_channels c * 2).

Definition CNN_StartInference (cnn : pointer) (frame_addr : Z) : M Z :=
  match cnn with
  | NULL => ret XST_FAILURE
  | PTR =>
      status <- CNN_READ_REG CNN_REG_STATUS ;;
      if test_bits status CNN_STAT_BUSY then ret XST_FAILURE
      else
        CNN_WRITE_REG CNN_REG_INPUT_ADDR frame_addr ;;
        h <- get_handle ;;
        Xil_DCacheFlushRange frame_addr (frame_size_of (config h)) ;;
        modify_handle (set_inference_done 0) ;;
        CNN_WRITE_REG CNN_REG_CONTROL CNN_CTRL_START ;;
        ret XST_SUCCESS
  end.

Definition poll_interval : Z := 1.

(** The [while (1)] loop of [CNN_WaitForCompletion], run for at most
    [fuel] iterations: [Some r] when the function returns [r] within
    them, [None] when it is still polling after them. *)
Fixpoint wait_loop (fuel : nat) (timeout_ms elapsed : Z) : M (option Z) :=
  match fuel with
  | O => ret None
  | S fuel' =>
      let check_timeout : M (option Z) :=
        if (0 <? timeout_ms) && (timeout_ms <=? elapsed)
        then ret (Some XST_FAILURE)
        else
          usleep (poll_interval * 1000) ;;
          wait_loop fuel' timeout_ms (wrap32 (elapsed + poll_interval)) in
      status <- CNN_READ_REG CNN_REG_STATUS ;;
      if test_bits status CNN_STAT_DONE then
        modify_handle (set_inference_done 1) ;;
        ret (Some XST_SUCCESS)
      else if negb (test_bits status CNN_STAT_BUSY) then
        if test_bits status CNN_STAT_ERROR_MASK then ret (Some XST_FAILURE)
        else
          status2 <- CNN_READ_REG CNN_REG_STATUS ;;
          if test_bits status2 CNN_STAT_DONE then
            modify_handle (set_inference_done 1) ;;
            ret (Some XST_SUCCESS)
          else check_timeout
      else check_timeout
  end.

Definition CNN_WaitForCompletion (fuel : nat) (cnn : pointer) (timeout_ms : Z)
  : M (option Z) :=
  match cnn with
  | NULL => ret (Some XST_FAILURE)
  | PTR => wait_loop fuel timeout_ms 0
  end.

Definition CNN_IsComplete (cnn : pointer) : M Z :=
  match cnn with
  | NULL => ret 0
  | PTR =>
      h <- get_handle ;;
      if negb (inference_done h =? 0) then ret 1
      else
        status <- CNN_READ_REG CNN_REG_STATUS ;;
        if test_bits status CNN_STAT_DONE then
          modify_handle (set_inference_done 1) ;;
          ret 1
        else ret 0
  end.

(** [CNN_Softmax(input, output, size)]: the values stored to
    [output[0]], ..., [output[size-1]].  [input[i]] is read through the
    pointer, here an index function. *)
Definition CNN_Softmax (input : Z -> Z) (size : Z) : list F32.float :=
  let idx := map Z.of_nat (seq 0 (Z.to_nat size)) in
  let max_val :=
    fold_left (fun max_val i =>
                 let val := CNN_FixedToFloat (input i) in
                 if F32.gt val max_val then val else max_val)
              (tail idx) (CNN_FixedToFloat (input 0)) in
  let exps :=
    map (fun i => expf (F32.sub (CNN_FixedToFloat (input i)) max_val)) idx in
  let sum := fold_left F32.add exps (S754_zero false) in
  map (fun e => F32.div e sum) exps.

(** [CNN_GetResult]: the local [probs] array has [CNN_MAX_CLASSES]
    elements, so a larger class count makes [CNN_Softmax] write outside
    it; that, and any out-of-bounds access of [CNN_GetTopK], is
    undefined behaviour, [None]. *)
Definition CNN_GetResult (cnn : pointer) (result : option InferenceResult_t)
  : World -> option (Z * option InferenceResult_t * World) :=
  fun w =>
    match cnn, result with
    | NULL, _ | _, None => Some (XST_FAILURE, result, w)
    | PTR, Some res =>
        let h := handle w in
        if inference_done h =? 0 then Some (XST_FAILURE, result, w)
        else
          let output_size := wrap32 (num_classes (config h) * 2) in
          let (_, w1) :=
            Xil_DCacheInvalidateRange (output_result_addr h) output_size w in
          let raw_output :=
            fun i => dev_mem (trace w1) (output_result_addr h + 2 * i) in
          if CNN_MAX_CLASSES <? num_classes (config h) then None
          else
            let probs := CNN_Softmax raw_output (num_classes (config h)) in
            let n := if num_classes (config h) <? 5
                     then num_classes (config h) else 5 in
            match CNN_GetTopK probs (num_classes (config h)) n
                              (classifications res) with
            | None => None
            | Some cls => Some (XST_SUCCESS, Some (mkResult n cls), w1)
            end
    end.

Definition CNN_GetStatus (cnn : pointer) (status : option CnnStatus_t)
  : M (option CnnStatus_t) :=
  match cnn, status with
  | NULL, _ | _, None => ret status
  | PTR, Some _ =>
      reg_status <- CNN_READ_REG CNN_REG_STATUS ;;
      cyc <- CNN_READ_REG CNN_REG_PERF_CYCLES ;;
      ops <- CNN_READ_REG CNN_REG_PERF_OPS ;;
      ret (Some (mkStatus
                   (if test_bits reg_status CNN_STAT_BUSY then 1 else 0)
                   (if test_bits reg_status CNN_STAT_DONE then 1 else 0)
                   (Z.shiftr (Z.land reg_status CNN_STAT_ERROR_MASK) 4)
                   cyc ops))
  end.

Definition CNN_Stop (cnn : pointer) : M unit :=
  match cnn with
  | NULL => ret tt
  | PTR =>
      CNN_WRITE_REG CNN_REG_CONTROL CNN_CTRL_STOP ;;
      modify_handle (set_inference_done 0)
  end.

Definition CNN_EnableInterrupt (cnn : pointer) (enable : Z) : M unit :=
  match cnn with
  | NULL => ret tt
  | PTR =>
      if negb (enable =? 0)
      then CNN_WRITE_REG CNN_REG_IRQ_ENABLE (Z.lor CNN_IRQ_DONE CNN_IRQ_ERROR)
      else CNN_WRITE_REG CNN_REG_IRQ_ENABLE 0
  end.

Definition CNN_ClearInterrupt (cnn : pointer) : M unit :=
  match cnn with
  | NULL => ret tt
  | PTR =>
      irq_status <- CNN_READ_REG CNN_REG_IRQ_STATUS ;;
      CNN_WRITE_REG CNN_REG_IRQ_STATUS irq_status
  end.

Definition CNN_InterruptHandler (cnn : pointer) : M unit :=
  match cnn with
  | NULL => ret tt
  | PTR =>
      irq_status <- CNN_READ_REG CNN_REG_IRQ_STATUS ;;
      (if test_bits irq_status CNN_IRQ_DONE
       then modify_handle (set_inference_done 1)
       else ret tt) ;;
      CNN_WRITE_REG CNN_REG_IRQ_STATUS irq_status
  end.

End Driver.

(* ------------------------------------------------------------------ *)
(** * Specification-side definitions *)

(** ** Repeated selection, as the specification words it

    In each round: scan the not-yet-selected indices, pick the maximum
    probability (first occurrence wins ties), mark it selected, append
    {index, probability} to the result. *)

Definition prob_at (probs : list F32.float) (i : nat) : F32.float :=
  default S754_nan (probs !! i).

(** The indices not selected so far, in increasing order. *)
Definition candidates (probs : list F32.float) (chosen : list nat) : list nat :=
  filter (fun i => i ∉ chosen) (seq 0 (length probs)).

(** The index of the maximum among [i :: rest]; an earlier index is only
    replaced by a strictly larger probability. *)
Definition best_of (probs : list F32.float) (i : nat) (rest : list nat) : nat :=
  fold_left (fun best j =>
               if F32.gt (prob_at probs j) (prob_at probs best) then j else best)
            rest i.

Definition argmax_first (probs : list F32.float) (cands : list nat) : option nat :=
  match cands with
  | [] => None
  | i :: rest => Some (best_of probs i rest)
  end.

Fixpoint select_rounds (probs : list F32.float) (rounds : nat) (chosen : list nat)
  : list ClassificationResult_t :=
  match rounds with
  | O => []
  | S rounds' =>
      match argmax_first probs (candidates probs chosen) with
      | None => []
      | Some i =>
          mkClassification (Z.of_nat i) (prob_at probs i)
            :: select_rounds probs rounds' (i :: chosen)
      end
  end.

Definition TopK_spec (probs : list F32.float) (k : Z) : list ClassificationResult_t :=
  select_rounds probs (Z.to_nat k) [].

(** A probability: a float in [0, 1]. *)
Definition is_probability (p : F32.float) : Prop :=
  F32.le (F32.of_Z 0) p = true /\ F32.le p (F32.of_Z 1) = true.

(** [i] is the first index holding the largest element of [probs]. *)
Definition is_first_argmax (probs : list F32.float) (i : nat) : Prop :=
  exists p, probs !! i = Some p /\
    (forall j q, probs !! j = Some q -> F32.le q p = true) /\
    (forall j q, (j < i)%nat -> probs !! j = Some q -> F32.lt q p = true).

(** ** The calls of the driver API *)

Inductive api_call : Type :=
| CallInit
| CallConfigure (config : option CnnConfig_t)
| CallReset
| CallLoadWeights (weights : option (list Z)) (size : Z)
| CallLoadBiases (biases : option (list Z)) (size : Z)
| CallStartInference (frame_addr : Z)
| CallWaitForCompletion (fuel : nat) (timeout_ms : Z)
| CallIsComplete
| CallGetResult (result : option InferenceResult_t)
| CallGetStatus (status : option CnnStatus_t)
| CallStop
| CallEnableInterrupt (enable : Z)
| CallClearInterrupt
| CallInterruptHandler.

(** The world after a call ([None]: the call has undefined behaviour). *)
Definition run_call (hw_read dev_mem : list event -> Z -> Z)
    (expf : F32.float -> F32.float) (cnn : pointer) (c : api_call) (w : World)
  : option World :=
  match c with
  | CallInit => Some (snd (CNN_Init hw_read cnn w))
  | CallConfigure config => Some (snd (CNN_Configure cnn config w))
  | CallReset => Some (snd (CNN_Reset cnn w))
  | CallLoadWeights weights size => Some (snd (CNN_LoadWeights cnn weights size w))
  | CallLoadBiases biases size => Some (snd (CNN_LoadBiases cnn biases size w))
  | CallStartInference frame_addr =>
      Some (snd (CNN_StartInference hw_read cnn frame_addr w))
  | CallWaitForCompletion fuel timeout_ms =>
      Some (snd (CNN_WaitForCompletion hw_read fuel cnn timeout_ms w))
  | CallIsComplete => Some (snd (CNN_IsComplete hw_read cnn w))
  | CallGetResult result =>
      match CNN_GetResult dev_mem expf cnn result w with
      | Some (_, _, w') => Some w'
      | None => None
      end
  | CallGetStatus status => Some (snd (CNN_GetStatus hw_read cnn status w))
  | CallStop => Some (snd (CNN_Stop cnn w))
  | CallEnableInterrupt enable => Some (snd (CNN_EnableInterrupt cnn enable w))
  | CallClearInterrupt => Some (snd (CNN_ClearInterrupt hw_read cnn w))
  | CallInterruptHandler => Some (snd (CNN_InterruptHandler hw_read cnn w))
  end.

(** The calls that assign 0 to [inference_done]. *)
Definition clears_done (c : api_call) : bool :=
  match c with
  | CallInit | CallReset | CallStartInference _ | CallStop => true
  | _ => false
  end.

(** ** Notions the statements use *)

(** The address the status register of a handle is read at. *)
Definition status_addr (h : CnnAccelerator_t) : Z :=
  wrap32 (base_addr h + CNN_REG_STATUS).

(** The register writes of a trace. *)
Definition writes (t : list event) : list event := List.filter is_write t.

(** A status source that never reports done and never clears busy. *)
Definition always_busy (hw : list event -> Z -> Z) (h : CnnAccelerator_t) : Prop :=
  forall t, test_bits (hw t (status_addr h)) CNN_STAT_DONE = false /\
            test_bits (hw t (status_addr h)) CNN_STAT_BUSY = true.

(** ** Sample hardware and handles *)

(** A hardware whose every register reads as a constant. *)
Definition hw_const (v : Z) : list event -> Z -> Z := fun _ _ => v.

(** A hardware that reports an error code with busy and done clear on the
    first read, and done on every read after it. *)
Definition hw_error_then_done : list event -> Z -> Z :=
  fun t _ => if existsb is_read t then 0x02 else 0x10.

(** The handle as [CNN_Init] leaves it. *)
Definition fresh_handle : CnnAccelerator_t :=
  mkHandle CNN_ACCEL_BASE_ADDR DMA_VIDEO_BASE_ADDR DMA_WEIGHTS_BASE_ADDR
           default_config 0x10000000 0x18000000 0x20000000 0x28000000 0.

Definition fresh_world : World := mkWorld fresh_handle [].

(** The same, after a completion has been observed. *)
Definition done_world : World := mkWorld (set_inference_done 1 fresh_handle) [].

(** A device memory that reads as zero everywhere, and a crude stand-in for
    [expf], for scenarios that never get as far as the softmax. *)
Definition zero_memory : list event -> Z -> Z := fun _ _ => 0.
Definition unit_expf : F32.float -> F32.float := fun _ => F32.of_Z 1.

(** The polling race, as the specification states it: a first status with
    busy and done clear and an error bit set, whose immediate re-read shows
    done, would be reported as success. *)
Definition recheck_before_error_claim : Prop :=
  forall (hw : list event -> Z -> Z) (w : World) (fuel : nat) (T : Z),
    let a := status_addr (handle w) in
    let s1 := hw (trace w) a in
    let s2 := hw (trace w ++ [EvIn32 a s1]) a in
    test_bits s1 CNN_STAT_DONE = false ->
    test_bits s1 CNN_STAT_BUSY = false ->
    test_bits s1 CNN_STAT_ERROR_MASK = true ->
    test_bits s2 CNN_STAT_DONE = true ->
    fst (CNN_WaitForCompletion hw (S fuel) PTR T w) = Some XST_SUCCESS.

(** The resets of the completion flag, as the specification states them:
    apart from [CNN_StartInference], [CNN_Stop] and [CNN_Reset], no call of
    the API takes a set completion flag back to 0. *)
Definition clears_done_claimed (c : api_call) : bool :=
  match c with
  | CallReset | CallStartInference _ | CallStop => true
  | _ => false
  end.

Definition done_reset_claim : Prop :=
  forall hw dev_mem expf cnn (c : api_call) (w w' : World),
    clears_done_claimed c = false ->
    inference_done (handle w) <> 0 ->
    run_call hw dev_mem expf cnn c w = Some w' ->
    inference_done (handle w') <> 0.

(** ** Auxiliary notions for the top-K proofs *)

(** The [selected] array marks exactly the indices chosen so far. *)
Definition sel_inv (selected : list bool) (chosen : list nat) : Prop :=
  length selected = Z.to_nat CNN_MAX_CLASSES /\
  forall i : nat, (i < length selected)%nat ->
                  selected !! i = Some (bool_decide (i ∈ chosen)).

(** The inner loop on the candidates alone. *)
Definition keep_best (probs : list F32.float) (st : F32.float * Z) (j : nat)
  : F32.float * Z :=
  if F32.gt (prob_at probs j) (fst st) then (prob_at probs j, Z.of_nat j) else st.

(** Every element compares greater than the sentinel [-1.0f]. *)
Definition above_sentinel (probs : list F32.float) : Prop :=
  forall (i : nat) (p : F32.float), probs !! i = Some p -> F32.gt p neg_one = true.

Definition entry (probs : list F32.float) (i : nat) : ClassificationResult_t :=
  mkClassification (Z.of_nat i) (prob_at probs i).

(** [best] is the first maximum of the indices [pre] scanned so far. *)
Definition best_inv (probs : list F32.float) (pre : list nat) (best : nat) : Prop :=
  exists l1 l2 : list nat,
    pre = l1 ++ best :: l2 /\
    (forall j, j ∈ l1 -> F32.lt (prob_at probs j) (prob_at probs best) = true) /\
    (forall j, j ∈ pre -> F32.le (prob_at probs j) (prob_at probs best) = true).

Definition quarter : F32.float := F32.div (F32.of_Z 1) (F32.of_Z 4).
Definition half : F32.float := F32.div (F32.of_Z 1) (F32.of_Z 2).
Definition sample_probs : list F32.float := [quarter; half; quarter].
Definition sample_results : list ClassificationResult_t :=
  replicate 5 (mkClassification 77 S754_nan).

(* ------------------------------------------------------------------ *)
(** * Register map, hardware scenarios and test-data generators *)

(** The address a register of the map is accessed at. *)
Definition reg_addr (h : CnnAccelerator_t) (offset : Z) : Z :=
  wrap32 (base_addr h + offset).

(** The six register writes of a successful [CNN_Configure]. *)
Definition configure_writes (h : CnnAccelerator_t) (c : CnnConfig_t) : list event :=
  [EvOut32 (reg_addr h CNN_REG_CONFIG) (cfg_reg_of c);
   EvOut32 (reg_addr h CNN_REG_INPUT_DIM) (dim_reg_of c);
   EvOut32 (reg_addr h CNN_REG_WEIGHT_ADDR) (weight_mem_addr h);
   EvOut32 (reg_addr h CNN_REG_BIAS_ADDR) (bias_mem_addr h);
   EvOut32 (reg_addr h CNN_REG_INPUT_ADDR) (input_frame_addr h);
   EvOut32 (reg_addr h CNN_REG_OUTPUT_ADDR) (output_result_addr h)].

(** The dimensions [CNN_Configure] lets through. *)
Definition valid_dimensions (c : CnnConfig_t) : Prop :=
  1 <= input_width c <= 224 /\ 1 <= input_height c <= 224.

(** What [CNN_Reset] does to the hardware. *)
Definition reset_events (h : CnnAccelerator_t) : list event :=
  [EvOut32 (reg_addr h CNN_REG_CONTROL) CNN_CTRL_RESET;
   EvSleep 10;
   EvOut32 (reg_addr h CNN_REG_CONTROL) 0;
   EvOut32 (reg_addr h CNN_REG_IRQ_STATUS) 0xFFFFFFFF].
(** Decoding the packed configuration register, field by field. *)
Definition cfg_layer_enable (reg : Z) : Z := Z.land reg CNN_CFG_LAYER_EN_MASK.
Definition cfg_activation (reg : Z) : Z :=
  Z.shiftr (Z.land reg CNN_CFG_ACT_MASK) CNN_CFG_ACT_SHIFT.
Definition cfg_pool_avg (reg : Z) : bool := test_bits reg CNN_CFG_POOL_TYPE.

Definition pool_is_avg (p : CnnPoolType_t) : bool :=
  match p with CNN_POOL_AVG => true | CNN_POOL_MAX => false end.

(** The check behind the decoding theorem, for one layer mask. *)
Definition cfg_decodes (a : CnnActivation_t) (p : CnnPoolType_t) (le : Z) : bool :=
  let reg := cfg_reg_of (mkConfig 0 0 0 0 le a p) in
  (cfg_layer_enable reg =? le) && (cfg_activation reg =? activation_code a) &&
  Bool.eqb (cfg_pool_avg reg) (pool_is_avg p) && (0 <=? reg) && (reg <? 2 ^ 12).
(** The registers the driver may write, and those it may read. *)
Definition writable_regs : list Z :=
  [CNN_REG_CONTROL; CNN_REG_CONFIG; CNN_REG_INPUT_DIM; CNN_REG_WEIGHT_ADDR;
   CNN_REG_BIAS_ADDR; CNN_REG_INPUT_ADDR; CNN_REG_OUTPUT_ADDR;
   CNN_REG_IRQ_ENABLE; CNN_REG_IRQ_STATUS].

Definition readable_regs : list Z :=
  [CNN_REG_STATUS; CNN_REG_IRQ_STATUS; CNN_REG_PERF_CYCLES; CNN_REG_PERF_OPS].

(** A register access stays inside the register map of the handle: writes go
    to the writable registers, reads to the status, interrupt-status and
    performance registers. *)
Definition access_ok (h : CnnAccelerator_t) (e : event) : Prop :=
  match e with
  | EvOut32 a _ => exists off, In off writable_regs /\ a = reg_addr h off
  | EvIn32 a _ => exists off, In off readable_regs /\ a = reg_addr h off
  | _ => True
  end.

(** A write of the start bit to the control register. *)
Definition is_start (h : CnnAccelerator_t) (e : event) : bool :=
  match e with
  | EvOut32 a v => (a =? reg_addr h CNN_REG_CONTROL) && test_bits v CNN_CTRL_START
  | _ => false
  end.

(** The handles agree on every address field. *)
Definition same_addresses (h h' : CnnAccelerator_t) : Prop :=
  base_addr h' = base_addr h /\ dma_video_addr h' = dma_video_addr h /\
  dma_weights_addr h' = dma_weights_addr h /\
  weight_mem_addr h' = weight_mem_addr h /\ bias_mem_addr h' = bias_mem_addr h /\
  input_frame_addr h' = input_frame_addr h /\
  output_result_addr h' = output_result_addr h.

(** The value a register was last written with along a trace. *)
Fixpoint last_write (addr : Z) (t : list event) : option Z :=
  match t with
  | [] => None
  | e :: t' =>
      match last_write addr t' with
      | Some v => Some v
      | None =>
          match e with
          | EvOut32 a v => if a =? addr then Some v else None
          | _ => None
          end
      end
  end.

(** The register reads of a trace. *)
Definition reads (t : list event) : list event := List.filter is_read t.
(** How a run of the polling loop can end: in success right after a status
    read that shows done, with the completion flag set to 1; or still
    polling or in failure, with the handle as before. *)
Definition wait_outcome (h : CnnAccelerator_t) (r : option Z * World)
    (evs : list event) : Prop :=
  (fst r = Some XST_SUCCESS /\
   handle (snd r) = set_inference_done 1 h /\
   exists pre s,
     evs = pre ++ [EvIn32 (reg_addr h CNN_REG_STATUS) s] /\
     test_bits s CNN_STAT_DONE = true) \/
  ((fst r = None \/ fst r = Some XST_FAILURE) /\ handle (snd r) = h).


(** The status reads as busy and not done at each of the next [n] register
    reads after the trace [t0]. *)
Definition busy_for (hw : list event -> Z -> Z) (h : CnnAccelerator_t)
    (t0 : list event) (n : nat) : Prop :=
  forall (t : list event) (k : nat),
    length (reads t) = (length (reads t0) + k)%nat -> (k < n)%nat ->
    test_bits (hw t (status_addr h)) CNN_STAT_DONE = false /\
    test_bits (hw t (status_addr h)) CNN_STAT_BUSY = true.

(** The same, with done showing at the read after them. *)
Definition busy_then_done (hw : list event -> Z -> Z) (h : CnnAccelerator_t)
    (t0 : list event) (n : nat) : Prop :=
  busy_for hw h t0 n /\
  forall t : list event,
    length (reads t) = (length (reads t0) + n)%nat ->
    test_bits (hw t (status_addr h)) CNN_STAT_DONE = true.

(** A hardware that is busy for its first [n] reads and done from then on. *)
Definition hw_done_after (n : nat) : list event -> Z -> Z :=
  fun t _ => if (length (reads t) <? n)%nat then 0x01 else 0x02.
(** The check behind the bounds of the decoded error code, for one value
    of the low status byte. *)
Definition error_nibble_ok (y : Z) : bool :=
  let code := Z.shiftr (Z.land y CNN_STAT_ERROR_MASK) 4 in
  (0 <=? code) && (code <=? 15) &&
  Bool.eqb (code =? 0) (negb (test_bits y CNN_STAT_ERROR_MASK)).
(** A write to the weight, bias or output address register carries the
    address the handle stores for it. *)
Definition mirror_ok (h : CnnAccelerator_t) (e : event) : Prop :=
  match e with
  | EvOut32 a v =>
      (a = reg_addr h CNN_REG_WEIGHT_ADDR -> v = weight_mem_addr h) /\
      (a = reg_addr h CNN_REG_BIAS_ADDR -> v = bias_mem_addr h) /\
      (a = reg_addr h CNN_REG_OUTPUT_ADDR -> v = output_result_addr h)
  | _ => True
  end.
(** What a pick of [CNN_GetTopK] is: a valid index not chosen before, with
    the probability stored there, which compares greater than [-1.0f]. *)
Definition is_pick (probs : list F32.float) (chosen : list nat)
    (c : ClassificationResult_t) : Prop :=
  exists i : nat,
    class_id c = Z.of_nat i /\ (i ∉ chosen) /\
    probs !! i = Some (confidence c) /\
    F32.gt (confidence c) neg_one = true.
(** The check behind the monotonicity of the decoding: one step up in Q8.8
    is one step up in float. *)
Definition decode_step_ok (v : Z) : bool :=
  F32.lt (CNN_FixedToFloat v) (CNN_FixedToFloat (v + 1)).

(** The largest of the logits [input 0], ..., [input n]. *)
Fixpoint max_logit (input : Z -> Z) (n : nat) : Z :=
  match n with
  | O => input 0
  | S n' => Z.max (max_logit input n') (input (Z.of_nat n))
  end.
(** The check that a decoded logit minus itself is [+0.0f]. *)
Definition self_sub_zero (v : Z) : bool :=
  match F32.sub (CNN_FixedToFloat v) (CNN_FixedToFloat v) with
  | S754_zero false => true
  | _ => false
  end.

(** The softmax with the maximum taken over the integers: exponentials of
    the decoded logits minus the decoded largest logit, over their sum. *)
Definition softmax_of_max (expf : F32.float -> F32.float) (input : Z -> Z)
    (n : nat) : list F32.float :=
  let m := max_logit input n in
  let exps :=
    map (fun i => expf (F32.sub (CNN_FixedToFloat (input i)) (CNN_FixedToFloat m)))
        (map Z.of_nat (seq 0 (S n))) in
  map (fun e => F32.div e (fold_left F32.add exps (S754_zero false))) exps.
(* ------------------------------------------------------------------ *)
(** * The test-data generators of [main.c] *)

(** Conversion to [int16_t] and to [uint8_t]. *)
Definition to_int16 (z : Z) : Z := (z + 32768) mod 65536 - 32768.
Definition to_uint8 (z : Z) : Z := z mod 256.

(** [rand()] is the sequence of values the C library hands out; a
    generator takes the number of calls made so far and returns it
    updated.  Storing outside the array is undefined behaviour, [None]. *)

(** The loop shared, up to its two constants, by [GenerateTestWeights] and
    [GenerateTestBiases]:
    [for (i = 0; i < count; i++) a[i] = (int16_t)((rand() % modulus) - offset)]. *)
Fixpoint random_fill (rand : nat -> Z) (modulus offset : Z) (n i : nat)
    (st : list Z * nat) : option (list Z * nat) :=
  match n with
  | O => Some st
  | S n' =>
      match fst st !! i with
      | None => None
      | Some _ =>
          random_fill rand modulus offset n' (S i)
            (<[i := to_int16 (Z.rem (rand (snd st)) modulus - offset)]> (fst st),
             S (snd st))
      end
  end.

Definition GenerateTestWeights (rand : nat -> Z) (weights : list Z) (count : Z)
    (calls : nat) : option (list Z * nat) :=
  random_fill rand 256 128 (Z.to_nat count) 0 (weights, calls).

Definition GenerateTestBiases (rand : nat -> Z) (biases : list Z) (count : Z)
    (calls : nat) : option (list Z * nat) :=
  random_fill rand 64 32 (Z.to_nat count) 0 (biases, calls).

(** The values the loop stores, in order. *)
Definition random_values (rand : nat -> Z) (modulus offset : Z) (calls n : nat)
  : list Z :=
  map (fun k => Z.rem (rand (calls + k)%nat) modulus - offset) (seq 0 n).

(** The patterns of the demo application.  [GenerateTestFrame] treats a
    value outside the enumeration like [PATTERN_SOLID] (its [default]). *)
Inductive TestPattern_t : Set :=
| PATTERN_GRADIENT | PATTERN_CHECKERBOARD | PATTERN_NOISE | PATTERN_SOLID.

(** The range of [int]; arithmetic that leaves it is undefined behaviour. *)
Definition is_int (z : Z) : bool := (-2147483648 <=? z) && (z <=? 2147483647).

(** The body of the [switch] of [GenerateTestFrame] for the pixel (x, y):
    the bytes stored at [idx], [idx + 1], [idx + 2], and the number of
    [rand()] calls afterwards.  [None] when a product overflows [int] or a
    divisor is zero. *)
Definition pixel (rand : nat -> Z) (pattern : TestPattern_t)
    (x y width height : Z) (calls : nat) : option ((Z * Z * Z) * nat) :=
  match pattern with
  | PATTERN_GRADIENT =>
      if is_int (x * 255) && negb (width =? 0)
         && is_int (y * 255) && negb (height =? 0)
      then Some ((to_uint8 (Z.quot (x * 255) width),
                  to_uint8 (Z.quot (y * 255) height),
                  to_uint8 128), calls)
      else None
  | PATTERN_CHECKERBOARD =>
      if Z.rem (Z.quot x 16 + Z.quot y 16) 2 =? 0
      then Some ((to_uint8 255, to_uint8 255, to_uint8 255), calls)
      else Some ((to_uint8 0, to_uint8 0, to_uint8 0), calls)
  | PATTERN_NOISE =>
      Some ((to_uint8 (Z.rem (rand calls) 256),
             to_uint8 (Z.rem (rand (S calls)) 256),
             to_uint8 (Z.rem (rand (S (S calls))) 256)), S (S (S calls)))
  | PATTERN_SOLID =>
      Some ((to_uint8 128, to_uint8 128, to_uint8 128), calls)
  end.

(** The three stores [buffer[idx + 0]], [buffer[idx + 1]], [buffer[idx + 2]]. *)
Definition store_pixel (buffer : list Z) (idx : Z) (bytes : Z * Z * Z)
  : option (list Z) :=
  let '(b0, b1, b2) := bytes in
  if (0 <=? idx) && (idx + 2 <? Z.of_nat (length buffer))
  then Some (<[Z.to_nat (idx + 2) := b2]>
               (<[Z.to_nat (idx + 1) := b1]>
                  (<[Z.to_nat idx := b0]> buffer)))
  else None.

(** One iteration of the inner loop, at column [x] of row [y]. *)
Definition frame_pixel (rand : nat -> Z) (pattern : TestPattern_t)
    (width height : Z) (y : nat) (st : option (list Z * nat)) (x : nat)
  : option (list Z * nat) :=
  match st with
  | None => None
  | Some (buffer, calls) =>
      let idx := (Z.of_nat y * width + Z.of_nat x) * 3 in
      if is_int (Z.of_nat y * width) && is_int (Z.of_nat y * width + Z.of_nat x)
         && is_int idx && is_int (idx + 2)
      then
        match pixel rand pattern (Z.of_nat x) (Z.of_nat y) width height calls with
        | Some (bytes, calls') =>
            match store_pixel buffer idx bytes with
            | Some buffer' => Some (buffer', calls')
            | None => None
            end
        | None => None
        end
      else None
  end.

(** One iteration of the outer loop: [for (x = 0; x < width; x++)]. *)
Definition frame_row (rand : nat -> Z) (pattern : TestPattern_t)
    (width height : Z) (st : option (list Z * nat)) (y : nat)
  : option (list Z * nat) :=
  fold_left (frame_pixel rand pattern width height y)
            (seq 0 (Z.to_nat width)) st.

(** [GenerateTestFrame(buffer, width, height, pattern)]:
    [for (y = 0; y < height; y++)]. *)
Definition GenerateTestFrame (rand : nat -> Z) (buffer : list Z)
    (width height : Z) (pattern : TestPattern_t) (calls : nat)
  : option (list Z * nat) :=
  fold_left (frame_row rand pattern width height)
            (seq 0 (Z.to_nat height)) (Some (buffer, calls)).

(** How many [rand()] calls a pixel takes. *)
Definition calls_per_pixel (pattern : TestPattern_t) : nat :=
  match pattern with PATTERN_NOISE => 3%nat | _ => 0%nat end.

(** The bytes of the pixel (x, y) of a frame of [w] columns whose
    generation started after [calls] calls of [rand()]. *)
Definition pixel_bytes (rand : nat -> Z) (pattern : TestPattern_t)
    (w : nat) (height : Z) (calls : nat) (y x : nat) : list Z :=
  match pixel rand pattern (Z.of_nat x) (Z.of_nat y) (Z.of_nat w) height
              (calls + calls_per_pixel pattern * (y * w + x))%nat with
  | Some ((b0, b1, b2), _) => [b0; b1; b2]
  | None => []
  end.

Definition row_bytes (rand : nat -> Z) (pattern : TestPattern_t)
    (w : nat) (height : Z) (calls : nat) (y : nat) (x0 n : nat) : list Z :=
  concat (map (pixel_bytes rand pattern w height calls y) (seq x0 n)).

Definition frame_bytes (rand : nat -> Z) (pattern : TestPattern_t)
    (w : nat) (height : Z) (calls : nat) (y0 m : nat) : list Z :=
  concat (map (fun y => row_bytes rand pattern w height calls y 0 w) (seq y0 m)).

(** The frame dimensions for which no [int] computation of
    [GenerateTestFrame] overflows. *)
Definition frame_dims_ok (w h : nat) : Prop :=
  255 * Z.of_nat w <= 2147483647 /\ 255 * Z.of_nat h <= 2147483647 /\
  3 * (Z.of_nat w * Z.of_nat h) <= 2147483647.

(* ------------------------------------------------------------------ *)
(** * Polling scenarios *)

(** The events of [n] polls that read a busy status: the status read and
    the sleep of one poll interval, [n] times over. *)
Fixpoint busy_polls (hw : list event -> Z -> Z) (a : Z) (t : list event)
    (n : nat) : list event :=
  match n with
  | O => []
  | S n' =>
      let poll := [EvIn32 a (hw t a); EvSleep (poll_interval * 1000)] in
      poll ++ busy_polls hw a (t ++ poll) n'
  end.

(** A hardware that is busy for its first two status reads, then shows
    busy and done clear with the given status, and done from then on. *)
Definition hw_busy_twice_then (s : Z) : list event -> Z -> Z :=
  fun t _ =>
    match length (reads t) with
    | 0%nat | 1%nat => 0x01
    | 2%nat => s
    | _ => 0x02
    end.

(** What a polled wait may do: read the status register and sleep for one
    poll interval. *)
Definition is_poll_event (h : CnnAccelerator_t) (e : event) : Prop :=
  match e with
  | EvIn32 a _ => a = reg_addr h CNN_REG_STATUS
  | EvSleep us => us = poll_interval * 1000
  | _ => False
  end.

(* ------------------------------------------------------------------ *)
(** * Values of binary32 numbers and the rounding pipeline *)

(** ** The value of a binary32 number

    Every finite binary32 number is a multiple of 2^-149, the spacing of
    the subnormal numbers: [F2Z x] is the value of [x] in that unit, an
    integer.  The value of 1.0f is [one_val].  An infinity or a NaN has
    no value and counts as 0 here; where a sum of values is bounded, the
    summands are shown to be finite as well. *)
Definition F2Z (x : F32.float) : Z :=
  match x with
  | S754_finite s m e => cond_Zopp s (Z.pos m * 2 ^ (e + 149))
  | _ => 0
  end.

Definition one_val : Z := 2 ^ 149.

(** A binary32 number in canonical form. *)
Definition valid32 (x : F32.float) : Prop :=
  valid_binary F32.prec F32.emax x = true.

(** A zero or a positive finite number. *)
Definition nonneg32 (x : F32.float) : Prop :=
  match x with
  | S754_zero _ | S754_finite false _ _ => True
  | _ => False
  end.

(** A record of the rounding pipeline stands for the rational [N / D]:
    its mantissa is the integer part, the round and sticky bits place
    the remainder with respect to one half. *)
Definition rec_ok (N D : Z) (r : shr_record) : Prop :=
  let a := N - shr_m r * D in
  0 <= shr_m r /\ 0 <= a < D /\
  shr_r r = (D <=? 2 * a) /\
  shr_s r = negb (a =? 0) && negb (2 * a =? D).

(** What [binary_round_aux] returns for the rounded mantissa [m2] at the
    exponent [e1]. *)
Definition round_result (s : bool) (m2 e1 : Z) : F32.float :=
  if m2 =? 0 then S754_zero s
  else if m2 <? 16777216 then
    if e1 <=? 104 then S754_finite s (Z.to_pos m2) e1 else S754_infinity s
  else
    if e1 + 1 <=? 104 then S754_finite s (Z.to_pos (m2 / 2)) (e1 + 1)
    else S754_infinity s.

(** [r] is the binary32 number nearest to the rational [N / D], counted
    in units of 2^-149: [m1] is the truncated and [m2] the rounded
    mantissa at the exponent [e1] of the result. *)
Definition rounded32 (s : bool) (N D : Z) (r : F32.float) : Prop :=
  exists e1 m1 m2 : Z,
    -149 <= e1 /\ 0 <= m1 < 16777216 /\ m1 <= m2 <= m1 + 1 /\
    (e1 = -149 \/ 8388608 <= m1) /\
    m1 * 2 ^ (e1 + 149) * D <= N < (m1 + 1) * 2 ^ (e1 + 149) * D /\
    2 * Z.abs (m2 * 2 ^ (e1 + 149) * D - N) <= 2 ^ (e1 + 149) * D /\
    r = round_result s m2 e1.

(** The check behind the value of a decoded Q8.8 number: [v / 256] is
    [v * 2^141] units of 2^-149, held in canonical form. *)
Definition decode_value_ok (v : Z) : bool :=
  match CNN_FixedToFloat v with
  | S754_nan | S754_infinity _ => false
  | x => valid_binary F32.prec F32.emax x && (F2Z x =? v * 2 ^ 141)
  end.

(** What the softmax needs from [expf]: it returns 1 at [+0.0f], and a
    binary32 number in [0, 1] for every argument that compares at most
    zero. *)
Definition expf_on_nonpositive (expf : F32.float -> F32.float) : Prop :=
  expf (S754_zero false) = F32.of_Z 1 /\
  forall x, F32.le x (S754_zero false) = true ->
            valid32 (expf x) /\ is_probability (expf x).

(** The exact sum of the values of a list of binary32 numbers, in units
    of 2^-149. *)
Definition sum_val (l : list F32.float) : Z :=
  fold_right (fun x acc => F2Z x + acc) 0 l.

(** A canonical number in [0, 1]. *)
Definition unit32 (x : F32.float) : Prop :=
  valid32 x /\ nonneg32 x /\ 0 <= F2Z x <= one_val.

(** The softmax as the specification states it, for every non-empty
    array whatever its length: the outputs are the exponentials of the
    decoded logits minus the largest one, over their sum; each output is
    in [0, 1] and the outputs sum to 1 within 1e-5. *)
Definition softmax_distribution_claim : Prop :=
  forall (expf : F32.float -> F32.float) (input : Z -> Z) (n : nat),
    expf_on_nonpositive expf ->
    (forall i, 0 <= i <= Z.of_nat n -> is_int16 (input i)) ->
    let out := CNN_Softmax expf input (Z.of_nat (S n)) in
    out = softmax_of_max expf input n /\
    Forall is_probability out /\
    100000 * Z.abs (sum_val out - one_val) <= one_val.

(** An [expf] that agrees with the correctly rounded exponential at the
    two arguments of the scenario below: 1 at zero, and
    14277418 * 2^-48 at -16.796875. *)
Definition expf_two_valued (x : F32.float) : F32.float :=
  match x with
  | S754_zero _ => F32.of_Z 1
  | _ => S754_finite false 14277418 (-48)
  end.

(** One logit of 16.796875 (4300 in Q8.8) followed by zeros. *)
Definition one_large_logit (i : Z) : Z := if i =? 0 then 4300 else 0.

(** The check of the sum of the softmax of 255 such logits against the
    tolerance. *)
Definition large_array_within_tolerance : bool :=
  100000 * Z.abs (sum_val (CNN_Softmax expf_two_valued one_large_logit 255)
                  - one_val) <=? one_val.

(* ------------------------------------------------------------------ *)
(** * Properties of the state machine *)

Lemma writes_app t1 t2 : writes (t1 ++ t2) = writes t1 ++ writes t2.
Proof.
  unfold writes. induction t1 as [|e t1 IH]; simpl; [reflexivity|].
  destruct (is_write e); simpl; rewrite IH; reflexivity.
Qed.

Lemma slept_app t1 t2 : slept (t1 ++ t2) = slept t1 + slept t2.
Proof.
  induction t1 as [|e t1 IH]; simpl; [reflexivity|].
  destruct e; rewrite IH; lia.
Qed.

Lemma world_eta w : mkWorld (handle w) (trace w) = w.
Proof. destruct w; reflexivity. Qed.

Arguments test_bits : simpl never.
Arguments wrap32 : simpl never.
Arguments status_addr : simpl never.

Ltac run_driver :=
  unfold CNN_READ_REG, CNN_WRITE_REG, Xil_In32, Xil_Out32, Xil_DCacheFlushRange,
    Xil_DCacheInvalidateRange, usleep, memcpy, emit, modify_handle, put_handle,
    get_handle, bind, ret in *; simpl in *;
  repeat match goal with
         | |- context [wrap32 (base_addr ?h + CNN_REG_STATUS)] =>
             change (wrap32 (base_addr h + CNN_REG_STATUS)) with (status_addr h)
         end.

(** C3. When the status register reads as busy, [CNN_StartInference]
    returns [XST_FAILURE]; the only thing it has done is that one status
    read: no register is written (the start bit in particular), and the
    handle, with its completion flag, is as before. *)
Theorem StartInference_busy_rejected :
  forall (hw : list event -> Z -> Z) (w : World) (frame_addr : Z),
    test_bits (hw (trace w) (status_addr (handle w))) CNN_STAT_BUSY = true ->
    exists w',
      CNN_StartInference hw PTR frame_addr w = (XST_FAILURE, w') /\
      handle w' = handle w /\
      inference_done (handle w') = inference_done (handle w) /\
      trace w' = trace w ++ [EvIn32 (status_addr (handle w))
                                    (hw (trace w) (status_addr (handle w)))] /\
      writes (trace w') = writes (trace w).
Proof.
  intros hw w frame_addr Hbusy.
  eexists. unfold CNN_StartInference. run_driver.
  fold (status_addr (handle w)). rewrite Hbusy.
  split; [reflexivity|]. simpl.
  repeat split. rewrite writes_app. simpl. apply app_nil_r.
Qed.

Lemma StartInference_busy_rejected_witness :
  exists w',
    CNN_StartInference (hw_const 1) PTR 0x20000000 done_world = (XST_FAILURE, w') /\
    handle w' = handle done_world /\
    inference_done (handle w') = inference_done (handle done_world) /\
    trace w' = trace done_world ++ [EvIn32 (status_addr (handle done_world)) 1] /\
    writes (trace w') = writes (trace done_world).
Proof.
  apply (StartInference_busy_rejected (hw_const 1) done_world 0x20000000).
  reflexivity.
Defined.

(** C6. A configuration whose width or height is 0 or above 224 is
    refused: [CNN_Configure] returns [XST_FAILURE] and the world is
    exactly as before, so no configuration is stored and no register
    written.  A 128 x 128 configuration is accepted and stored. *)
Theorem Configure_validates_dimensions :
  (forall (w : World) (c : CnnConfig_t),
      input_width c = 0 \/ input_height c = 0 \/
      224 < input_width c \/ 224 < input_height c ->
      CNN_Configure PTR (Some c) w = (XST_FAILURE, w)) /\
  (forall (w : World) (c : CnnConfig_t),
      input_width c = 128 -> input_height c = 128 ->
      fst (CNN_Configure PTR (Some c) w) = XST_SUCCESS /\
      config (handle (snd (CNN_Configure PTR (Some c) w))) = c).
Proof.
  split.
  - intros w c Hbad. unfold CNN_Configure.
    assert (Hcond : (input_width c =? 0) || (input_height c =? 0) ||
                    (224 <? input_width c) || (224 <? input_height c) = true).
    { rewrite !orb_true_iff, !Z.eqb_eq, !Z.ltb_lt. tauto. }
    rewrite Hcond. reflexivity.
  - intros w c Hw Hh. unfold CNN_Configure. rewrite Hw, Hh. simpl.
    run_driver. split; reflexivity.
Qed.

Lemma Configure_validates_dimensions_witness :
  CNN_Configure PTR (Some (mkConfig 0 128 3 10 0xFF CNN_ACT_RELU CNN_POOL_MAX))
                fresh_world = (XST_FAILURE, fresh_world) /\
  CNN_Configure PTR (Some (mkConfig 128 225 3 10 0xFF CNN_ACT_RELU CNN_POOL_MAX))
                fresh_world = (XST_FAILURE, fresh_world) /\
  fst (CNN_Configure PTR (Some default_config) done_world) = XST_SUCCESS /\
  config (handle (snd (CNN_Configure PTR (Some default_config) done_world)))
    = default_config.
Proof.
  destruct Configure_validates_dimensions as [Hbad Hok].
  split; [|split].
  - apply Hbad. simpl. left. reflexivity.
  - apply Hbad. simpl. right. right. right. lia.
  - apply Hok; reflexivity.
Defined.

(** C7. While no completion has been observed, [CNN_GetResult] returns
    [XST_FAILURE] and has no effect at all: no cache operation, no register
    access, and the caller's result structure is handed back untouched. *)
Theorem GetResult_premature_no_effect :
  forall (dev_mem : list event -> Z -> Z) (expf : F32.float -> F32.float)
         (w : World) (result : option InferenceResult_t),
    inference_done (handle w) = 0 ->
    CNN_GetResult dev_mem expf PTR result w = Some (XST_FAILURE, result, w).
Proof.
  intros dev_mem expf w result Hnot.
  unfold CNN_GetResult. destruct result as [res|]; [|reflexivity].
  rewrite Hnot. reflexivity.
Qed.

Lemma GetResult_premature_no_effect_witness :
  CNN_GetResult zero_memory unit_expf PTR (Some (mkResult 0 [])) fresh_world
  = Some (XST_FAILURE, Some (mkResult 0 []), fresh_world).
Proof.
  apply (GetResult_premature_no_effect zero_memory unit_expf fresh_world
                                       (Some (mkResult 0 []))).
  reflexivity.
Defined.

(** C4. [CNN_Configure] checks the dimensions only: a configuration with
    200 classes is accepted and stored, although the arrays the class count
    later indexes hold [CNN_MAX_CLASSES] = 100 elements; the next
    [CNN_GetResult] then runs out of the bounds of [probs]. *)
Theorem Configure_accepts_200_classes :
  let c := mkConfig 128 128 3 200 0xFF CNN_ACT_RELU CNN_POOL_MAX in
  let r := CNN_Configure PTR (Some c) fresh_world in
  config_in_range c /\
  fst r = XST_SUCCESS /\
  num_classes (config (handle (snd r))) = 200 /\
  ~ num_classes (config (handle (snd r))) <= CNN_MAX_CLASSES /\
  forall dev_mem expf result tr,
    CNN_GetResult dev_mem expf PTR (Some result)
      (mkWorld (set_inference_done 1 (handle (snd r))) tr) = None.
Proof.
  cbv zeta. split; [|split; [|split; [|split]]].
  - unfold config_in_range, is_uint16, is_uint8. simpl. lia.
  - reflexivity.
  - reflexivity.
  - unfold CNN_MAX_CLASSES. simpl. lia.
  - intros. reflexivity.
Qed.

(** The polling loop, when the first status read shows neither busy nor
    done. *)
Lemma wait_loop_not_busy_not_done :
  forall (hw : list event -> Z -> Z) (w : World) (fuel : nat) (T e : Z),
    let a := status_addr (handle w) in
    let s1 := hw (trace w) a in
    let s2 := hw (trace w ++ [EvIn32 a s1]) a in
    test_bits s1 CNN_STAT_DONE = false ->
    test_bits s1 CNN_STAT_BUSY = false ->
    (test_bits s1 CNN_STAT_ERROR_MASK = true ->
     wait_loop hw (S fuel) T e w
     = (Some XST_FAILURE, mkWorld (handle w) (trace w ++ [EvIn32 a s1]))) /\
    (test_bits s1 CNN_STAT_ERROR_MASK = false ->
     test_bits s2 CNN_STAT_DONE = true ->
     wait_loop hw (S fuel) T e w
     = (Some XST_SUCCESS,
        mkWorld (set_inference_done 1 (handle w))
                (trace w ++ [EvIn32 a s1; EvIn32 a s2]))).
Proof.
  intros hw w fuel T e a s1 s2 Hdone Hbusy. split.
  - intros Herr. subst a s1 s2. simpl. run_driver.
    rewrite Hdone, Hbusy, Herr. reflexivity.
  - intros Herr Hdone2. subst a s1 s2. simpl. run_driver.
    rewrite Hdone, Hbusy, Herr. run_driver.
    rewrite Hdone2. simpl. rewrite <- app_assoc. reflexivity.
Qed.

(** On [hw_error_then_done] the re-read would show done, but the driver
    never issues it: it fails on the error bits of the first read. *)
Lemma recheck_before_error_refuted : ~ recheck_before_error_claim.
Proof.
  intros Hclaim.
  specialize (Hclaim hw_error_then_done fresh_world 0%nat 50).
  simpl in Hclaim.
  assert (H : Some XST_FAILURE = Some XST_SUCCESS)
    by (apply Hclaim; reflexivity).
  discriminate H.
Qed.

Lemma wrap32_small z : 0 <= z < 2 ^ 32 -> wrap32 z = z.
Proof. intros H. unfold wrap32. apply Z.mod_small. exact H. Qed.

(** With [elapsed] at [e], the loop needs [T - e] more sleeps of one
    millisecond and one more iteration to give up. *)
Lemma wait_loop_always_busy :
  forall (hw : list event -> Z -> Z) (h : CnnAccelerator_t) (T : Z),
    always_busy hw h -> 0 < T < 2 ^ 32 ->
    forall (fuel : nat) (e : Z) (t : list event),
      0 <= e <= T ->
      (Z.of_nat fuel <= T - e ->
       fst (wait_loop hw fuel T e (mkWorld h t)) = None) /\
      (T - e < Z.of_nat fuel ->
       exists t',
         wait_loop hw fuel T e (mkWorld h t)
         = (Some XST_FAILURE, mkWorld h (t ++ t')) /\
         slept t' = (T - e) * 1000 /\ writes t' = []).
Proof.
  intros hw h T Hhw HT.
  induction fuel as [|fuel IH]; intros e t He.
  - split; [reflexivity | lia].
  - destruct (Hhw t) as [Hdone Hbusy].
    assert (Hstep :
      wait_loop hw (S fuel) T e (mkWorld h t)
      = if (0 <? T) && (T <=? e)
        then (Some XST_FAILURE,
              mkWorld h (t ++ [EvIn32 (status_addr h) (hw t (status_addr h))]))
        else wait_loop hw fuel T (wrap32 (e + poll_interval))
               (mkWorld h ((t ++ [EvIn32 (status_addr h) (hw t (status_addr h))])
                             ++ [EvSleep (poll_interval * 1000)]))).
    { simpl. run_driver. rewrite Hdone, Hbusy. simpl.
      destruct ((0 <? T) && (T <=? e)); reflexivity. }
    rewrite Hstep. clear Hstep.
    destruct (Z.leb_spec T e) as [Hle|Hlt].
    + assert (e = T) by lia. subst e.
      replace (0 <? T) with true by (symmetry; apply Z.ltb_lt; lia). simpl.
      split; [lia|]. intros _. eexists. split; [reflexivity|].
      split; [simpl; lia | reflexivity].
    + rewrite andb_false_r. unfold poll_interval.
      rewrite wrap32_small by lia.
      destruct (IH (e + 1)
                   ((t ++ [EvIn32 (status_addr h) (hw t (status_addr h))])
                      ++ [EvSleep (1 * 1000)])) as [IHnone IHsome]; [lia|].
      split.
      * intros Hfuel. apply IHnone. lia.
      * intros Hfuel. destruct IHsome as (t' & Heq & Hslept & Hwrites); [lia|].
        exists ([EvIn32 (status_addr h) (hw t (status_addr h))]
                  ++ [EvSleep (1 * 1000)] ++ t').
        split; [|split].
        -- rewrite Heq. rewrite <- !app_assoc. reflexivity.
        -- simpl. rewrite Hslept. lia.
        -- simpl. exact Hwrites.
Qed.

(** With a timeout of 0 the timeout test never fires. *)
Lemma wait_loop_no_timeout :
  forall (hw : list event -> Z -> Z) (h : CnnAccelerator_t),
    always_busy hw h ->
    forall (fuel : nat) (e : Z) (t : list event),
      fst (wait_loop hw fuel 0 e (mkWorld h t)) = None.
Proof.
  intros hw h Hhw. induction fuel as [|fuel IH]; intros e t.
  - reflexivity.
  - destruct (Hhw t) as [Hdone Hbusy].
    simpl. run_driver. rewrite Hdone, Hbusy. simpl.
    apply IH.
Qed.

(** C2. Against a status source that never reports done and never clears
    busy, a wait with a timeout of [T] > 0 milliseconds does not return
    during its first [T] iterations, and returns [XST_FAILURE] in the next
    one, when it has slept [T] times one millisecond; it writes no register
    and leaves the handle alone.  With a timeout of 0 it never returns. *)
Theorem WaitForCompletion_timeout :
  forall (hw : list event -> Z -> Z) (w : World),
    always_busy hw (handle w) ->
    (forall (T : Z) (fuel : nat),
        0 < T < 2 ^ 32 ->
        (Z.of_nat fuel <= T ->
         fst (CNN_WaitForCompletion hw fuel PTR T w) = None) /\
        (T < Z.of_nat fuel ->
         exists w',
           CNN_WaitForCompletion hw fuel PTR T w = (Some XST_FAILURE, w') /\
           handle w' = handle w /\
           slept (trace w') = slept (trace w) + T * 1000 /\
           writes (trace w') = writes (trace w))) /\
    (forall fuel : nat, fst (CNN_WaitForCompletion hw fuel PTR 0 w) = None).
Proof.
  intros hw w Hhw. unfold CNN_WaitForCompletion. split.
  - intros T fuel HT.
    destruct (wait_loop_always_busy hw (handle w) T Hhw HT fuel 0 (trace w))
      as [Hnone Hsome]; [lia|].
    rewrite world_eta in Hnone, Hsome. split.
    + intros Hfuel. apply Hnone. lia.
    + intros Hfuel. destruct Hsome as (t' & Heq & Hslept & Hwrites); [lia|].
      eexists. split; [exact Heq|]. simpl.
      rewrite slept_app, writes_app, Hslept, Hwrites, app_nil_r.
      repeat split. lia.
  - intros fuel.
    rewrite <- (world_eta w). apply wait_loop_no_timeout. exact Hhw.
Qed.

Lemma WaitForCompletion_timeout_witness :
  fst (CNN_WaitForCompletion (hw_const 1) 50 PTR 50 fresh_world) = None /\
  (exists w',
      CNN_WaitForCompletion (hw_const 1) 51 PTR 50 fresh_world
      = (Some XST_FAILURE, w') /\
      handle w' = handle fresh_world /\
      slept (trace w') = slept (trace fresh_world) + 50 * 1000 /\
      writes (trace w') = writes (trace fresh_world)) /\
  fst (CNN_WaitForCompletion (hw_const 1) 200 PTR 0 fresh_world) = None.
Proof.
  assert (Hhw : always_busy (hw_const 1) (handle fresh_world)).
  { intros t. split; reflexivity. }
  destruct (WaitForCompletion_timeout (hw_const 1) fresh_world Hhw)
    as [Hpos Hzero].
  destruct (Hpos 50 50%nat ltac:(lia)) as [Hnone _].
  destruct (Hpos 50 51%nat ltac:(lia)) as [_ Hsome].
  split; [apply Hnone; lia|]. split; [apply Hsome; lia|]. apply Hzero.
Defined.

(** The polling loop only ever assigns 1 to the completion flag. *)
Lemma wait_loop_keeps_done :
  forall (hw : list event -> Z -> Z) (fuel : nat) (T e : Z) (w : World),
    inference_done (handle w) <> 0 ->
    inference_done (handle (snd (wait_loop hw fuel T e w))) <> 0.
Proof.
  intros hw. induction fuel as [|fuel IH]; intros T e w Hdone.
  - exact Hdone.
  - simpl. run_driver.
    destruct (test_bits _ CNN_STAT_DONE); [simpl; lia|].
    destruct (test_bits _ CNN_STAT_BUSY); simpl.
    + destruct ((0 <? T) && (T <=? e)); [exact Hdone|].
      apply IH. exact Hdone.
    + destruct (test_bits _ CNN_STAT_ERROR_MASK); [exact Hdone|].
      destruct (test_bits _ CNN_STAT_DONE); [simpl; lia|].
      destruct ((0 <? T) && (T <=? e)); [exact Hdone|].
      apply IH. exact Hdone.
Qed.

(** [CNN_Init] is a fourth call that clears the flag: it assigns 0 itself
    and then calls [CNN_Reset]. *)
Lemma done_reset_refuted : ~ done_reset_claim.
Proof.
  intros Hclaim.
  apply (Hclaim (hw_const 0) zero_memory unit_expf PTR CallInit done_world
                (snd (CNN_Init (hw_const 0) PTR done_world))).
  - reflexivity.
  - simpl. lia.
  - reflexivity.
  - reflexivity.
Qed.

(** C10, as the driver does it.  Once the completion flag is set,
    [CNN_IsComplete] answers 1 from the flag, with no access to the
    hardware, whatever the status register would read.  The flag stays set
    through every call of the API except [CNN_StartInference], [CNN_Stop],
    [CNN_Reset] and [CNN_Init]. *)
Theorem IsComplete_sticky :
  (forall (hw : list event -> Z -> Z) (w : World),
      inference_done (handle w) <> 0 ->
      CNN_IsComplete hw PTR w = (1, w)) /\
  (forall hw dev_mem expf cnn (c : api_call) (w w' : World),
      clears_done c = false ->
      inference_done (handle w) <> 0 ->
      run_call hw dev_mem expf cnn c w = Some w' ->
      inference_done (handle w') <> 0).
Proof.
  split.
  - intros hw w Hdone. unfold CNN_IsComplete. run_driver.
    apply Z.eqb_neq in Hdone. rewrite Hdone. reflexivity.
  - intros hw dev_mem expf cnn c w w' Hc Hdone Hrun.
    destruct cnn.
    { destruct c; simpl in Hrun; try discriminate Hc;
        try (destruct config0); try (destruct weights); try (destruct biases);
        try (destruct status); try (destruct result);
        inversion Hrun; subst; exact Hdone. }
    destruct c; simpl in Hc; try discriminate Hc; simpl in Hrun.
    + (* CNN_Configure *)
      inversion Hrun; subst; clear Hrun. unfold CNN_Configure.
      destruct config0 as [c|]; [|exact Hdone].
      destruct (_ || _); [exact Hdone|]. run_driver. exact Hdone.
    + (* CNN_LoadWeights *)
      inversion Hrun; subst; clear Hrun. unfold CNN_LoadWeights.
      destruct weights; [|exact Hdone].
      destruct (size =? 0); [exact Hdone|]. run_driver. exact Hdone.
    + (* CNN_LoadBiases *)
      inversion Hrun; subst; clear Hrun. unfold CNN_LoadBiases.
      destruct biases; [|exact Hdone].
      destruct (size =? 0); [exact Hdone|]. run_driver. exact Hdone.
    + (* CNN_WaitForCompletion *)
      inversion Hrun; subst; clear Hrun.
      apply wait_loop_keeps_done. exact Hdone.
    + (* CNN_IsComplete *)
      inversion Hrun; subst; clear Hrun. unfold CNN_IsComplete. run_driver.
      destruct (inference_done (handle w) =? 0); simpl; [|exact Hdone].
      destruct (test_bits _ _); simpl; [lia | exact Hdone].
    + (* CNN_GetResult *)
      unfold CNN_GetResult in Hrun.
      destruct result as [res|]; [|inversion Hrun; subst; exact Hdone].
      destruct (inference_done (handle w) =? 0);
        [inversion Hrun; subst; exact Hdone|].
      run_driver.
      destruct (CNN_MAX_CLASSES <? _); [discriminate Hrun|].
      destruct (CNN_GetTopK _ _ _ _); [|discriminate Hrun].
      inversion Hrun; subst. exact Hdone.
    + (* CNN_GetStatus *)
      inversion Hrun; subst; clear Hrun. unfold CNN_GetStatus.
      destruct status; [|exact Hdone]. run_driver. exact Hdone.
    + (* CNN_EnableInterrupt *)
      inversion Hrun; subst; clear Hrun. unfold CNN_EnableInterrupt.
      destruct (negb _); run_driver; exact Hdone.
    + (* CNN_ClearInterrupt *)
      inversion Hrun; subst; clear Hrun. exact Hdone.
    + (* CNN_InterruptHandler *)
      inversion Hrun; subst; clear Hrun. unfold CNN_InterruptHandler.
      run_driver. destruct (test_bits _ _); simpl; [lia | exact Hdone].
Qed.

Lemma IsComplete_sticky_witness :
  CNN_IsComplete (hw_const 0) PTR done_world = (1, done_world) /\
  inference_done
    (handle (snd (CNN_WaitForCompletion (hw_const 1) 5 PTR 3 done_world))) <> 0.
Proof.
  destruct IsComplete_sticky as [Hsticky Hkeep]. split.
  - apply Hsticky. simpl. lia.
  - apply (Hkeep (hw_const 1) zero_memory unit_expf PTR (CallWaitForCompletion 5 3)
                 done_world).
    + reflexivity.
    + simpl. lia.
    + reflexivity.
Defined.

(* ------------------------------------------------------------------ *)
(** * Properties of the fixed-point codec *)

Lemma forall_from_sound (f : Z -> bool) :
  forall (n : nat) (lo : Z),
    forall_from lo n f = true ->
    forall v, lo <= v < lo + Z.of_nat n -> f v = true.
Proof.
  induction n as [|n IH]; intros lo Hall v Hv.
  - lia.
  - simpl in Hall. apply andb_true_iff in Hall. destruct Hall as [Hlo Hrest].
    destruct (Z.eq_dec v lo) as [->|Hne]; [exact Hlo|].
    apply (IH (lo + 1) Hrest). lia.
Qed.

(** Every Q8.8 value survives the trip through [float]: checked on each of
    the 65536 values, with the binary32 division and multiplication
    carried out. *)
Lemma roundtrip_all_int16 :
  forall_from (-32768) (Z.to_nat 65536) roundtrip_ok = true.
Proof. vm_compute. reflexivity. Qed.

(** C9. For every 16-bit signed Q8.8 value [v], converting to float
    (divide by 256) and back (scale by 256, saturate, truncate) gives [v]
    again. *)
Theorem FixedToFloat_FloatToFixed_roundtrip :
  forall v : Z, is_int16 v -> CNN_FloatToFixed (CNN_FixedToFloat v) = Some v.
Proof.
  intros v Hv. unfold is_int16 in Hv.
  pose proof (forall_from_sound roundtrip_ok _ _ roundtrip_all_int16 v) as H.
  unfold roundtrip_ok in H.
  destruct (CNN_FloatToFixed (CNN_FixedToFloat v)) as [r|].
  - f_equal. apply Z.eqb_eq. apply H. lia.
  - discriminate H. lia.
Qed.

Lemma FixedToFloat_FloatToFixed_roundtrip_witness :
  CNN_FloatToFixed (CNN_FixedToFloat (-32768)) = Some (-32768).
Proof.
  apply (FixedToFloat_FloatToFixed_roundtrip (-32768)).
  unfold is_int16. lia.
Defined.

(* ------------------------------------------------------------------ *)
(** * Properties of the top-K selection *)

(** ** The order of floats *)

Ltac sf_cases :=
  repeat match goal with
         | x : spec_float |- _ => destruct x as [[]|[]| |[] ? ?]
         | x : F32.float |- _ => destruct x as [[]|[]| |[] ? ?]
         end;
  simpl in *; try discriminate; try reflexivity; try congruence.

Ltac cmp_cases :=
  repeat match goal with
         | H : context [Z.compare ?a ?b] |- _ =>
             destruct (Z.compare_spec a b); subst
         | |- context [Z.compare ?a ?b] =>
             destruct (Z.compare_spec a b); subst
         | H : context [Pos.compare_cont Eq ?a ?b] |- _ =>
             change (Pos.compare_cont Eq a b) with (Pos.compare a b) in *;
             destruct (Pos.compare_spec a b); subst
         | |- context [Pos.compare_cont Eq ?a ?b] =>
             change (Pos.compare_cont Eq a b) with (Pos.compare a b) in *;
             destruct (Pos.compare_spec a b); subst
         end;
  simpl in *; try discriminate; try reflexivity; try lia.

Ltac sf_order :=
  unfold F32.lt, F32.gt, F32.le, SFltb, SFleb, SFcompare in *;
  sf_cases; cmp_cases.

Lemma F32_lt_le_trans (x y z : F32.float) :
  F32.lt x y = true -> F32.le y z = true -> F32.lt x z = true.
Proof. intros H1 H2. sf_order. Qed.

Lemma F32_le_lt_trans (x y z : F32.float) :
  F32.le x y = true -> F32.lt y z = true -> F32.lt x z = true.
Proof. intros H1 H2. sf_order. Qed.

Lemma F32_lt_le (x y : F32.float) : F32.lt x y = true -> F32.le x y = true.
Proof. intros H. sf_order. Qed.

Lemma F32_not_gt_le (x y z : F32.float) :
  F32.gt x z = true -> F32.gt y z = true ->
  F32.gt x y = false -> F32.le x y = true.
Proof. intros H1 H2 H3. sf_order. Qed.

Lemma F32_le_refl (x z : F32.float) : F32.gt x z = true -> F32.le x x = true.
Proof. intros H. sf_order. Qed.

(** A probability is above the sentinel the scan starts from. *)
Lemma probability_above_sentinel (p : F32.float) :
  is_probability p -> F32.gt p neg_one = true.
Proof.
  intros [H0 _]. unfold F32.gt. change (SFltb neg_one p) with (F32.lt neg_one p).
  apply (F32_lt_le_trans neg_one (F32.of_Z 0) p); [reflexivity | exact H0].
Qed.

(** ** The inner loop *)

Lemma prob_at_lookup (probs : list F32.float) (i : nat) (p : F32.float) :
  probs !! i = Some p -> prob_at probs i = p.
Proof. intros H. unfold prob_at. rewrite H. reflexivity. Qed.

Lemma sel_inv_init : sel_inv (replicate (Z.to_nat CNN_MAX_CLASSES) false) [].
Proof.
  split.
  - apply length_replicate.
  - intros i Hi. rewrite length_replicate in Hi.
    rewrite lookup_replicate_2 by exact Hi.
    rewrite bool_decide_eq_false_2; [reflexivity | apply not_elem_of_nil].
Qed.

Lemma sel_inv_insert (selected : list bool) (chosen : list nat) (b : nat) :
  sel_inv selected chosen -> (b < length selected)%nat ->
  sel_inv (<[b := true]> selected) (b :: chosen).
Proof.
  intros [Hlen Hlook] Hb. split.
  - rewrite length_insert. exact Hlen.
  - intros i Hi. rewrite length_insert in Hi.
    destruct (decide (b = i)) as [->|Hne].
    + rewrite list_lookup_insert_eq by exact Hi.
      rewrite bool_decide_eq_true_2; [reflexivity | apply elem_of_cons; auto].
    + rewrite list_lookup_insert_ne by exact Hne.
      rewrite (Hlook i Hi). f_equal. apply bool_decide_ext.
      rewrite elem_of_cons. intuition congruence.
Qed.

Lemma scan_fold (probs : list F32.float) (selected : list bool) (chosen : list nat) :
  sel_inv selected chosen ->
  (length probs <= length selected)%nat ->
  forall (l : list nat) (st : F32.float * Z),
    (forall i, i ∈ l -> (i < length probs)%nat) ->
    fold_left (scan_step probs selected) l (Some st)
    = Some (fold_left (keep_best probs) (filter (fun i => i ∉ chosen) l) st).
Proof.
  intros [Hlen Hlook] Hle.
  induction l as [|i l IH]; intros [max_prob max_idx] Hl; [reflexivity|].
  assert (Hi : (i < length probs)%nat) by (apply Hl; apply elem_of_cons; auto).
  assert (Hl' : forall j, j ∈ l -> (j < length probs)%nat).
  { intros j Hj. apply Hl. apply elem_of_cons. auto. }
  simpl fold_left.
  rewrite (Hlook i) by lia.
  destruct (decide (i ∈ chosen)) as [Hin|Hnot].
  - rewrite bool_decide_eq_true_2 by exact Hin.
    rewrite filter_cons_False by (intros Hn; exact (Hn Hin)).
    apply IH. exact Hl'.
  - rewrite bool_decide_eq_false_2 by exact Hnot.
    rewrite filter_cons_True by exact Hnot.
    destruct (lookup_lt_is_Some_2 probs i Hi) as [p Hp].
    rewrite Hp. simpl fold_left. unfold keep_best at 2.
    rewrite (prob_at_lookup _ _ _ Hp). simpl fst.
    destruct (F32.gt p max_prob); apply IH; exact Hl'.
Qed.

Lemma keep_best_fold (probs : list F32.float) :
  forall (rest : list nat) (i : nat),
    fold_left (keep_best probs) rest (prob_at probs i, Z.of_nat i)
    = (prob_at probs (best_of probs i rest),
       Z.of_nat (best_of probs i rest)).
Proof.
  induction rest as [|j rest IH]; intros i; [reflexivity|].
  simpl. unfold keep_best at 2. simpl fst.
  destruct (F32.gt (prob_at probs j) (prob_at probs i)); apply IH.
Qed.

Lemma candidates_valid (probs : list F32.float) (chosen : list nat) (i : nat) :
  i ∈ candidates probs chosen <-> (i ∉ chosen) /\ (i < length probs)%nat.
Proof.
  unfold candidates. rewrite list_elem_of_filter, elem_of_seq. intuition lia.
Qed.

(** What the inner loop computes: the first maximum among the candidates,
    or the sentinel when there is none. *)
Lemma scan_spec (probs : list F32.float) (selected : list bool) (chosen : list nat) :
  above_sentinel probs ->
  sel_inv selected chosen ->
  (length probs <= length selected)%nat ->
  scan probs (Z.of_nat (length probs)) selected
  = Some match argmax_first probs (candidates probs chosen) with
         | None => (neg_one, -1)
         | Some b => (prob_at probs b, Z.of_nat b)
         end.
Proof.
  intros Habove Hinv Hle. unfold scan. rewrite Nat2Z.id.
  rewrite (scan_fold probs selected chosen Hinv Hle).
  2:{ intros i Hi. apply elem_of_seq in Hi. lia. }
  fold (candidates probs chosen).
  destruct (candidates probs chosen) as [|c rest] eqn:Hc; [reflexivity|].
  assert (Hin : c ∈ candidates probs chosen) by (rewrite Hc; apply elem_of_cons; auto).
  apply candidates_valid in Hin. destruct Hin as [_ Hlt].
  destruct (lookup_lt_is_Some_2 probs c Hlt) as [p Hp].
  simpl. unfold keep_best at 2. simpl fst.
  rewrite (prob_at_lookup _ _ _ Hp), (Habove c p Hp).
  rewrite <- (prob_at_lookup _ _ _ Hp). rewrite keep_best_fold. reflexivity.
Qed.

(** ** The first maximum *)

Lemma prob_at_above (probs : list F32.float) (i : nat) :
  above_sentinel probs -> (i < length probs)%nat ->
  F32.gt (prob_at probs i) neg_one = true.
Proof.
  intros Habove Hi. destruct (lookup_lt_is_Some_2 probs i Hi) as [p Hp].
  rewrite (prob_at_lookup _ _ _ Hp). exact (Habove i p Hp).
Qed.

Lemma best_of_inv (probs : list F32.float) :
  above_sentinel probs ->
  forall (rest pre : list nat) (best : nat),
    (forall j, j ∈ pre ++ rest -> (j < length probs)%nat) ->
    best_inv probs pre best ->
    best_inv probs (pre ++ rest) (best_of probs best rest).
Proof.
  intros Habove. induction rest as [|j rest IH]; intros pre best Hvalid Hinv.
  - rewrite app_nil_r. exact Hinv.
  - replace (pre ++ j :: rest) with ((pre ++ [j]) ++ rest) in *
      by (rewrite <- app_assoc; reflexivity).
    unfold best_of. simpl fold_left.
    destruct Hinv as (l1 & l2 & Hpre & Hlt & Hle).
    assert (Hj : F32.gt (prob_at probs j) neg_one = true).
    { apply prob_at_above; [exact Habove|]. apply Hvalid.
      rewrite !elem_of_app, elem_of_cons. auto. }
    assert (Hbest : F32.gt (prob_at probs best) neg_one = true).
    { apply prob_at_above; [exact Habove|]. apply Hvalid.
      rewrite Hpre, !elem_of_app, elem_of_cons. auto. }
    destruct (F32.gt (prob_at probs j) (prob_at probs best)) eqn:Hgt.
    + apply (IH (pre ++ [j]) j Hvalid).
      exists pre, []. split; [reflexivity|]. split.
      * intros x Hx. apply (F32_le_lt_trans _ (prob_at probs best));
          [apply Hle; exact Hx | exact Hgt].
      * intros x Hx. apply elem_of_app in Hx. destruct Hx as [Hx|Hx].
        -- apply F32_lt_le. apply (F32_le_lt_trans _ (prob_at probs best));
             [apply Hle; exact Hx | exact Hgt].
        -- apply list_elem_of_singleton in Hx. subst x.
           apply (F32_le_refl _ neg_one). exact Hj.
    + apply (IH (pre ++ [j]) best Hvalid).
      exists l1, (l2 ++ [j]). split; [|split].
      * rewrite Hpre. rewrite <- app_assoc. reflexivity.
      * exact Hlt.
      * intros x Hx. apply elem_of_app in Hx. destruct Hx as [Hx|Hx].
        -- apply Hle. exact Hx.
        -- apply list_elem_of_singleton in Hx. subst x.
           apply (F32_not_gt_le _ _ neg_one); assumption.
Qed.

Lemma argmax_first_inv (probs : list F32.float) (cands : list nat) (b : nat) :
  above_sentinel probs ->
  (forall j, j ∈ cands -> (j < length probs)%nat) ->
  argmax_first probs cands = Some b ->
  best_inv probs cands b.
Proof.
  intros Habove Hvalid Harg. destruct cands as [|i rest]; [discriminate|].
  injection Harg as <-.
  apply (best_of_inv probs Habove rest [i] i Hvalid).
  exists [], []. split; [reflexivity|]. split.
  - intros j Hj. apply elem_of_nil in Hj. contradiction.
  - intros j Hj. apply list_elem_of_singleton in Hj. subst j.
    apply (F32_le_refl _ neg_one). apply prob_at_above; [exact Habove|].
    apply Hvalid. apply elem_of_cons. auto.
Qed.

Lemma argmax_first_elem (probs : list F32.float) (cands : list nat) (b : nat) :
  above_sentinel probs ->
  (forall j, j ∈ cands -> (j < length probs)%nat) ->
  argmax_first probs cands = Some b ->
  b ∈ cands /\
  forall j, j ∈ cands -> F32.le (prob_at probs j) (prob_at probs b) = true.
Proof.
  intros Habove Hvalid Harg.
  destruct (argmax_first_inv probs cands b Habove Hvalid Harg)
    as (l1 & l2 & Hpre & _ & Hle).
  split; [|exact Hle].
  rewrite Hpre. rewrite elem_of_app, elem_of_cons. auto.
Qed.

Lemma candidates_lt (probs : list F32.float) (chosen : list nat) :
  forall j, j ∈ candidates probs chosen -> (j < length probs)%nat.
Proof. intros j Hj. apply candidates_valid in Hj. tauto. Qed.

Lemma candidates_cons (probs : list F32.float) (chosen : list nat) (b : nat) :
  candidates probs (b :: chosen)
  = filter (fun i => i <> b) (candidates probs chosen).
Proof.
  unfold candidates. rewrite list_filter_filter.
  apply list_filter_iff. intros i. rewrite not_elem_of_cons. tauto.
Qed.

Lemma length_filter_ne (l : list nat) (b : nat) :
  NoDup l -> b ∈ l ->
  S (length (filter (fun i => i <> b) l)) = length l.
Proof.
  induction l as [|a l IH]; intros Hnd Hb.
  - apply elem_of_nil in Hb. contradiction.
  - apply NoDup_cons in Hnd. destruct Hnd as [Ha Hnd].
    destruct (decide (a = b)) as [->|Hne].
    + rewrite filter_cons_False by (intros Hn; apply Hn; reflexivity).
      simpl. f_equal.
      clear IH Hb Hnd. induction l as [|x l IHl]; [reflexivity|].
      apply not_elem_of_cons in Ha. destruct Ha as [Hxb Ha].
      rewrite filter_cons_True by (intros ->; apply Hxb; reflexivity).
      simpl. f_equal. apply IHl. exact Ha.
    + rewrite filter_cons_True by exact Hne.
      simpl. f_equal. apply IH; [exact Hnd|].
      apply elem_of_cons in Hb. destruct Hb as [->|Hb]; [congruence | exact Hb].
Qed.

Lemma candidates_NoDup (probs : list F32.float) (chosen : list nat) :
  NoDup (candidates probs chosen).
Proof. unfold candidates. apply NoDup_filter. apply NoDup_seq. Qed.

Lemma candidates_nil (probs : list F32.float) :
  candidates probs [] = seq 0 (length probs).
Proof.
  unfold candidates. induction (seq 0 (length probs)) as [|x l IH]; [reflexivity|].
  rewrite filter_cons_True by apply not_elem_of_nil. f_equal. exact IH.
Qed.

(** ** The rounds *)

Lemma select_rounds_length (probs : list F32.float) :
  above_sentinel probs ->
  forall (rounds : nat) (chosen : list nat),
    length (select_rounds probs rounds chosen)
    = Nat.min rounds (length (candidates probs chosen)).
Proof.
  intros Habove. induction rounds as [|rounds IH]; intros chosen; [reflexivity|].
  simpl select_rounds.
  destruct (argmax_first probs (candidates probs chosen)) as [b|] eqn:Harg.
  - destruct (argmax_first_elem probs _ b Habove (candidates_lt probs chosen) Harg)
      as [Hb _].
    simpl length. rewrite IH, candidates_cons.
    pose proof (length_filter_ne _ b (candidates_NoDup probs chosen) Hb). lia.
  - destruct (candidates probs chosen); [simpl; lia | discriminate].
Qed.

Lemma select_rounds_elem (probs : list F32.float) :
  above_sentinel probs ->
  forall (rounds : nat) (chosen : list nat) (c : ClassificationResult_t),
    c ∈ select_rounds probs rounds chosen ->
    exists i, i ∈ candidates probs chosen /\ c = entry probs i.
Proof.
  intros Habove. induction rounds as [|rounds IH]; intros chosen c Hc.
  - apply elem_of_nil in Hc. contradiction.
  - simpl in Hc.
    destruct (argmax_first probs (candidates probs chosen)) as [b|] eqn:Harg;
      [|apply elem_of_nil in Hc; contradiction].
    destruct (argmax_first_elem probs _ b Habove (candidates_lt probs chosen) Harg)
      as [Hb _].
    apply elem_of_cons in Hc. destruct Hc as [->|Hc].
    + exists b. split; [exact Hb | reflexivity].
    + destruct (IH _ _ Hc) as (i & Hi & ->). exists i. split; [|reflexivity].
      rewrite candidates_cons in Hi. apply list_elem_of_filter in Hi. tauto.
Qed.

(** The confidences come out in non-increasing order. *)
Lemma select_rounds_sorted (probs : list F32.float) :
  above_sentinel probs ->
  forall (rounds : nat) (chosen : list nat) (i j : nat)
         (ci cj : ClassificationResult_t),
    (i <= j)%nat ->
    select_rounds probs rounds chosen !! i = Some ci ->
    select_rounds probs rounds chosen !! j = Some cj ->
    F32.le (confidence cj) (confidence ci) = true.
Proof.
  intros Habove. induction rounds as [|rounds IH]; intros chosen i j ci cj Hij Hi Hj.
  - discriminate Hi.
  - simpl in Hi, Hj.
    destruct (argmax_first probs (candidates probs chosen)) as [b|] eqn:Harg;
      [|discriminate Hi].
    destruct (argmax_first_elem probs _ b Habove (candidates_lt probs chosen) Harg)
      as [Hb Hmax].
    destruct i as [|i].
    + injection Hi as <-. simpl confidence.
      destruct j as [|j].
      * injection Hj as <-. simpl. apply (F32_le_refl _ neg_one).
        apply prob_at_above; [exact Habove|]. exact (candidates_lt _ _ _ Hb).
      * simpl in Hj. apply list_elem_of_lookup_2 in Hj.
        destruct (select_rounds_elem probs Habove _ _ _ Hj) as (x & Hx & ->).
        simpl. apply Hmax.
        rewrite candidates_cons in Hx. apply list_elem_of_filter in Hx. tauto.
    + destruct j as [|j]; [lia|]. simpl in Hi, Hj.
      apply (IH (b :: chosen) i j ci cj); [lia | exact Hi | exact Hj].
Qed.

(** The outer loop writes the picks of the reference selection into
    [results], from index [k] on, and nothing else. *)
Lemma topk_rounds_spec (probs : list F32.float) :
  above_sentinel probs ->
  forall (rounds k : nat) (selected : list bool) (chosen : list nat)
         (results : list ClassificationResult_t),
    sel_inv selected chosen ->
    (length probs <= length selected)%nat ->
    (select_rounds probs rounds chosen <> [] ->
     (k + length (select_rounds probs rounds chosen) <= length results)%nat) ->
    topk_rounds probs (Z.of_nat (length probs)) rounds k selected results
    = Some (take k results ++ select_rounds probs rounds chosen
              ++ drop (k + length (select_rounds probs rounds chosen)) results).
Proof.
  intros Habove.
  induction rounds as [|rounds IH]; intros k selected chosen results Hinv Hle Hroom.
  - simpl. rewrite Nat.add_0_r, take_drop. reflexivity.
  - simpl topk_rounds. rewrite (scan_spec probs selected chosen Habove Hinv Hle).
    simpl select_rounds in *.
    destruct (argmax_first probs (candidates probs chosen)) as [b|] eqn:Harg.
    + destruct (argmax_first_elem probs _ b Habove (candidates_lt probs chosen) Harg)
        as [Hb _].
      apply candidates_lt in Hb.
      replace (0 <=? Z.of_nat b) with true by (symmetry; apply Z.leb_le; lia).
      simpl length in *.
      assert (Hk : (k < length results)%nat) by (specialize (Hroom ltac:(discriminate)); lia).
      destruct (lookup_lt_is_Some_2 results k Hk) as [old Hold].
      rewrite Hold, Nat2Z.id.
      rewrite (IH (S k) _ (b :: chosen)).
      * f_equal.
        rewrite (take_S_r _ _ (entry probs b))
          by (apply list_lookup_insert_eq; exact Hk).
        rewrite take_insert_ge by lia.
        rewrite drop_insert_lt by lia.
        rewrite <- app_assoc. simpl.
        replace (S (k + length (select_rounds probs rounds (b :: chosen))))
          with (k + S (length (select_rounds probs rounds (b :: chosen))))%nat by lia.
        reflexivity.
      * apply sel_inv_insert; [exact Hinv | lia].
      * rewrite length_insert. exact Hle.
      * intros _. rewrite length_insert.
        specialize (Hroom ltac:(discriminate)). lia.
    + replace (0 <=? -1) with false by reflexivity.
      assert (Hnil : select_rounds probs rounds chosen = []).
      { destruct rounds; [reflexivity|]. simpl. rewrite Harg. reflexivity. }
      rewrite (IH (S k) selected chosen results Hinv Hle).
      * rewrite Hnil. simpl. rewrite !Nat.add_0_r, !take_drop. reflexivity.
      * intros Hne. contradiction.
Qed.

Lemma probabilities_above_sentinel (probs : list F32.float) :
  Forall is_probability probs -> above_sentinel probs.
Proof.
  intros Hall i p Hp. apply probability_above_sentinel.
  exact (proj1 (Forall_lookup _ _) Hall i p Hp).
Qed.

(** The first pick of the first round is the first index of the largest
    element. *)
Lemma argmax_first_seq (probs : list F32.float) (b : nat) :
  above_sentinel probs ->
  argmax_first probs (seq 0 (length probs)) = Some b ->
  is_first_argmax probs b.
Proof.
  intros Habove Harg.
  assert (Hvalid : forall j, j ∈ seq 0 (length probs) -> (j < length probs)%nat).
  { intros j Hj. apply elem_of_seq in Hj. lia. }
  destruct (argmax_first_inv probs _ b Habove Hvalid Harg)
    as (l1 & l2 & Hsplit & Hlt & Hle).
  assert (Hb : (b < length probs)%nat).
  { apply Hvalid. rewrite Hsplit, elem_of_app, elem_of_cons. auto. }
  assert (Hl1 : length l1 = b).
  { assert (Hat : seq 0 (length probs) !! length l1 = Some b).
    { rewrite Hsplit. rewrite lookup_app_r by lia.
      rewrite Nat.sub_diag. reflexivity. }
    apply lookup_seq in Hat. lia. }
  destruct (lookup_lt_is_Some_2 probs b Hb) as [p Hp].
  exists p. split; [exact Hp|]. rewrite <- (prob_at_lookup _ _ _ Hp). split.
  - intros j q Hq. rewrite <- (prob_at_lookup _ _ _ Hq). apply Hle.
    apply elem_of_seq. apply lookup_lt_Some in Hq. lia.
  - intros j q Hj Hq. rewrite <- (prob_at_lookup _ _ _ Hq). apply Hlt.
    apply (list_elem_of_lookup_2 _ j).
    assert (Hat : seq 0 (length probs) !! j = Some j).
    { apply lookup_seq. apply lookup_lt_Some in Hq. lia. }
    rewrite Hsplit in Hat. rewrite lookup_app_l in Hat by lia. exact Hat.
Qed.

(** C8. For an array of probabilities that fits the [selected] scratch
    array, and a [results] array with room for the picks, [CNN_GetTopK] is
    the repeated selection of the specification: it stores the picks of
    [TopK_spec] at the front of [results] and leaves the rest alone.
    There are min(k, N) picks, their confidences do not increase, and the
    first pick is the first index of the largest probability. *)
Theorem GetTopK_repeated_selection :
  forall (probs : list F32.float) (top_k : Z)
         (results : list ClassificationResult_t),
    Forall is_probability probs ->
    Z.of_nat (length probs) <= CNN_MAX_CLASSES ->
    Z.min top_k (Z.of_nat (length probs)) <= Z.of_nat (length results) ->
    let sel := TopK_spec probs top_k in
    CNN_GetTopK probs (Z.of_nat (length probs)) top_k results
    = Some (sel ++ drop (length sel) results) /\
    length sel = Nat.min (Z.to_nat top_k) (length probs) /\
    (forall (i j : nat) (ci cj : ClassificationResult_t),
        (i <= j)%nat -> sel !! i = Some ci -> sel !! j = Some cj ->
        F32.le (confidence cj) (confidence ci) = true) /\
    (forall c : ClassificationResult_t,
        sel !! 0%nat = Some c ->
        exists b : nat,
          class_id c = Z.of_nat b /\ probs !! b = Some (confidence c) /\
          is_first_argmax probs b).
Proof.
  intros probs top_k results Hprobs Hmax Hroom sel.
  pose proof (probabilities_above_sentinel probs Hprobs) as Habove.
  assert (Hlen : length sel = Nat.min (Z.to_nat top_k) (length probs)).
  { unfold sel, TopK_spec. rewrite (select_rounds_length probs Habove).
    rewrite candidates_nil, length_seq. reflexivity. }
  split; [|split; [exact Hlen|split]].
  - unfold CNN_GetTopK.
    rewrite (topk_rounds_spec probs Habove (Z.to_nat top_k) 0 _ [] results
               sel_inv_init).
    + reflexivity.
    + rewrite length_replicate. lia.
    + intros _. fold (TopK_spec probs top_k). fold sel. lia.
  - intros i j ci cj. apply (select_rounds_sorted probs Habove).
  - intros c Hc. unfold sel, TopK_spec in Hc.
    destruct (Z.to_nat top_k) as [|rounds]; [discriminate Hc|].
    simpl in Hc. rewrite candidates_nil in Hc.
    destruct (argmax_first probs (seq 0 (length probs))) as [b|] eqn:Harg;
      [|discriminate Hc].
    injection Hc as <-. exists b. simpl.
    pose proof (argmax_first_seq probs b Habove Harg) as Hfirst.
    split; [reflexivity|]. split; [|exact Hfirst].
    destruct Hfirst as (p & Hp & _). rewrite (prob_at_lookup _ _ _ Hp). exact Hp.
Qed.

Lemma GetTopK_repeated_selection_witness :
  CNN_GetTopK sample_probs 3 5 sample_results
  = Some ([mkClassification 1 half; mkClassification 0 quarter;
           mkClassification 2 quarter]
            ++ drop 3 sample_results) /\
  length (TopK_spec sample_probs 5) = 3%nat.
Proof.
  destruct (GetTopK_repeated_selection sample_probs 5 sample_results)
    as (Hrun & Hlen & _ & _).
  - repeat constructor.
  - vm_compute. discriminate.
  - vm_compute. discriminate.
  - split; [exact Hrun | exact Hlen].
Defined.

(* ------------------------------------------------------------------ *)
(** * Further properties of the driver *)

Arguments reg_addr : simpl never.

Ltac fold_regs :=
  repeat match goal with
         | |- context [wrap32 (base_addr ?h + ?off)] =>
             change (wrap32 (base_addr h + off)) with (reg_addr h off)
         | |- context [status_addr ?h] =>
             change (status_addr h) with (reg_addr h CNN_REG_STATUS)
         end.

(** [CNN_Init] overwrites the handle with the defaults, resets the
    hardware and probes the status register once; it fails exactly when
    that read returns all ones, and the handle is defaulted either way. *)
Lemma Init_probes_status :
  forall (hw : list event -> Z -> Z) (w : World),
    let t := trace w ++ reset_events fresh_handle in
    let s := hw t (reg_addr fresh_handle CNN_REG_STATUS) in
    CNN_Init hw PTR w
    = (if s =? 0xFFFFFFFF then XST_FAILURE else XST_SUCCESS,
       mkWorld fresh_handle (t ++ [EvIn32 (reg_addr fresh_handle CNN_REG_STATUS) s])).
Proof.
  intros hw w t s. unfold CNN_Init, CNN_Reset. run_driver.
  subst t s. unfold reset_events.
  rewrite <- !app_assoc. simpl.
  change (wrap32 (CNN_ACCEL_BASE_ADDR + CNN_REG_STATUS))
    with (reg_addr fresh_handle CNN_REG_STATUS).
  change (wrap32 (CNN_ACCEL_BASE_ADDR + CNN_REG_CONTROL))
    with (reg_addr fresh_handle CNN_REG_CONTROL).
  change (wrap32 (CNN_ACCEL_BASE_ADDR + CNN_REG_IRQ_STATUS))
    with (reg_addr fresh_handle CNN_REG_IRQ_STATUS).
  destruct (_ =? _); reflexivity.
Qed.

(** X1. For a configuration within the ranges of its types,
    [CNN_Configure] succeeds exactly when both dimensions are in 1..224;
    it then stores the configuration, keeps every other field of the
    handle, and writes the six configuration registers in a fixed order,
    the control register not being among them. *)
Theorem Configure_success_iff :
  forall (w : World) (c : CnnConfig_t),
    config_in_range c ->
    (fst (CNN_Configure PTR (Some c) w) = XST_SUCCESS <-> valid_dimensions c) /\
    (valid_dimensions c ->
     CNN_Configure PTR (Some c) w
     = (XST_SUCCESS,
        mkWorld (set_config c (handle w))
                (trace w ++ configure_writes (handle w) c))).
Proof.
  intros w c (Hw & Hh & _). unfold is_uint16 in Hw, Hh.
  assert (Hok : valid_dimensions c ->
     CNN_Configure PTR (Some c) w
     = (XST_SUCCESS,
        mkWorld (set_config c (handle w))
                (trace w ++ configure_writes (handle w) c))).
  { intros [Hvw Hvh]. unfold CNN_Configure.
    replace (input_width c =? 0) with false by (symmetry; apply Z.eqb_neq; lia).
    replace (input_height c =? 0) with false by (symmetry; apply Z.eqb_neq; lia).
    replace (224 <? input_width c) with false by (symmetry; apply Z.ltb_ge; lia).
    replace (224 <? input_height c) with false by (symmetry; apply Z.ltb_ge; lia).
    simpl. run_driver. fold_regs. unfold configure_writes.
    rewrite <- !app_assoc. reflexivity. }
  split; [|exact Hok]. split.
  - intros Hret. unfold valid_dimensions.
    unfold CNN_Configure in Hret.
    destruct (Z.eqb_spec (input_width c) 0) as [E1|E1];
      [discriminate Hret|].
    destruct (Z.eqb_spec (input_height c) 0) as [E2|E2];
      [discriminate Hret|].
    destruct (Z.ltb_spec 224 (input_width c)) as [E3|E3];
      [discriminate Hret|].
    destruct (Z.ltb_spec 224 (input_height c)) as [E4|E4];
      [discriminate Hret|].
    lia.
  - intros Hv. rewrite (Hok Hv). reflexivity.
Qed.

Lemma Configure_success_iff_witness :
  (fst (CNN_Configure PTR (Some default_config) done_world) = XST_SUCCESS
   <-> valid_dimensions default_config) /\
  (valid_dimensions default_config ->
   CNN_Configure PTR (Some default_config) done_world
   = (XST_SUCCESS,
      mkWorld (set_config default_config (handle done_world))
              (trace done_world
                 ++ configure_writes (handle done_world) default_config))).
Proof.
  apply (Configure_success_iff done_world default_config).
  unfold config_in_range, is_uint16, is_uint8. simpl. lia.
Defined.

(** The packed register depends on three fields only. *)
Lemma cfg_reg_of_fields (c : CnnConfig_t) :
  cfg_reg_of c
  = cfg_reg_of (mkConfig 0 0 0 0 (layer_enable c) (activation c) (pool_type c)).
Proof. reflexivity. Qed.

Lemma cfg_decodes_all (a : CnnActivation_t) (p : CnnPoolType_t) :
  forall_from 0 (Z.to_nat 256) (cfg_decodes a p) = true.
Proof. destruct a, p; vm_compute; reflexivity. Qed.

(** X2. The configuration register loses nothing: the layer mask, the
    activation code and the pooling bit can be read back from the packed
    value, which uses the low twelve bits only. *)
Theorem cfg_reg_decodes :
  forall c : CnnConfig_t,
    is_uint8 (layer_enable c) ->
    cfg_layer_enable (cfg_reg_of c) = layer_enable c /\
    cfg_activation (cfg_reg_of c) = activation_code (activation c) /\
    cfg_pool_avg (cfg_reg_of c) = pool_is_avg (pool_type c) /\
    0 <= cfg_reg_of c < 2 ^ 12.
Proof.
  intros c Hle. unfold is_uint8 in Hle.
  pose proof (forall_from_sound _ _ _ (cfg_decodes_all (activation c) (pool_type c))
                                (layer_enable c)) as H.
  rewrite cfg_reg_of_fields.
  unfold cfg_decodes in H. cbv zeta in H.
  rewrite !andb_true_iff in H.
  destruct H as ((((H1 & H2) & H3) & H4) & H5); [lia|].
  apply Z.eqb_eq in H1, H2. apply Bool.eqb_prop in H3.
  apply Z.leb_le in H4. apply Z.ltb_lt in H5.
  repeat split; assumption.
Qed.

Lemma cfg_reg_decodes_witness :
  cfg_layer_enable (cfg_reg_of default_config) = 0xFF /\
  cfg_activation (cfg_reg_of default_config) = 1 /\
  cfg_pool_avg (cfg_reg_of default_config) = false /\
  0 <= cfg_reg_of default_config < 2 ^ 12.
Proof.
  apply (cfg_reg_decodes default_config). unfold is_uint8. simpl. lia.
Defined.

Lemma lor_shiftl16_bound (h w : Z) :
  0 <= h < 65536 -> 0 <= w < 65536 ->
  0 <= Z.lor (Z.shiftl h 16) w < 2 ^ 32.
Proof.
  intros Hh Hw.
  assert (Hs : 0 <= Z.shiftl h 16 < 4294967296).
  { rewrite Z.shiftl_mul_pow2 by lia. change (2 ^ 16) with 65536. lia. }
  assert (Hnn : 0 <= Z.lor (Z.shiftl h 16) w) by (apply Z.lor_nonneg; lia).
  split; [exact Hnn|].
  destruct (Z.eq_dec (Z.lor (Z.shiftl h 16) w) 0) as [->|Hne]; [reflexivity|].
  apply Z.log2_lt_pow2; [lia|].
  rewrite Z.log2_lor by lia.
  apply Z.max_lub_lt.
  - destruct (Z.eq_dec (Z.shiftl h 16) 0) as [->|Hn]; [reflexivity|].
    apply Z.log2_lt_pow2; [lia|]. change (2 ^ 32) with 4294967296. lia.
  - destruct (Z.eq_dec w 0) as [->|Hn]; [reflexivity|].
    apply Z.log2_lt_pow2; [lia|]. change (2 ^ 32) with 4294967296. lia.
Qed.

(** X3. The dimension register holds the width in its low and the height
    in its high sixteen bits, for all dimensions the fields can hold. *)
Theorem dim_reg_decodes :
  forall c : CnnConfig_t,
    is_uint16 (input_width c) -> is_uint16 (input_height c) ->
    Z.land (dim_reg_of c) 0xFFFF = input_width c /\
    Z.shiftr (dim_reg_of c) 16 = input_height c /\
    0 <= dim_reg_of c < 2 ^ 32.
Proof.
  intros c Hw Hh. unfold is_uint16 in Hw, Hh. unfold dim_reg_of.
  pose proof (lor_shiftl16_bound (input_height c) (input_width c)
                ltac:(lia) ltac:(lia)) as Hb.
  rewrite wrap32_small by exact Hb.
  split; [|split; [|exact Hb]].
  - change 0xFFFF with (Z.ones 16).
    rewrite Z.land_lor_distr_l, !Z.land_ones by lia.
    rewrite Z.shiftl_mul_pow2 by lia. rewrite Z.mod_mul by (compute; discriminate).
    rewrite Z.lor_0_l. apply Z.mod_small. change (2 ^ 16) with 65536. lia.
  - rewrite Z.shiftr_lor. rewrite Z.shiftr_shiftl_l by lia.
    rewrite Z.sub_diag, Z.shiftl_0_r.
    rewrite (Z.shiftr_div_pow2 (input_width c)) by lia.
    rewrite Z.div_small by (change (2 ^ 16) with 65536; lia). apply Z.lor_0_r.
Qed.

Lemma dim_reg_decodes_witness :
  Z.land (dim_reg_of default_config) 0xFFFF = 128 /\
  Z.shiftr (dim_reg_of default_config) 16 = 128 /\
  0 <= dim_reg_of default_config < 2 ^ 32.
Proof.
  apply (dim_reg_decodes default_config); unfold is_uint16; simpl; lia.
Defined.

(** X4. For a configuration [CNN_Configure] accepts, the extent
    [CNN_StartInference] flushes is width x height x channels x 2 bytes as
    an exact product: it stays below 2^31, so neither the [int]
    multiplication nor the conversion to [uint32_t] wraps. *)
Theorem frame_size_exact :
  forall c : CnnConfig_t,
    valid_dimensions c -> is_uint8 (input_channels c) ->
    frame_size_of c = input_width c * input_height c * input_channels c * 2 /\
    0 <= frame_size_of c <= 25589760.
Proof.
  intros c [Hw Hh] Hc. unfold is_uint8 in Hc. unfold frame_size_of.
  assert (Hwh : 0 <= input_width c * input_height c <= 50176) by nia.
  assert (Hb : 0 <= input_width c * input_height c * input_channels c * 2
               <= 25589760) by nia.
  rewrite wrap32_small by lia. split; [reflexivity | exact Hb].
Qed.

Lemma frame_size_exact_witness :
  frame_size_of default_config = 128 * 128 * 3 * 2 /\
  0 <= frame_size_of default_config <= 25589760.
Proof.
  apply (frame_size_exact default_config).
  - unfold valid_dimensions. simpl. lia.
  - unfold is_uint8. simpl. lia.
Defined.

(** ** Every call stays inside the register map *)

Lemma reg_addr_inj (h : CnnAccelerator_t) (o1 o2 : Z) :
  0 <= o1 < 2 ^ 32 -> 0 <= o2 < 2 ^ 32 ->
  reg_addr h o1 = reg_addr h o2 -> o1 = o2.
Proof.
  unfold reg_addr, wrap32. change (2 ^ 32) with 4294967296.
  intros H1 H2 Heq.
  pose proof (Z.div_mod (base_addr h + o1) 4294967296 ltac:(lia)) as E1.
  pose proof (Z.div_mod (base_addr h + o2) 4294967296 ltac:(lia)) as E2.
  rewrite Heq in E1. lia.
Qed.

Lemma writable_in (h : CnnAccelerator_t) (b off v : Z) :
  base_addr h = b -> In off writable_regs ->
  access_ok h (EvOut32 (wrap32 (b + off)) v).
Proof. intros <- Hin. exists off. split; [exact Hin | reflexivity]. Qed.

Lemma readable_in (h : CnnAccelerator_t) (b off v : Z) :
  base_addr h = b -> In off readable_regs ->
  access_ok h (EvIn32 (wrap32 (b + off)) v).
Proof. intros <- Hin. exists off. split; [exact Hin | reflexivity]. Qed.

Ltac in_regs := unfold writable_regs, readable_regs; simpl; tauto.

Ltac access_list :=
  simpl;
  repeat (constructor;
          [ first [ exact I
                  | apply writable_in; [reflexivity | in_regs]
                  | apply readable_in; [reflexivity | in_regs] ] | ]);
  constructor.

(** What the polling loop does: status reads and sleeps only.  It ends in
    success right after a status read that shows done, with the completion
    flag set to 1; otherwise the handle is as before. *)
Lemma wait_loop_shape (hw : list event -> Z -> Z) :
  forall (fuel : nat) (T e : Z) (w : World),
    exists evs,
      trace (snd (wait_loop hw fuel T e w)) = trace w ++ evs /\
      Forall (access_ok (handle w)) evs /\
      writes evs = [] /\
      wait_outcome (handle w) (wait_loop hw fuel T e w) evs.
Proof.
  induction fuel as [|fuel IH]; intros T e w.
  - exists []. simpl. rewrite app_nil_r. repeat split; auto.
    right. split; [left|]; reflexivity.
  - simpl. run_driver. fold_regs.
    set (s1 := hw (trace w) (reg_addr (handle w) CNN_REG_STATUS)).
    assert (Hcont : forall evs2,
      Forall (access_ok (handle w)) evs2 -> writes evs2 = [] ->
      let r := (if (0 <? T) && (T <=? e)
                then fun w0 : World => (Some XST_FAILURE, w0)
                else fun w0 : World =>
                       wait_loop hw fuel T (wrap32 (e + poll_interval))
                         (mkWorld (handle w0)
                                  (trace w0 ++ [EvSleep (poll_interval * 1000)])))
                 (mkWorld (handle w) (trace w ++ evs2)) in
      exists evs,
        trace (snd r) = trace w ++ evs /\
        Forall (access_ok (handle w)) evs /\ writes evs = [] /\
        wait_outcome (handle w) r evs).
    { intros evs2 Hok Hwr r. subst r.
      destruct ((0 <? T) && (T <=? e)).
      - exists evs2. simpl. repeat split; auto.
        right. split; [right|]; reflexivity.
      - destruct (IH T (wrap32 (e + poll_interval))
                     (mkWorld (handle w)
                        ((trace w ++ evs2) ++ [EvSleep (poll_interval * 1000)])))
          as (evs & Ht' & Hok' & Hwr' & Hout).
        simpl in Ht', Hok', Hout. simpl.
        exists (evs2 ++ [EvSleep (poll_interval * 1000)] ++ evs).
        split; [rewrite Ht', <- !app_assoc; reflexivity|].
        split; [|split].
        + apply Forall_app. split; [exact Hok|].
          apply Forall_cons. split; [exact I | exact Hok'].
        + rewrite !writes_app, Hwr, Hwr'. reflexivity.
        + destruct Hout as [(Hr & Hh & pre & s & Hevs & Hs) | Hout];
            [left | right; exact Hout].
          split; [exact Hr|]. split; [exact Hh|].
          exists (evs2 ++ [EvSleep (poll_interval * 1000)] ++ pre), s.
          split; [rewrite Hevs, <- !app_assoc; reflexivity | exact Hs]. }
    destruct (test_bits s1 CNN_STAT_DONE) eqn:Hd1.
    { exists [EvIn32 (reg_addr (handle w) CNN_REG_STATUS) s1]. simpl.
      split; [reflexivity|]. split; [unfold reg_addr; access_list|].
      split; [reflexivity|]. left. split; [reflexivity|]. split; [reflexivity|].
      exists [], s1. split; [reflexivity | exact Hd1]. }
    destruct (test_bits s1 CNN_STAT_BUSY); simpl.
    { apply (Hcont [EvIn32 (reg_addr (handle w) CNN_REG_STATUS) s1]);
        [unfold reg_addr; access_list | reflexivity]. }
    destruct (test_bits s1 CNN_STAT_ERROR_MASK).
    { exists [EvIn32 (reg_addr (handle w) CNN_REG_STATUS) s1]. simpl.
      split; [reflexivity|]. split; [unfold reg_addr; access_list|].
      split; [reflexivity|]. right. split; [right|]; reflexivity. }
    simpl. fold_regs.
    set (s2 := hw (trace w ++ [EvIn32 (reg_addr (handle w) CNN_REG_STATUS) s1])
                  (reg_addr (handle w) CNN_REG_STATUS)).
    destruct (test_bits s2 CNN_STAT_DONE) eqn:Hd2.
    { exists [EvIn32 (reg_addr (handle w) CNN_REG_STATUS) s1;
              EvIn32 (reg_addr (handle w) CNN_REG_STATUS) s2]. simpl.
      split; [rewrite <- app_assoc; reflexivity|].
      split; [unfold reg_addr; access_list|]. split; [reflexivity|].
      left. split; [reflexivity|]. split; [reflexivity|].
      exists [EvIn32 (reg_addr (handle w) CNN_REG_STATUS) s1], s2.
      split; [reflexivity | exact Hd2]. }
    pose proof (Hcont [EvIn32 (reg_addr (handle w) CNN_REG_STATUS) s1;
                       EvIn32 (reg_addr (handle w) CNN_REG_STATUS) s2]
                      ltac:(unfold reg_addr; access_list) eq_refl) as Hc.
    cbv zeta in Hc. destruct Hc as (evs & H1 & H2 & H3 & H4).
    assert (Hl : trace w ++ [EvIn32 (reg_addr (handle w) CNN_REG_STATUS) s1;
                             EvIn32 (reg_addr (handle w) CNN_REG_STATUS) s2]
                 = (trace w ++ [EvIn32 (reg_addr (handle w) CNN_REG_STATUS) s1])
                     ++ [EvIn32 (reg_addr (handle w) CNN_REG_STATUS) s2])
      by (rewrite <- app_assoc; reflexivity).
    rewrite Hl in H1, H4. exists evs. repeat split; assumption.
Qed.

Lemma ctrl_addr_distinct (h : CnnAccelerator_t) (off : Z) :
  0 < off < 2 ^ 32 ->
  (reg_addr h off =? reg_addr h CNN_REG_CONTROL) = false.
Proof.
  intros Hoff. apply Z.eqb_neq. intros Heq.
  apply reg_addr_inj in Heq; [unfold CNN_REG_CONTROL in Heq; lia | lia |].
  unfold CNN_REG_CONTROL. change (2 ^ 32) with 4294967296. lia.
Qed.

Lemma not_start_other_reg (h : CnnAccelerator_t) (b off v : Z) :
  base_addr h = b -> 0 < off < 2 ^ 32 ->
  is_start h (EvOut32 (wrap32 (b + off)) v) = false.
Proof.
  intros <- Hoff. unfold is_start.
  change (wrap32 (base_addr h + off)) with (reg_addr h off).
  rewrite ctrl_addr_distinct by exact Hoff. reflexivity.
Qed.

Lemma not_start_value (h : CnnAccelerator_t) (a v : Z) :
  test_bits v CNN_CTRL_START = false -> is_start h (EvOut32 a v) = false.
Proof. intros Hv. simpl. rewrite Hv. apply andb_false_r. Qed.

Lemma no_writes_no_start (h : CnnAccelerator_t) (evs : list event) :
  writes evs = [] -> Forall (fun e => is_start h e = false) evs.
Proof.
  unfold writes. induction evs as [|e evs IH]; intros Hw; [constructor|].
  destruct e; simpl in Hw; try discriminate Hw;
    (constructor; [reflexivity | apply IH; exact Hw]).
Qed.

Lemma access_ok_same_base (h h' : CnnAccelerator_t) (e : event) :
  base_addr h' = base_addr h -> access_ok h e -> access_ok h' e.
Proof.
  intros Hb. unfold access_ok, reg_addr. rewrite Hb. tauto.
Qed.

Ltac start_list :=
  simpl;
  repeat (constructor;
          [ first [ reflexivity
                  | apply not_start_value; reflexivity
                  | apply not_start_other_reg;
                    [reflexivity | vm_compute; split; reflexivity] ] | ]);
  constructor.

Lemma mirror_write (h : CnnAccelerator_t) (b off v : Z) :
  base_addr h = b -> 0 <= off < 2 ^ 32 ->
  (off = CNN_REG_WEIGHT_ADDR -> v = weight_mem_addr h) ->
  (off = CNN_REG_BIAS_ADDR -> v = bias_mem_addr h) ->
  (off = CNN_REG_OUTPUT_ADDR -> v = output_result_addr h) ->
  mirror_ok h (EvOut32 (wrap32 (b + off)) v).
Proof.
  intros <- Hoff Hw Hb Ho. unfold mirror_ok.
  change (wrap32 (base_addr h + off)) with (reg_addr h off).
  repeat split; intros Heq;
    (apply reg_addr_inj in Heq; [auto | exact Hoff | vm_compute; split; [discriminate | reflexivity]]).
Qed.

Ltac mirror_list :=
  simpl;
  repeat (constructor;
          [ first [ exact I
                  | apply mirror_write;
                    [ reflexivity
                    | vm_compute; split; [discriminate | reflexivity]
                    | intros Hoff; first [reflexivity | exfalso; vm_compute in Hoff; discriminate Hoff]
                    | intros Hoff; first [reflexivity | exfalso; vm_compute in Hoff; discriminate Hoff]
                    | intros Hoff; first [reflexivity | exfalso; vm_compute in Hoff; discriminate Hoff] ] ] | ]);
  constructor.

Lemma no_writes_mirror (h : CnnAccelerator_t) (evs : list event) :
  writes evs = [] -> Forall (mirror_ok h) evs.
Proof.
  unfold writes. induction evs as [|e evs IH]; intros Hw; [constructor|].
  destruct e; simpl in Hw; try discriminate Hw;
    (constructor; [exact I | apply IH; exact Hw]).
Qed.

Ltac same_addr := unfold same_addresses; simpl; repeat split; reflexivity.

(** What a call of the API does to the world, in the terms the register
    invariants need. *)
Lemma run_call_effect :
  forall hw dev_mem expf (cnn : pointer) (c : api_call) (w w' : World),
    run_call hw dev_mem expf cnn c w = Some w' ->
    exists evs,
      trace w' = trace w ++ evs /\
      Forall (access_ok (handle w')) evs /\
      Forall (mirror_ok (handle w')) evs /\
      ((forall f, c <> CallStartInference f) ->
       Forall (fun e => is_start (handle w') e = false) evs) /\
      (c <> CallInit ->
       same_addresses (handle w) (handle w') /\
       ((forall cfg, c <> CallConfigure cfg) ->
        config (handle w') = config (handle w))).
Proof.
  intros hw dev_mem expf cnn c w w' Hrun.
  assert (Hnone : w' = w ->
    exists evs,
      trace w' = trace w ++ evs /\
      Forall (access_ok (handle w')) evs /\
      Forall (mirror_ok (handle w')) evs /\
      ((forall f, c <> CallStartInference f) ->
       Forall (fun e => is_start (handle w') e = false) evs) /\
      (c <> CallInit ->
       same_addresses (handle w) (handle w') /\
       ((forall cfg, c <> CallConfigure cfg) ->
        config (handle w') = config (handle w)))).
  { intros ->. exists []. rewrite app_nil_r.
    repeat split; first [constructor | reflexivity]. }
  destruct cnn.
  { apply Hnone.
    destruct c as [|cfg0| |weights size|biases size|f|fuel timeout_ms| |result
                   |status| |enable| |]; simpl in Hrun;
      try (destruct cfg0); try (destruct weights); try (destruct biases);
      try (destruct status); try (destruct result);
      inversion Hrun; reflexivity. }
  destruct c as [|cfg0| |weights size|biases size|f|fuel timeout_ms| |result
                 |status| |enable| |]; simpl in Hrun.
  - (* CNN_Init *)
    inversion Hrun; subst; clear Hrun Hnone.
    unfold CNN_Init, CNN_Reset. run_driver.
    destruct (_ =? 0xFFFFFFFF); simpl;
      (eexists; split; [rewrite <- !app_assoc; reflexivity|];
       split; [access_list|]; split; [mirror_list|]; split; [intros _; start_list | intros Hne; congruence]).
  - (* CNN_Configure *)
    inversion Hrun; subst; clear Hrun. unfold CNN_Configure.
    destruct cfg0 as [cfg|]; [|apply Hnone; reflexivity].
    destruct (_ || _); [apply Hnone; reflexivity|].
    run_driver.
    eexists. split; [rewrite <- !app_assoc; reflexivity|].
    split; [access_list|]. split; [mirror_list|]. split; [intros _; start_list|].
    intros _. split; [same_addr|]. intros Hne. exfalso. exact (Hne (Some cfg) eq_refl).
  - (* CNN_Reset *)
    inversion Hrun; subst; clear Hrun. unfold CNN_Reset. run_driver.
    eexists. split; [rewrite <- !app_assoc; reflexivity|].
    split; [access_list|]. split; [mirror_list|]. split; [intros _; start_list|].
    intros _. split; [same_addr | reflexivity].
  - (* CNN_LoadWeights *)
    inversion Hrun; subst; clear Hrun. unfold CNN_LoadWeights.
    destruct weights; [|apply Hnone; reflexivity].
    destruct (size =? 0); [apply Hnone; reflexivity|].
    run_driver.
    eexists. split; [rewrite <- !app_assoc; reflexivity|].
    split; [access_list|]. split; [mirror_list|]. split; [intros _; start_list|].
    intros _. split; [same_addr | reflexivity].
  - (* CNN_LoadBiases *)
    inversion Hrun; subst; clear Hrun. unfold CNN_LoadBiases.
    destruct biases; [|apply Hnone; reflexivity].
    destruct (size =? 0); [apply Hnone; reflexivity|].
    run_driver.
    eexists. split; [rewrite <- !app_assoc; reflexivity|].
    split; [access_list|]. split; [mirror_list|]. split; [intros _; start_list|].
    intros _. split; [same_addr | reflexivity].
  - (* CNN_StartInference *)
    inversion Hrun; subst; clear Hrun. unfold CNN_StartInference.
    run_driver.
    destruct (test_bits _ CNN_STAT_BUSY); simpl.
    + eexists. split; [reflexivity|].
      split; [access_list|]. split; [mirror_list|]. split; [intros Hne; exfalso; exact (Hne _ eq_refl)|].
      intros _. split; [same_addr | reflexivity].
    + eexists. split; [rewrite <- !app_assoc; reflexivity|].
      split; [access_list|]. split; [mirror_list|]. split; [intros Hne; exfalso; exact (Hne _ eq_refl)|].
      intros _. split; [same_addr | reflexivity].
  - (* CNN_WaitForCompletion *)
    inversion Hrun; subst; clear Hrun. unfold CNN_WaitForCompletion.
    destruct (wait_loop_shape hw fuel timeout_ms 0 w) as (evs & Ht & Hok & Hwr & Hout).
    assert (Hh : handle (snd (wait_loop hw fuel timeout_ms 0 w)) = handle w \/
                 handle (snd (wait_loop hw fuel timeout_ms 0 w))
                 = set_inference_done 1 (handle w)).
    { destruct Hout as [(_ & Hh & _) | (_ & Hh)]; [right | left]; exact Hh. }
    exists evs. split; [exact Ht|].
    split.
    { eapply Forall_impl; [exact Hok|]. intros e He.
      apply (access_ok_same_base (handle w)); [|exact He].
      destruct Hh as [-> | ->]; reflexivity. }
    split; [apply no_writes_mirror; exact Hwr|].
    split; [intros _; apply no_writes_no_start; exact Hwr|].
    intros _. destruct Hh as [-> | ->]; (split; [same_addr | reflexivity]).
  - (* CNN_IsComplete *)
    inversion Hrun; subst; clear Hrun. unfold CNN_IsComplete. run_driver.
    destruct (inference_done (handle w) =? 0); simpl; [|apply Hnone; reflexivity].
   
    destruct (test_bits _ CNN_STAT_DONE); simpl;
      (eexists; split; [reflexivity|];
       split; [access_list|]; split; [mirror_list|]; split; [intros _; start_list|];
       intros _; split; [same_addr | reflexivity]).
  - (* CNN_GetResult *)
    unfold CNN_GetResult in Hrun.
    destruct result as [res|]; [|apply Hnone; congruence].
    destruct (inference_done (handle w) =? 0);
      [apply Hnone; congruence|].
    run_driver.
    destruct (CNN_MAX_CLASSES <? _); [discriminate Hrun|].
    destruct (CNN_GetTopK _ _ _ _); [|discriminate Hrun].
    inversion Hrun; subst; clear Hrun. simpl.
    eexists. split; [reflexivity|].
    split; [access_list|]. split; [mirror_list|]. split; [intros _; start_list|].
    intros _. split; [same_addr | reflexivity].
  - (* CNN_GetStatus *)
    inversion Hrun; subst; clear Hrun. unfold CNN_GetStatus.
    destruct status; [|apply Hnone; reflexivity].
    run_driver.
    eexists. split; [rewrite <- !app_assoc; reflexivity|].
    split; [access_list|]. split; [mirror_list|]. split; [intros _; start_list|].
    intros _. split; [same_addr | reflexivity].
  - (* CNN_Stop *)
    inversion Hrun; subst; clear Hrun. unfold CNN_Stop. run_driver.
    eexists. split; [reflexivity|].
    split; [access_list|]. split; [mirror_list|]. split; [intros _; start_list|].
    intros _. split; [same_addr | reflexivity].
  - (* CNN_EnableInterrupt *)
    inversion Hrun; subst; clear Hrun. unfold CNN_EnableInterrupt.
    destruct (negb _); run_driver;
      (eexists; split; [reflexivity|];
       split; [access_list|]; split; [mirror_list|]; split; [intros _; start_list|];
       intros _; split; [same_addr | reflexivity]).
  - (* CNN_ClearInterrupt *)
    inversion Hrun; subst; clear Hrun. unfold CNN_ClearInterrupt.
    run_driver.
    eexists. split; [rewrite <- !app_assoc; reflexivity|].
    split; [access_list|]. split; [mirror_list|]. split; [intros _; start_list|].
    intros _. split; [same_addr | reflexivity].
  - (* CNN_InterruptHandler *)
    inversion Hrun; subst; clear Hrun. unfold CNN_InterruptHandler.
    run_driver.
    destruct (test_bits _ CNN_IRQ_DONE); simpl;
      (eexists; split; [rewrite <- !app_assoc; reflexivity|];
       split; [access_list|]; split; [mirror_list|]; split; [intros _; start_list|];
       intros _; split; [same_addr | reflexivity]).
Qed.

(** X5. Whatever the hardware answers, each register access of each call of
    the API stays inside the register map of the handle: writes go to the
    control, configuration, dimension, address and interrupt registers,
    never to the status or performance counters; reads come from the
    status, interrupt-status and performance registers only. *)
Theorem api_stays_in_register_map :
  forall hw dev_mem expf (cnn : pointer) (c : api_call) (w w' : World),
    run_call hw dev_mem expf cnn c w = Some w' ->
    exists evs,
      trace w' = trace w ++ evs /\ Forall (access_ok (handle w')) evs.
Proof.
  intros hw dev_mem expf cnn c w w' Hrun.
  destruct (run_call_effect hw dev_mem expf cnn c w w' Hrun)
    as (evs & Ht & Hok & _).
  exists evs. split; assumption.
Qed.

Lemma api_stays_in_register_map_witness :
  exists evs,
    trace (snd (CNN_Init (hw_const 0) PTR done_world))
    = trace done_world ++ evs /\
    Forall (access_ok (handle (snd (CNN_Init (hw_const 0) PTR done_world)))) evs.
Proof.
  apply (api_stays_in_register_map (hw_const 0) zero_memory unit_expf PTR
                                   CallInit done_world).
  reflexivity.
Defined.

(** X6. The start bit reaches the control register through
    [CNN_StartInference] only: no other call of the API, whatever its
    arguments and whatever the hardware answers, writes a value with the
    start bit set to the control register. *)
Theorem only_StartInference_starts :
  forall hw dev_mem expf (cnn : pointer) (c : api_call) (w w' : World),
    (forall f, c <> CallStartInference f) ->
    run_call hw dev_mem expf cnn c w = Some w' ->
    exists evs,
      trace w' = trace w ++ evs /\
      Forall (fun e => is_start (handle w') e = false) evs.
Proof.
  intros hw dev_mem expf cnn c w w' Hc Hrun.
  destruct (run_call_effect hw dev_mem expf cnn c w w' Hrun)
    as (evs & Ht & _ & _ & Hstart & _).
  exists evs. split; [exact Ht | exact (Hstart Hc)].
Qed.

Lemma only_StartInference_starts_witness :
  exists evs,
    trace (snd (CNN_Stop PTR done_world)) = trace done_world ++ evs /\
    Forall (fun e => is_start (handle (snd (CNN_Stop PTR done_world))) e = false)
           evs.
Proof.
  apply (only_StartInference_starts (hw_const 0) zero_memory unit_expf PTR
                                    CallStop done_world).
  - intros f. discriminate.
  - reflexivity.
Defined.

(** X7. The address fields of the handle are set by [CNN_Init] and by
    nothing else, and the stored configuration changes in [CNN_Init] and
    [CNN_Configure] only. *)
Theorem handle_fields_stable :
  forall hw dev_mem expf (cnn : pointer) (c : api_call) (w w' : World),
    c <> CallInit ->
    run_call hw dev_mem expf cnn c w = Some w' ->
    same_addresses (handle w) (handle w') /\
    ((forall cfg, c <> CallConfigure cfg) ->
     config (handle w') = config (handle w)).
Proof.
  intros hw dev_mem expf cnn c w w' Hc Hrun.
  destruct (run_call_effect hw dev_mem expf cnn c w w' Hrun)
    as (evs & _ & _ & _ & _ & Hfields).
  exact (Hfields Hc).
Qed.

Lemma handle_fields_stable_witness :
  same_addresses (handle done_world)
                 (handle (snd (CNN_StartInference (hw_const 0) PTR 0x30000000
                                                  done_world))) /\
  ((forall cfg, CallStartInference 0x30000000 <> CallConfigure cfg) ->
   config (handle (snd (CNN_StartInference (hw_const 0) PTR 0x30000000
                                           done_world)))
   = config (handle done_world)).
Proof.
  apply (handle_fields_stable (hw_const 0) zero_memory unit_expf PTR
                              (CallStartInference 0x30000000) done_world).
  - discriminate.
  - reflexivity.
Defined.

(** A polled wait only reads the status register and sleeps. *)
Lemma wait_loop_polls (hw : list event -> Z -> Z) :
  forall (fuel : nat) (T e : Z) (w : World),
    exists evs,
      trace (snd (wait_loop hw fuel T e w)) = trace w ++ evs /\
      Forall (is_poll_event (handle w)) evs.
Proof.
  induction fuel as [|fuel IH]; intros T e w.
  - exists []. simpl. rewrite app_nil_r. split; [reflexivity | constructor].
  - simpl. run_driver. fold_regs.
    set (a := reg_addr (handle w) CNN_REG_STATUS).
    set (s1 := hw (trace w) a).
    assert (Hcont : forall evs2,
      Forall (is_poll_event (handle w)) evs2 ->
      let r := (if (0 <? T) && (T <=? e)
                then fun w0 : World => (Some XST_FAILURE, w0)
                else fun w0 : World =>
                       wait_loop hw fuel T (wrap32 (e + poll_interval))
                         (mkWorld (handle w0)
                                  (trace w0 ++ [EvSleep (poll_interval * 1000)])))
                 (mkWorld (handle w) (trace w ++ evs2)) in
      exists evs,
        trace (snd r) = trace w ++ evs /\
        Forall (is_poll_event (handle w)) evs).
    { intros evs2 Hok r. subst r.
      destruct ((0 <? T) && (T <=? e)).
      - exists evs2. simpl. split; [reflexivity | exact Hok].
      - destruct (IH T (wrap32 (e + poll_interval))
                     (mkWorld (handle w)
                        ((trace w ++ evs2) ++ [EvSleep (poll_interval * 1000)])))
          as (evs & Ht' & Hok').
        simpl in Ht', Hok'. simpl.
        exists (evs2 ++ [EvSleep (poll_interval * 1000)] ++ evs).
        split; [rewrite Ht', <- !app_assoc; reflexivity|].
        apply Forall_app. split; [exact Hok|].
        constructor; [reflexivity | exact Hok']. }
    assert (H1 : Forall (is_poll_event (handle w)) [EvIn32 a s1])
      by (repeat constructor).
    destruct (test_bits s1 CNN_STAT_DONE).
    { exists [EvIn32 a s1]. simpl. split; [reflexivity | exact H1]. }
    destruct (test_bits s1 CNN_STAT_BUSY); simpl.
    { apply (Hcont [EvIn32 a s1]). exact H1. }
    destruct (test_bits s1 CNN_STAT_ERROR_MASK).
    { exists [EvIn32 a s1]. simpl. split; [reflexivity | exact H1]. }
    simpl. fold_regs. fold a.
    set (s2 := hw (trace w ++ [EvIn32 a s1]) a).
    assert (H2 : Forall (is_poll_event (handle w)) [EvIn32 a s1; EvIn32 a s2])
      by (repeat constructor).
    destruct (test_bits s2 CNN_STAT_DONE).
    { exists [EvIn32 a s1; EvIn32 a s2]. simpl.
      split; [rewrite <- app_assoc; reflexivity | exact H2]. }
    destruct (Hcont [EvIn32 a s1; EvIn32 a s2] H2) as (evs & Ht & Hok).
    exists evs. split; [|exact Hok].
    rewrite <- Ht. simpl. rewrite <- !app_assoc. reflexivity.
Qed.

(** X8. All a polled wait does to the hardware is read the status
    register and sleep for one poll interval: it never writes a register
    and reads no other one.  When it returns [XST_SUCCESS], the last thing
    it did was a status read showing done, and the completion flag is 1;
    when it fails, or is still polling, the handle is untouched. *)
Theorem WaitForCompletion_outcomes :
  forall (hw : list event -> Z -> Z) (fuel : nat) (T : Z) (w : World),
    exists evs,
      trace (snd (CNN_WaitForCompletion hw fuel PTR T w)) = trace w ++ evs /\
      Forall (is_poll_event (handle w)) evs /\
      writes evs = [] /\
      wait_outcome (handle w) (CNN_WaitForCompletion hw fuel PTR T w) evs.
Proof.
  intros hw fuel T w. unfold CNN_WaitForCompletion.
  destruct (wait_loop_shape hw fuel T 0 w) as (evs & Ht & _ & Hwr & Hout).
  destruct (wait_loop_polls hw fuel T 0 w) as (evs' & Ht' & Hpoll).
  assert (evs' = evs) as ->.
  { rewrite Ht in Ht'. apply app_inv_head in Ht'. symmetry. exact Ht'. }
  exists evs. repeat split; assumption.
Qed.

(** ** Polling a hardware that finishes after [n] reads *)

Lemma reads_app (t1 t2 : list event) : reads (t1 ++ t2) = reads t1 ++ reads t2.
Proof. unfold reads. apply List.filter_app. Qed.

Lemma busy_for_step (hw : list event -> Z -> Z) (h : CnnAccelerator_t)
    (t : list event) (n : nat) (s us : Z) :
  busy_for hw h t (S n) ->
  busy_for hw h ((t ++ [EvIn32 (status_addr h) s]) ++ [EvSleep us]) n.
Proof.
  intros Hhw t' k Hlen Hk.
  rewrite !reads_app, !length_app in Hlen. simpl in Hlen.
  apply (Hhw t' (S k)); lia.
Qed.

(** One iteration of the loop on a status that shows busy and not done. *)
Lemma wait_loop_busy_step (hw : list event -> Z -> Z) (h : CnnAccelerator_t)
    (fuel : nat) (T e : Z) (t : list event) :
  test_bits (hw t (status_addr h)) CNN_STAT_DONE = false ->
  test_bits (hw t (status_addr h)) CNN_STAT_BUSY = true ->
  wait_loop hw (S fuel) T e (mkWorld h t)
  = if (0 <? T) && (T <=? e)
    then (Some XST_FAILURE,
          mkWorld h (t ++ [EvIn32 (status_addr h) (hw t (status_addr h))]))
    else wait_loop hw fuel T (wrap32 (e + 1))
           (mkWorld h ((t ++ [EvIn32 (status_addr h) (hw t (status_addr h))])
                         ++ [EvSleep 1000])).
Proof.
  intros Hdone Hbusy. simpl. run_driver. rewrite Hdone, Hbusy. simpl.
  destruct ((0 <? T) && (T <=? e)); reflexivity.
Qed.

Lemma wait_loop_done_after (hw : list event -> Z -> Z) (h : CnnAccelerator_t) (T : Z) :
  forall (n fuel : nat) (e : Z) (t : list event),
    busy_then_done hw h t n ->
    T = 0 \/ (0 <= e /\ e + Z.of_nat n <= T < 2 ^ 32) ->
    (n < fuel)%nat ->
    exists evs,
      wait_loop hw fuel T e (mkWorld h t)
      = (Some XST_SUCCESS, mkWorld (set_inference_done 1 h) (t ++ evs)) /\
      slept evs = Z.of_nat n * 1000 /\
      length (reads evs) = S n.
Proof.
  induction n as [|n IH]; intros fuel e t [Hbusy Hdone] HT Hfuel;
    (destruct fuel as [|fuel]; [lia|]).
  - specialize (Hdone t ltac:(lia)).
    exists [EvIn32 (status_addr h) (hw t (status_addr h))].
    simpl. run_driver. rewrite Hdone. repeat split.
  - destruct (Hbusy t 0%nat ltac:(lia) ltac:(lia)) as [Hnd Hb].
    rewrite (wait_loop_busy_step hw h fuel T e t Hnd Hb).
    assert (Hcheck : (0 <? T) && (T <=? e) = false).
    { destruct HT as [-> | HT]; [reflexivity|].
      apply andb_false_iff. right. apply Z.leb_gt. lia. }
    rewrite Hcheck.
    destruct (IH fuel (wrap32 (e + 1))
                 ((t ++ [EvIn32 (status_addr h) (hw t (status_addr h))])
                    ++ [EvSleep 1000]))
      as (evs & Heq & Hslept & Hreads).
    + split.
      * apply busy_for_step. exact Hbusy.
      * intros t' Hlen. apply Hdone.
        rewrite !reads_app, !length_app in Hlen. simpl in Hlen. lia.
    + destruct HT as [-> | HT]; [left; reflexivity | right].
      rewrite wrap32_small by lia. lia.
    + lia.
    + exists ([EvIn32 (status_addr h) (hw t (status_addr h))]
                ++ [EvSleep 1000] ++ evs).
      split; [|split].
      * rewrite Heq. rewrite <- !app_assoc. reflexivity.
      * simpl. rewrite Hslept. lia.
      * simpl. rewrite Hreads. reflexivity.
Qed.

Lemma wait_loop_gives_up (hw : list event -> Z -> Z) (h : CnnAccelerator_t) (T : Z) :
  0 < T < 2 ^ 32 ->
  forall (m fuel : nat) (e : Z) (t : list event),
    busy_for hw h t (S m) ->
    0 <= e -> e + Z.of_nat m = T ->
    (m < fuel)%nat ->
    exists evs,
      wait_loop hw fuel T e (mkWorld h t)
      = (Some XST_FAILURE, mkWorld h (t ++ evs)) /\
      slept evs = Z.of_nat m * 1000.
Proof.
  intros HT. induction m as [|m IH]; intros fuel e t Hbusy He HeT Hfuel;
    (destruct fuel as [|fuel]; [lia|]);
    destruct (Hbusy t 0%nat ltac:(lia) ltac:(lia)) as [Hnd Hb];
    rewrite (wait_loop_busy_step hw h fuel T e t Hnd Hb).
  - replace (0 <? T) with true by (symmetry; apply Z.ltb_lt; lia).
    replace (T <=? e) with true by (symmetry; apply Z.leb_le; lia).
    exists [EvIn32 (status_addr h) (hw t (status_addr h))].
    repeat split.
  - replace (T <=? e) with false by (symmetry; apply Z.leb_gt; lia).
    rewrite andb_false_r.
    destruct (IH fuel (wrap32 (e + 1))
                 ((t ++ [EvIn32 (status_addr h) (hw t (status_addr h))])
                    ++ [EvSleep 1000]))
      as (evs & Heq & Hslept).
    + apply busy_for_step. exact Hbusy.
    + rewrite wrap32_small by lia. lia.
    + rewrite wrap32_small by lia. lia.
    + lia.
    + exists ([EvIn32 (status_addr h) (hw t (status_addr h))]
                ++ [EvSleep 1000] ++ evs).
      split.
      * rewrite Heq. rewrite <- !app_assoc. reflexivity.
      * simpl. rewrite Hslept. lia.
Qed.

(** [n] polls that read busy, without a timeout among them, lead to the
    next iteration of the loop; the handle is untouched. *)
Lemma wait_loop_busy_polls (hw : list event -> Z -> Z) (h : CnnAccelerator_t) (T : Z) :
  forall (n fuel : nat) (e : Z) (t : list event),
    busy_for hw h t n ->
    T = 0 \/ (0 <= e /\ e + Z.of_nat n <= T < 2 ^ 32) ->
    exists e',
      wait_loop hw (n + fuel) T e (mkWorld h t)
      = wait_loop hw fuel T e'
          (mkWorld h (t ++ busy_polls hw (status_addr h) t n)).
Proof.
  induction n as [|n IH]; intros fuel e t Hbusy HT.
  - exists e. simpl. rewrite app_nil_r. reflexivity.
  - destruct (Hbusy t 0%nat ltac:(lia) ltac:(lia)) as [Hnd Hb].
    change (S n + fuel)%nat with (S (n + fuel)).
    rewrite (wait_loop_busy_step hw h (n + fuel) T e t Hnd Hb).
    assert (Hcheck : (0 <? T) && (T <=? e) = false).
    { destruct HT as [-> | HT]; [reflexivity|].
      apply andb_false_iff. right. apply Z.leb_gt. lia. }
    rewrite Hcheck.
    destruct (IH fuel (wrap32 (e + 1))
                 ((t ++ [EvIn32 (status_addr h) (hw t (status_addr h))])
                    ++ [EvSleep 1000]))
      as (e' & Heq).
    + apply busy_for_step. exact Hbusy.
    + destruct HT as [-> | HT]; [left; reflexivity | right].
      rewrite wrap32_small by lia. lia.
    + exists e'. rewrite Heq. simpl busy_polls.
      change (poll_interval * 1000) with 1000.
      rewrite <- !app_assoc. reflexivity.
Qed.

(** C5, as the driver does it.  At every iteration of the polling loop,
    whatever the time elapsed and the history: when the status read shows
    busy cleared without done, the error bits of that very status are
    tested first, and if one is set the wait fails at once, without
    another read.  Only with no error bit set is the status read once
    more, and a done bit in that second read reported as success.  Seen
    from the caller, the same holds at the poll that follows any number
    [n] of polls that read busy. *)
Theorem WaitForCompletion_error_before_recheck :
  forall (hw : list event -> Z -> Z) (w : World) (T : Z),
    let h := handle w in
    let a := status_addr h in
    (forall (fuel : nat) (e : Z),
        let s1 := hw (trace w) a in
        let s2 := hw (trace w ++ [EvIn32 a s1]) a in
        test_bits s1 CNN_STAT_DONE = false ->
        test_bits s1 CNN_STAT_BUSY = false ->
        (test_bits s1 CNN_STAT_ERROR_MASK = true ->
         wait_loop hw (S fuel) T e w
         = (Some XST_FAILURE, mkWorld h (trace w ++ [EvIn32 a s1]))) /\
        (test_bits s1 CNN_STAT_ERROR_MASK = false ->
         test_bits s2 CNN_STAT_DONE = true ->
         wait_loop hw (S fuel) T e w
         = (Some XST_SUCCESS,
            mkWorld (set_inference_done 1 h)
                    (trace w ++ [EvIn32 a s1; EvIn32 a s2])))) /\
    (forall (n fuel : nat),
        let t1 := trace w ++ busy_polls hw a (trace w) n in
        let s1 := hw t1 a in
        let s2 := hw (t1 ++ [EvIn32 a s1]) a in
        busy_for hw h (trace w) n ->
        T = 0 \/ Z.of_nat n <= T < 2 ^ 32 ->
        (n < fuel)%nat ->
        test_bits s1 CNN_STAT_DONE = false ->
        test_bits s1 CNN_STAT_BUSY = false ->
        (test_bits s1 CNN_STAT_ERROR_MASK = true ->
         CNN_WaitForCompletion hw fuel PTR T w
         = (Some XST_FAILURE, mkWorld h (t1 ++ [EvIn32 a s1]))) /\
        (test_bits s1 CNN_STAT_ERROR_MASK = false ->
         test_bits s2 CNN_STAT_DONE = true ->
         CNN_WaitForCompletion hw fuel PTR T w
         = (Some XST_SUCCESS,
            mkWorld (set_inference_done 1 h)
                    (t1 ++ [EvIn32 a s1; EvIn32 a s2])))).
Proof.
  intros hw [h t] T. simpl handle. simpl trace. intros h0 a. subst h0. split.
  - intros fuel e.
    exact (wait_loop_not_busy_not_done hw (mkWorld h t) fuel T e).
  - intros n fuel t1 s1 s2 Hbusy HT Hfuel Hdone Hnb.
    unfold CNN_WaitForCompletion.
    replace fuel with (n + S (fuel - n - 1))%nat by lia.
    destruct (wait_loop_busy_polls hw h T n (S (fuel - n - 1)) 0 t Hbusy)
      as (e' & ->).
    { destruct HT as [-> | HT]; [left; reflexivity | right; lia]. }
    exact (wait_loop_not_busy_not_done hw (mkWorld h t1) (fuel - n - 1) T e'
                                       Hdone Hnb).
Qed.

Lemma WaitForCompletion_error_before_recheck_witness :
  wait_loop hw_error_then_done 1 50 7 fresh_world
  = (Some XST_FAILURE,
     mkWorld fresh_handle [EvIn32 (status_addr fresh_handle) 0x10]) /\
  CNN_WaitForCompletion (hw_busy_twice_then 0x10) 3 PTR 50 fresh_world
  = (Some XST_FAILURE,
     mkWorld fresh_handle
             [EvIn32 (status_addr fresh_handle) 0x01; EvSleep 1000;
              EvIn32 (status_addr fresh_handle) 0x01; EvSleep 1000;
              EvIn32 (status_addr fresh_handle) 0x10]) /\
  CNN_WaitForCompletion (hw_busy_twice_then 0x00) 3 PTR 50 fresh_world
  = (Some XST_SUCCESS,
     mkWorld (set_inference_done 1 fresh_handle)
             [EvIn32 (status_addr fresh_handle) 0x01; EvSleep 1000;
              EvIn32 (status_addr fresh_handle) 0x01; EvSleep 1000;
              EvIn32 (status_addr fresh_handle) 0x00;
              EvIn32 (status_addr fresh_handle) 0x02]).
Proof.
  assert (Hbusy : forall s, busy_for (hw_busy_twice_then s) fresh_handle [] 2).
  { intros s t k Hlen Hk. unfold hw_busy_twice_then. rewrite Hlen.
    destruct k as [|[|k]]; [split; reflexivity | split; reflexivity | lia]. }
  split; [|split].
  - apply (proj1 (WaitForCompletion_error_before_recheck
                    hw_error_then_done fresh_world 50) 0%nat 7); reflexivity.
  - apply (proj2 (WaitForCompletion_error_before_recheck
                    (hw_busy_twice_then 0x10) fresh_world 50) 2%nat 3%nat);
      [apply Hbusy | right; lia | lia | reflexivity..].
  - apply (proj2 (WaitForCompletion_error_before_recheck
                    (hw_busy_twice_then 0x00) fresh_world 50) 2%nat 3%nat);
      [apply Hbusy | right; lia | lia | reflexivity..].
Defined.

(** X9. When the hardware is busy for [n] polls and reports done at the
    next one, a wait with a timeout of [T] milliseconds succeeds exactly
    when [T] is 0 or at least [n]: then it returns [XST_SUCCESS] with the
    completion flag set, after [n] sleeps of one millisecond.  With
    0 < [T] < [n] it gives up after [T] milliseconds and leaves the
    handle alone. *)
Theorem WaitForCompletion_done_after_polls :
  forall (hw : list event -> Z -> Z) (w : World) (n fuel : nat) (T : Z),
    busy_then_done hw (handle w) (trace w) n ->
    0 <= T < 2 ^ 32 ->
    (T = 0 \/ Z.of_nat n <= T -> (n < fuel)%nat ->
     exists w',
       CNN_WaitForCompletion hw fuel PTR T w = (Some XST_SUCCESS, w') /\
       handle w' = set_inference_done 1 (handle w) /\
       slept (trace w') = slept (trace w) + Z.of_nat n * 1000) /\
    (0 < T < Z.of_nat n -> (Z.to_nat T < fuel)%nat ->
     exists w',
       CNN_WaitForCompletion hw fuel PTR T w = (Some XST_FAILURE, w') /\
       handle w' = handle w /\
       slept (trace w') = slept (trace w) + T * 1000).
Proof.
  intros hw [h t] n fuel T [Hbusy Hdone] HT. unfold CNN_WaitForCompletion.
  simpl in *. split.
  - intros Hok Hfuel.
    destruct (wait_loop_done_after hw h T n fuel 0 t (conj Hbusy Hdone))
      as (evs & Heq & Hslept & _); [|exact Hfuel|].
    + destruct Hok as [-> | Hok]; [left; reflexivity | right; lia].
    + eexists. split; [exact Heq|]. simpl.
      split; [reflexivity|]. rewrite slept_app, Hslept. reflexivity.
  - intros Hlate Hfuel.
    destruct (wait_loop_gives_up hw h T ltac:(lia) (Z.to_nat T) fuel 0 t)
      as (evs & Heq & Hslept); [| lia | lia | exact Hfuel |].
    + intros t' k Hlen Hk. apply (Hbusy t' k Hlen). lia.
    + eexists. split; [exact Heq|]. simpl.
      split; [reflexivity|]. rewrite slept_app, Hslept. lia.
Qed.

Lemma hw_done_after_spec (n : nat) (h : CnnAccelerator_t) :
  busy_then_done (hw_done_after n) h [] n.
Proof.
  split.
  - intros t k Hlen Hk. unfold hw_done_after. simpl in Hlen.
    replace (length (reads t) <? n)%nat with true
      by (symmetry; apply Nat.ltb_lt; lia).
    split; reflexivity.
  - intros t Hlen. unfold hw_done_after. simpl in Hlen.
    replace (length (reads t) <? n)%nat with false
      by (symmetry; apply Nat.ltb_ge; lia).
    reflexivity.
Qed.

Lemma WaitForCompletion_done_after_polls_witness :
  (exists w',
      CNN_WaitForCompletion (hw_done_after 3) 4 PTR 5 fresh_world
      = (Some XST_SUCCESS, w') /\
      handle w' = set_inference_done 1 (handle fresh_world) /\
      slept (trace w') = slept (trace fresh_world) + Z.of_nat 3 * 1000) /\
  (exists w',
      CNN_WaitForCompletion (hw_done_after 3) 3 PTR 2 fresh_world
      = (Some XST_FAILURE, w') /\
      handle w' = handle fresh_world /\
      slept (trace w') = slept (trace fresh_world) + 2 * 1000).
Proof.
  split.
  - apply (WaitForCompletion_done_after_polls (hw_done_after 3) fresh_world
             3 4 5 (hw_done_after_spec 3 _)); [lia | right; lia | lia].
  - apply (WaitForCompletion_done_after_polls (hw_done_after 3) fresh_world
             3 3 2 (hw_done_after_spec 3 _)); lia.
Defined.

(** ** Status snapshots *)

Lemma error_nibble_all : forall_from 0 (Z.to_nat 256) error_nibble_ok = true.
Proof. vm_compute. reflexivity. Qed.

Lemma land_low_byte (s m : Z) : 0 <= m < 256 -> Z.land s m = Z.land (s mod 256) m.
Proof.
  intros Hm. change 256 with (2 ^ 8). rewrite <- Z.land_ones by lia.
  rewrite <- Z.land_assoc. f_equal.
  symmetry. change (Z.ones 8) with 255.
  apply Z.bits_inj'. intros k Hk. rewrite Z.land_spec.
  destruct (Z.ltb_spec k 8) as [Hlt|Hge].
  - replace (Z.testbit 255 k) with true; [reflexivity|].
    symmetry. change 255 with (Z.ones 8). apply Z.ones_spec_low. lia.
  - replace (Z.testbit m k) with false; [apply andb_false_r|].
    symmetry. destruct (Z.eq_dec m 0) as [->|Hne]; [apply Z.testbit_0_l|].
    apply Z.bits_above_log2; [lia|].
    assert (Z.log2 m < 8) by (apply Z.log2_lt_pow2; [lia|]; change (2 ^ 8) with 256; lia).
    lia.
Qed.

Lemma error_nibble_bounds (s : Z) :
  0 <= Z.shiftr (Z.land s CNN_STAT_ERROR_MASK) 4 <= 15 /\
  (Z.shiftr (Z.land s CNN_STAT_ERROR_MASK) 4 = 0 <->
   test_bits s CNN_STAT_ERROR_MASK = false).
Proof.
  pose proof (forall_from_sound _ _ _ error_nibble_all (s mod 256)) as H.
  assert (Hmod : 0 <= s mod 256 < 256) by (apply Z.mod_pos_bound; lia).
  specialize (H ltac:(simpl; lia)).
  unfold error_nibble_ok in H. cbv zeta in H.
  unfold test_bits in *.
  rewrite <- (land_low_byte s CNN_STAT_ERROR_MASK) in H
    by (unfold CNN_STAT_ERROR_MASK; lia).
  rewrite !andb_true_iff in H. destruct H as ((H1 & H2) & H3).
  apply Z.leb_le in H1, H2. apply Bool.eqb_prop in H3.
  split; [lia|]. rewrite negb_involutive in H3.
  rewrite <- Z.eqb_eq. rewrite H3. rewrite negb_false_iff. reflexivity.
Qed.

(** X10. [CNN_GetStatus] is a read-only snapshot: three register reads
    (status, cycle counter, operation counter), no write, the handle
    untouched.  Whatever the status register holds, the busy and done
    fields come out as 0 or 1 and the error code lies in 0..15, being 0
    exactly when the polling loop would see no error bit. *)
Theorem GetStatus_snapshot :
  forall (hw : list event -> Z -> Z) (w : World) (st0 : CnnStatus_t),
    let a := reg_addr (handle w) in
    let s := hw (trace w) (a CNN_REG_STATUS) in
    let t1 := trace w ++ [EvIn32 (a CNN_REG_STATUS) s] in
    let cyc := hw t1 (a CNN_REG_PERF_CYCLES) in
    let t2 := t1 ++ [EvIn32 (a CNN_REG_PERF_CYCLES) cyc] in
    let ops := hw t2 (a CNN_REG_PERF_OPS) in
    exists st,
      CNN_GetStatus hw PTR (Some st0) w
      = (Some st, mkWorld (handle w) (t2 ++ [EvIn32 (a CNN_REG_PERF_OPS) ops])) /\
      (busy st = if test_bits s CNN_STAT_BUSY then 1 else 0) /\
      (done st = if test_bits s CNN_STAT_DONE then 1 else 0) /\
      0 <= error_code st <= 15 /\
      (error_code st = 0 <-> test_bits s CNN_STAT_ERROR_MASK = false) /\
      cycles st = cyc /\ operations st = ops.
Proof.
  intros hw w st0 a s t1 cyc t2 ops.
  eexists. split.
  - unfold CNN_GetStatus. run_driver. fold_regs. reflexivity.
  - simpl. fold_regs. fold a. fold s.
    destruct (error_nibble_bounds s) as [Hb Hz].
    repeat split; try reflexivity; try apply Hb; apply Hz.
Qed.

(** X11. [CNN_IsComplete] answers 0 or 1, and answers 1 exactly when the
    completion flag is set when it returns.  It writes no register and
    reads the status register at most once. *)
Theorem IsComplete_reports_flag :
  forall (hw : list event -> Z -> Z) (w : World),
    let r := fst (CNN_IsComplete hw PTR w) in
    let w' := snd (CNN_IsComplete hw PTR w) in
    (r = 0 \/ r = 1) /\
    (r = 1 <-> inference_done (handle w') <> 0) /\
    same_addresses (handle w) (handle w') /\
    (trace w' = trace w \/
     exists s, trace w' = trace w ++ [EvIn32 (status_addr (handle w)) s]).
Proof.
  intros hw w. unfold CNN_IsComplete. run_driver.
  destruct (Z.eqb_spec (inference_done (handle w)) 0) as [Hz|Hnz]; simpl.
  - destruct (test_bits _ CNN_STAT_DONE); simpl.
    + split; [right; reflexivity|]. split; [split; [lia | reflexivity]|].
      split; [same_addr|]. right. eexists. reflexivity.
    + split; [left; reflexivity|]. split; [split; [discriminate | lia]|].
      split; [same_addr|]. right. eexists. reflexivity.
  - split; [right; reflexivity|]. split; [split; [intros _; exact Hnz | reflexivity]|].
    split; [same_addr|]. left. reflexivity.
Qed.

(** ** Loading parameters *)

(** [CNN_LoadWeights] and [CNN_LoadBiases] succeed exactly when the
    data pointer is not null and the size is not 0; a refused call has no
    effect.  An accepted one copies to the region of the handle, flushes
    exactly the range it copied, and then writes the address register
    again; the handle is unchanged. *)
Lemma Load_copies_flushes_relatches :
  forall (w : World) (data : option (list Z)) (size : Z),
    let h := handle w in
    CNN_LoadWeights PTR data size w
    = match data with
      | Some d =>
          if size =? 0 then (XST_FAILURE, w)
          else (XST_SUCCESS,
                mkWorld h (trace w ++
                  [EvMemcpy (weight_mem_addr h) d size;
                   EvFlush (weight_mem_addr h) size;
                   EvOut32 (reg_addr h CNN_REG_WEIGHT_ADDR) (weight_mem_addr h)]))
      | None => (XST_FAILURE, w)
      end /\
    CNN_LoadBiases PTR data size w
    = match data with
      | Some d =>
          if size =? 0 then (XST_FAILURE, w)
          else (XST_SUCCESS,
                mkWorld h (trace w ++
                  [EvMemcpy (bias_mem_addr h) d size;
                   EvFlush (bias_mem_addr h) size;
                   EvOut32 (reg_addr h CNN_REG_BIAS_ADDR) (bias_mem_addr h)]))
      | None => (XST_FAILURE, w)
      end.
Proof.
  intros w data size h. subst h. unfold CNN_LoadWeights, CNN_LoadBiases.
  destruct data as [d|]; [|split; reflexivity].
  destruct (size =? 0); [split; reflexivity|].
  run_driver. fold_regs. rewrite <- !app_assoc. split; reflexivity.
Qed.

(** ** Null pointers *)

(** X12. With a null handle every function of the API returns at once: the
    ones with a status code return [XST_FAILURE], [CNN_IsComplete] returns
    0, and nothing is read, written or changed.  The same holds for a null
    configuration, data, result or status pointer. *)
Theorem null_pointers_rejected :
  forall hw dev_mem expf (w : World),
    (forall c, run_call hw dev_mem expf NULL c w = Some w) /\
    CNN_Init hw NULL w = (XST_FAILURE, w) /\
    (forall cfg, CNN_Configure NULL cfg w = (XST_FAILURE, w)) /\
    (forall d n, CNN_LoadWeights NULL d n w = (XST_FAILURE, w)) /\
    (forall d n, CNN_LoadBiases NULL d n w = (XST_FAILURE, w)) /\
    (forall f, CNN_StartInference hw NULL f w = (XST_FAILURE, w)) /\
    (forall fuel T, CNN_WaitForCompletion hw fuel NULL T w = (Some XST_FAILURE, w)) /\
    CNN_IsComplete hw NULL w = (0, w) /\
    (forall res, CNN_GetResult dev_mem expf NULL res w = Some (XST_FAILURE, res, w)) /\
    (forall cnn, CNN_Configure cnn None w = (XST_FAILURE, w)) /\
    (forall cnn n, CNN_LoadWeights cnn None n w = (XST_FAILURE, w)) /\
    (forall cnn n, CNN_LoadBiases cnn None n w = (XST_FAILURE, w)) /\
    (forall cnn, CNN_GetResult dev_mem expf cnn None w = Some (XST_FAILURE, None, w)) /\
    (forall cnn, CNN_GetStatus hw cnn None w = (None, w)).
Proof.
  intros hw dev_mem expf w.
  split.
  { intros c. destruct c as [|cfg| |d n|d n|f|fuel T| |res|st| |en| |]; simpl;
      try (destruct cfg); try (destruct d); try (destruct res);
      try (destruct st); reflexivity. }
  repeat split; try reflexivity;
    repeat match goal with
           | |- forall _, _ => intro
           end;
    repeat match goal with
           | x : option _ |- _ => destruct x
           | x : pointer |- _ => destruct x
           end;
    reflexivity.
Qed.

(** ** How the calls compose *)

(** X13. A result belongs to a completed inference.  Once
    [CNN_StartInference] has started one (the status read not showing
    busy), and likewise after [CNN_Stop] or [CNN_Reset], [CNN_GetResult]
    fails and does nothing, even if a completion had been observed
    before. *)
Theorem GetResult_needs_new_completion :
  forall hw dev_mem expf (w : World) (f : Z) (res : option InferenceResult_t),
    (test_bits (hw (trace w) (status_addr (handle w))) CNN_STAT_BUSY = false ->
     let w1 := snd (CNN_StartInference hw PTR f w) in
     fst (CNN_StartInference hw PTR f w) = XST_SUCCESS /\
     CNN_GetResult dev_mem expf PTR res w1 = Some (XST_FAILURE, res, w1)) /\
    (let w1 := snd (CNN_Stop PTR w) in
     CNN_GetResult dev_mem expf PTR res w1 = Some (XST_FAILURE, res, w1)) /\
    (let w1 := snd (CNN_Reset PTR w) in
     CNN_GetResult dev_mem expf PTR res w1 = Some (XST_FAILURE, res, w1)).
Proof.
  intros hw dev_mem expf w f res. split; [|split].
  - intros Hfree. unfold CNN_StartInference. run_driver. rewrite Hfree. simpl.
    split; [reflexivity|]. unfold CNN_GetResult. destruct res; reflexivity.
  - unfold CNN_Stop, CNN_GetResult. run_driver. destruct res; reflexivity.
  - unfold CNN_Reset, CNN_GetResult. run_driver. destruct res; reflexivity.
Qed.

Lemma GetResult_needs_new_completion_witness :
  (let w1 := snd (CNN_StartInference (hw_const 0) PTR 0x20000000 done_world) in
   fst (CNN_StartInference (hw_const 0) PTR 0x20000000 done_world) = XST_SUCCESS /\
   CNN_GetResult zero_memory unit_expf PTR (Some (mkResult 0 [])) w1
   = Some (XST_FAILURE, Some (mkResult 0 []), w1)).
Proof.
  apply (GetResult_needs_new_completion (hw_const 0) zero_memory unit_expf
           done_world 0x20000000 (Some (mkResult 0 []))).
  reflexivity.
Defined.

(** X14. Each way of observing a completion makes the next
    [CNN_IsComplete] answer 1 from the flag, without touching the
    hardware: a wait that returned [XST_SUCCESS], an [CNN_IsComplete] that
    returned 1, and an interrupt handler run that found the done bit in
    the interrupt status. *)
Theorem observed_completion_is_remembered :
  forall (hw hw' : list event -> Z -> Z) (w : World) (fuel : nat) (T : Z),
    (fst (CNN_WaitForCompletion hw fuel PTR T w) = Some XST_SUCCESS ->
     let w1 := snd (CNN_WaitForCompletion hw fuel PTR T w) in
     CNN_IsComplete hw' PTR w1 = (1, w1)) /\
    (fst (CNN_IsComplete hw PTR w) = 1 ->
     let w1 := snd (CNN_IsComplete hw PTR w) in
     CNN_IsComplete hw' PTR w1 = (1, w1)) /\
    (test_bits (hw (trace w) (reg_addr (handle w) CNN_REG_IRQ_STATUS)) CNN_IRQ_DONE
     = true ->
     let w1 := snd (CNN_InterruptHandler hw PTR w) in
     CNN_IsComplete hw' PTR w1 = (1, w1)).
Proof.
  intros hw hw' w fuel T.
  assert (Hflag : forall w1, inference_done (handle w1) <> 0 ->
                             CNN_IsComplete hw' PTR w1 = (1, w1)).
  { intros w1 Hd. unfold CNN_IsComplete. run_driver.
    apply Z.eqb_neq in Hd. rewrite Hd. reflexivity. }
  split; [|split].
  - intros Hok w1. apply Hflag. subst w1. unfold CNN_WaitForCompletion in *.
    destruct (wait_loop_shape hw fuel T 0 w) as (evs & _ & _ & _ & Hout).
    destruct Hout as [(_ & Hh & _) | ([Hr | Hr] & _)].
    + rewrite Hh. simpl. lia.
    + rewrite Hr in Hok. discriminate Hok.
    + rewrite Hr in Hok. discriminate Hok.
  - intros Hret w1. apply Hflag. subst w1.
    unfold CNN_IsComplete in *. run_driver.
    destruct (Z.eqb_spec (inference_done (handle w)) 0) as [Hz|Hnz]; simpl in *;
      [|exact Hnz].
    destruct (test_bits _ CNN_STAT_DONE); simpl in *; [lia | discriminate Hret].
  - intros Hirq w1. apply Hflag. subst w1.
    unfold CNN_InterruptHandler. run_driver. fold_regs. rewrite Hirq. simpl. lia.
Qed.

Lemma observed_completion_is_remembered_witness :
  (let w1 := snd (CNN_WaitForCompletion (hw_done_after 2) 3 PTR 0 fresh_world) in
   CNN_IsComplete (hw_const 0) PTR w1 = (1, w1)) /\
  (let w1 := snd (CNN_IsComplete (hw_const 2) PTR fresh_world) in
   CNN_IsComplete (hw_const 0) PTR w1 = (1, w1)) /\
  (let w1 := snd (CNN_InterruptHandler (hw_const 1) PTR fresh_world) in
   CNN_IsComplete (hw_const 0) PTR w1 = (1, w1)).
Proof.
  split; [|split].
  - apply (observed_completion_is_remembered (hw_done_after 2) (hw_const 0)
             fresh_world 3 0). reflexivity.
  - apply (observed_completion_is_remembered (hw_const 2) (hw_const 0)
             fresh_world 0 0). reflexivity.
  - apply (observed_completion_is_remembered (hw_const 1) (hw_const 0)
             fresh_world 0 0). reflexivity.
Defined.

(** ** Registers and the handle *)

Lemma mirror_ok_same (h h' : CnnAccelerator_t) (e : event) :
  same_addresses h h' -> mirror_ok h e -> mirror_ok h' e.
Proof.
  intros (Hb & _ & _ & Hw & Hbi & _ & Ho). unfold mirror_ok, reg_addr.
  destruct e; try (intros; exact I).
  rewrite Hb, Hw, Hbi, Ho. tauto.
Qed.

(** X15. The weight, bias and output address registers mirror the handle:
    if every write made to them so far carried the address the handle
    stores, this is still so after any call of the API other than
    [CNN_Init], whatever the hardware answers. *)
Theorem address_registers_mirror_handle :
  forall hw dev_mem expf (cnn : pointer) (c : api_call) (w w' : World),
    c <> CallInit ->
    Forall (mirror_ok (handle w)) (trace w) ->
    run_call hw dev_mem expf cnn c w = Some w' ->
    Forall (mirror_ok (handle w')) (trace w').
Proof.
  intros hw dev_mem expf cnn c w w' Hc Hinv Hrun.
  destruct (run_call_effect hw dev_mem expf cnn c w w' Hrun)
    as (evs & Ht & _ & Hmir & _ & Hfields).
  destruct (Hfields Hc) as [Hsame _].
  rewrite Ht. apply Forall_app. split; [|exact Hmir].
  eapply Forall_impl; [exact Hinv|].
  intros e He. exact (mirror_ok_same _ _ e Hsame He).
Qed.

Lemma address_registers_mirror_handle_witness :
  Forall (mirror_ok (handle (snd (CNN_Configure PTR (Some default_config)
                                                fresh_world))))
         (trace (snd (CNN_Configure PTR (Some default_config) fresh_world))).
Proof.
  apply (address_registers_mirror_handle (hw_const 0) zero_memory unit_expf PTR
           (CallConfigure (Some default_config)) fresh_world).
  - discriminate.
  - constructor.
  - reflexivity.
Defined.

Lemma last_write_app (a : Z) (t evs : list event) :
  last_write a (t ++ evs)
  = match last_write a evs with
    | Some v => Some v
    | None => last_write a t
    end.
Proof.
  induction t as [|e t IH]; simpl.
  - destruct (last_write a evs); reflexivity.
  - rewrite IH. destruct (last_write a evs); reflexivity.
Qed.

(** X16. The input address register does not mirror the handle.
    [CNN_StartInference] writes the frame address it is given to the
    register but not to the handle, so a [CNN_Configure] after it puts the
    address stored in the handle back into the register. *)
Theorem Configure_restores_input_address :
  forall (hw : list event -> Z -> Z) (w : World) (f : Z) (c : CnnConfig_t),
    test_bits (hw (trace w) (status_addr (handle w))) CNN_STAT_BUSY = false ->
    valid_dimensions c ->
    let a := reg_addr (handle w) CNN_REG_INPUT_ADDR in
    let w1 := snd (CNN_StartInference hw PTR f w) in
    let w2 := snd (CNN_Configure PTR (Some c) w1) in
    last_write a (trace w1) = Some f /\
    input_frame_addr (handle w1) = input_frame_addr (handle w) /\
    last_write a (trace w2) = Some (input_frame_addr (handle w)).
Proof.
  intros hw w f c Hfree [Hw Hh] a w1 w2.
  assert (Hne : forall off, 0 <= off < 2 ^ 32 -> off <> CNN_REG_INPUT_ADDR ->
                            (reg_addr (handle w) off =? a) = false).
  { intros off Hoff Hn. apply Z.eqb_neq. intros Heq. apply Hn.
    apply (reg_addr_inj (handle w)); [exact Hoff | vm_compute; split; [discriminate|reflexivity] | exact Heq]. }
  assert (H1 : w1 = mkWorld (set_inference_done 0 (handle w))
                 (trace w ++
                    [EvIn32 (status_addr (handle w)) (hw (trace w) (status_addr (handle w)));
                     EvOut32 a f;
                     EvFlush f (frame_size_of (config (handle w)));
                     EvOut32 (reg_addr (handle w) CNN_REG_CONTROL) CNN_CTRL_START])).
  { subst w1 a. unfold CNN_StartInference. run_driver. rewrite Hfree. simpl.
    fold_regs. rewrite <- !app_assoc. reflexivity. }
  assert (H2 : w2 = mkWorld (set_config c (handle w1))
                            (trace w1 ++ configure_writes (handle w1) c)).
  { subst w2. unfold CNN_Configure.
    replace (input_width c =? 0) with false by (symmetry; apply Z.eqb_neq; lia).
    replace (input_height c =? 0) with false by (symmetry; apply Z.eqb_neq; lia).
    replace (224 <? input_width c) with false by (symmetry; apply Z.ltb_ge; lia).
    replace (224 <? input_height c) with false by (symmetry; apply Z.ltb_ge; lia).
    simpl. run_driver. fold_regs. unfold configure_writes.
    rewrite <- !app_assoc. reflexivity. }
  split; [|split].
  - rewrite H1. simpl trace. rewrite last_write_app. simpl.
    rewrite (Hne CNN_REG_CONTROL) by (vm_compute; intuition discriminate).
    rewrite Z.eqb_refl. reflexivity.
  - rewrite H1. reflexivity.
  - rewrite H2. simpl trace. rewrite last_write_app.
    rewrite H1. unfold configure_writes. simpl.
    change (reg_addr (set_inference_done 0 (handle w))) with (reg_addr (handle w)).
    rewrite (Hne CNN_REG_OUTPUT_ADDR) by (vm_compute; intuition discriminate).
    fold a. rewrite Z.eqb_refl. reflexivity.
Qed.

Lemma Configure_restores_input_address_witness :
  let a := reg_addr (handle fresh_world) CNN_REG_INPUT_ADDR in
  let w1 := snd (CNN_StartInference (hw_const 0) PTR 0x30000000 fresh_world) in
  let w2 := snd (CNN_Configure PTR (Some default_config) w1) in
  last_write a (trace w1) = Some 0x30000000 /\
  input_frame_addr (handle w1) = input_frame_addr (handle fresh_world) /\
  last_write a (trace w2) = Some (input_frame_addr (handle fresh_world)).
Proof.
  apply (Configure_restores_input_address (hw_const 0) fresh_world 0x30000000
                                          default_config).
  - reflexivity.
  - unfold valid_dimensions. simpl. lia.
Defined.

(** ** Top-K on arbitrary floats *)

Lemma F32_gt_trans (x y z : F32.float) :
  F32.gt x y = true -> F32.gt y z = true -> F32.gt x z = true.
Proof.
  unfold F32.gt. intros Hxy Hyz.
  apply (F32_le_lt_trans z y x); [|exact Hxy].
  apply F32_lt_le. exact Hyz.
Qed.

(** The running maximum is the sentinel, or a candidate above it. *)
Lemma keep_best_picks (probs : list F32.float) :
  forall (l : list nat) (st : F32.float * Z),
    (st = (neg_one, -1) \/
     exists j, st = (prob_at probs j, Z.of_nat j) /\
               F32.gt (prob_at probs j) neg_one = true) ->
    fold_left (keep_best probs) l st = (neg_one, -1) \/
    exists j, (j ∈ l \/ st = (prob_at probs j, Z.of_nat j)) /\
              fold_left (keep_best probs) l st = (prob_at probs j, Z.of_nat j) /\
              F32.gt (prob_at probs j) neg_one = true.
Proof.
  induction l as [|i l IH]; intros st Hst.
  - simpl. destruct Hst as [-> | (j & -> & Hj)]; [left; reflexivity|].
    right. exists j. auto.
  - simpl. unfold keep_best at 2 4.
    destruct (F32.gt (prob_at probs i) (fst st)) eqn:Hgt.
    + assert (Hi : F32.gt (prob_at probs i) neg_one = true).
      { destruct Hst as [-> | (j & -> & Hj)]; [exact Hgt|].
        simpl in Hgt. apply (F32_gt_trans _ _ _ Hgt Hj). }
      destruct (IH (prob_at probs i, Z.of_nat i)) as [Hn | (j & Hin & Heq & Hj)].
      * right. exists i. auto.
      * left. exact Hn.
      * right. exists j. split; [|split; assumption].
        left. destruct Hin as [Hin | Hin].
        -- apply elem_of_cons. right. exact Hin.
        -- injection Hin as _ Hij. apply Nat2Z.inj in Hij. subst.
           apply elem_of_cons. left. reflexivity.
    + destruct (IH st Hst) as [Hn | (j & Hin & Heq & Hj)]; [left; exact Hn|].
      right. exists j. split; [|split; assumption].
      destruct Hin as [Hin | Hin]; [left; apply elem_of_cons; right; exact Hin|].
      right. exact Hin.
Qed.

(** The inner loop on arbitrary floats: no pick, or an unselected valid
    index with a probability above the sentinel. *)
Lemma scan_picks (probs : list F32.float) (selected : list bool) (chosen : list nat) :
  sel_inv selected chosen ->
  (length probs <= length selected)%nat ->
  scan probs (Z.of_nat (length probs)) selected = Some (neg_one, -1) \/
  exists j,
    scan probs (Z.of_nat (length probs)) selected
    = Some (prob_at probs j, Z.of_nat j) /\
    (j ∉ chosen) /\ (j < length probs)%nat /\
    F32.gt (prob_at probs j) neg_one = true.
Proof.
  intros Hinv Hle. unfold scan. rewrite Nat2Z.id.
  rewrite (scan_fold probs selected chosen Hinv Hle).
  2:{ intros i Hi. apply elem_of_seq in Hi. lia. }
  fold (candidates probs chosen).
  destruct (keep_best_picks probs (candidates probs chosen) (neg_one, -1))
    as [Hn | (j & Hin & Heq & Hj)].
  - left. reflexivity.
  - left. rewrite Hn. reflexivity.
  - right. exists j. rewrite Heq.
    destruct Hin as [Hin | Hin].
    + apply candidates_valid in Hin. tauto.
    + injection Hin as _ Hz. lia.
Qed.

(** Once a round finds nothing, no later round does. *)
Lemma topk_rounds_idle (probs : list F32.float) (N : Z) (selected : list bool)
    (results : list ClassificationResult_t) :
  scan probs N selected = Some (neg_one, -1) ->
  forall (rounds k : nat),
    topk_rounds probs N rounds k selected results = Some results.
Proof.
  intros Hscan. induction rounds as [|rounds IH]; intros k; [reflexivity|].
  simpl. rewrite Hscan. simpl. apply IH.
Qed.

Lemma chosen_room (N : nat) (chosen : list nat) (b : nat) :
  NoDup chosen -> (forall i, i ∈ chosen -> (i < N)%nat) ->
  b ∉ chosen -> (b < N)%nat -> (length chosen < N)%nat.
Proof.
  intros Hnd Hval Hb HbN.
  assert (Hsub : (b :: chosen) ⊆+ seq 0 N).
  { apply NoDup_submseteq.
    - apply NoDup_cons. split; assumption.
    - intros x Hx. apply elem_of_seq. apply elem_of_cons in Hx.
      destruct Hx as [-> | Hx]; [lia|]. specialize (Hval x Hx). lia. }
  apply submseteq_length in Hsub. rewrite length_seq in Hsub. simpl in Hsub. lia.
Qed.

Lemma topk_rounds_picks (probs : list F32.float) :
  forall (rounds k : nat) (selected : list bool) (chosen : list nat)
         (results : list ClassificationResult_t),
    sel_inv selected chosen ->
    (length probs <= length selected)%nat ->
    NoDup chosen -> (forall i, i ∈ chosen -> (i < length probs)%nat) ->
    (k + Nat.min rounds (length probs - length chosen) <= length results)%nat ->
    exists picks,
      topk_rounds probs (Z.of_nat (length probs)) rounds k selected results
      = Some (take k results ++ picks ++ drop (k + length picks) results) /\
      (length picks <= Nat.min rounds (length probs - length chosen))%nat /\
      NoDup (map class_id picks) /\
      Forall (is_pick probs chosen) picks.
Proof.
  induction rounds as [|rounds IH];
    intros k selected chosen results Hinv Hle Hnd Hval Hroom.
  - exists []. simpl. rewrite Nat.add_0_r, take_drop.
    repeat split; [lia | constructor | constructor].
  - destruct (scan_picks probs selected chosen Hinv Hle)
      as [Hnone | (b & Hscan & Hb & HbN & Hgt)].
    + exists []. simpl topk_rounds. rewrite Hnone. simpl.
      rewrite (topk_rounds_idle probs _ selected results Hnone).
      rewrite Nat.add_0_r, take_drop.
      repeat split; [lia | constructor | constructor].
    + pose proof (chosen_room _ chosen b Hnd Hval Hb HbN) as Hfree.
      assert (Hk : (k < length results)%nat) by lia.
      destruct (lookup_lt_is_Some_2 results k Hk) as [old Hold].
      destruct (IH (S k) (<[b := true]> selected) (b :: chosen)
                   (<[k := mkClassification (Z.of_nat b) (prob_at probs b)]> results))
        as (picks & Heq & Hlen & Hdup & Hall).
      * apply sel_inv_insert; [exact Hinv | lia].
      * rewrite length_insert. exact Hle.
      * apply NoDup_cons. split; assumption.
      * intros i Hi. apply elem_of_cons in Hi.
        destruct Hi as [-> | Hi]; [exact HbN | exact (Hval i Hi)].
      * rewrite length_insert. simpl length. lia.
      * exists (mkClassification (Z.of_nat b) (prob_at probs b) :: picks).
        split; [|split; [|split]].
        -- simpl topk_rounds. rewrite Hscan.
           replace (0 <=? Z.of_nat b) with true by (symmetry; apply Z.leb_le; lia).
           rewrite Hold, Nat2Z.id, Heq. f_equal.
           rewrite (take_S_r _ _ (mkClassification (Z.of_nat b) (prob_at probs b)))
             by (apply list_lookup_insert_eq; exact Hk).
           rewrite take_insert_ge by lia.
           rewrite drop_insert_lt by lia.
           rewrite <- app_assoc. simpl.
           replace (S (k + length picks)) with (k + S (length picks))%nat by lia.
           reflexivity.
        -- simpl length in *. lia.
        -- simpl. apply NoDup_cons. split; [|exact Hdup].
           intros Hin. apply list_elem_of_fmap in Hin.
           destruct Hin as (c & Hc & Hcin).
           apply (proj1 (Forall_forall _ _) Hall) in Hcin.
           destruct Hcin as (i & Hid & Hni & _).
           rewrite Hid in Hc. apply Nat2Z.inj in Hc. subst i.
           apply Hni. apply elem_of_cons. left. reflexivity.
        -- constructor.
           ++ exists b. simpl. split; [reflexivity|]. split; [exact Hb|].
              destruct (lookup_lt_is_Some_2 probs b HbN) as [p Hp].
              rewrite (prob_at_lookup _ _ _ Hp) in *. split; assumption.
           ++ eapply Forall_impl; [exact Hall|].
              intros c (i & Hid & Hni & Hp & Hg). exists i.
              split; [exact Hid|]. split; [|split; assumption].
              intros Hin. apply Hni. apply elem_of_cons. right. exact Hin.
Qed.

(** X17. [CNN_GetTopK] is memory-safe and never reports a class twice, for
    any floats, NaN included.  With at most [CNN_MAX_CLASSES] classes and
    room in [results] for min(k, N) entries, it stays inside all three
    arrays and stores its picks at the front of [results], leaving the
    rest alone.  The picks are at most min(k, N), their class ids are
    distinct valid indices, and each confidence is the element stored at
    that index, which compares above [-1.0f]. *)
Theorem GetTopK_safe_and_distinct :
  forall (probs : list F32.float) (top_k : Z)
         (results : list ClassificationResult_t),
    Z.of_nat (length probs) <= CNN_MAX_CLASSES ->
    Z.min top_k (Z.of_nat (length probs)) <= Z.of_nat (length results) ->
    exists picks,
      CNN_GetTopK probs (Z.of_nat (length probs)) top_k results
      = Some (picks ++ drop (length picks) results) /\
      (length picks <= Nat.min (Z.to_nat top_k) (length probs))%nat /\
      NoDup (map class_id picks) /\
      Forall (is_pick probs []) picks.
Proof.
  intros probs top_k results Hmax Hroom. unfold CNN_GetTopK.
  destruct (topk_rounds_picks probs (Z.to_nat top_k) 0
              (replicate (Z.to_nat CNN_MAX_CLASSES) false) [] results)
    as (picks & Heq & Hlen & Hdup & Hall).
  - exact sel_inv_init.
  - rewrite length_replicate. lia.
  - constructor.
  - intros i Hi. apply elem_of_nil in Hi. contradiction.
  - simpl. lia.
  - exists picks. split; [exact Heq|]. simpl in Hlen.
    split; [lia|]. split; assumption.
Qed.

Lemma GetTopK_safe_and_distinct_witness :
  exists picks,
    CNN_GetTopK [S754_nan; half; quarter] 3 5 sample_results
    = Some (picks ++ drop (length picks) sample_results) /\
    (length picks <= Nat.min (Z.to_nat 5) 3)%nat /\
    NoDup (map class_id picks) /\
    Forall (is_pick [S754_nan; half; quarter] []) picks.
Proof.
  apply (GetTopK_safe_and_distinct [S754_nan; half; quarter] 5 sample_results).
  - vm_compute. discriminate.
  - vm_compute. discriminate.
Defined.

(** ** Decoding keeps the order *)

Lemma decode_steps_all :
  forall_from (-32768) (Z.to_nat 65535) decode_step_ok = true.
Proof. vm_compute. reflexivity. Qed.

Lemma F32_lt_trans (x y z : F32.float) :
  F32.lt x y = true -> F32.lt y z = true -> F32.lt x z = true.
Proof.
  intros Hxy Hyz. apply (F32_le_lt_trans x y z); [apply F32_lt_le|]; assumption.
Qed.

Lemma F32_lt_asym (x y : F32.float) : F32.lt x y = true -> F32.lt y x = false.
Proof. intros H. sf_order. Qed.

Lemma F32_lt_irrefl (x : F32.float) : F32.lt x x = false.
Proof. sf_order. Qed.

Lemma decode_increasing :
  forall (d : nat) (a : Z),
    -32768 <= a -> a + Z.of_nat (S d) <= 32767 ->
    F32.lt (CNN_FixedToFloat a) (CNN_FixedToFloat (a + Z.of_nat (S d))) = true.
Proof.
  induction d as [|d IH]; intros a Ha Hb.
  - apply (forall_from_sound _ _ _ decode_steps_all a). lia.
  - apply (F32_lt_trans _ (CNN_FixedToFloat (a + Z.of_nat (S d)))).
    + apply IH; lia.
    + replace (a + Z.of_nat (S (S d))) with (a + Z.of_nat (S d) + 1) by lia.
      apply (forall_from_sound _ _ _ decode_steps_all (a + Z.of_nat (S d))). lia.
Qed.

Lemma decode_lt (a b : Z) :
  is_int16 a -> is_int16 b ->
  F32.lt (CNN_FixedToFloat a) (CNN_FixedToFloat b) = (a <? b).
Proof.
  intros Ha Hb. unfold is_int16 in *.
  destruct (Z.ltb_spec a b) as [Hab|Hba].
  - replace b with (a + Z.of_nat (S (Z.to_nat (b - a - 1)))) by lia.
    apply decode_increasing; lia.
  - destruct (Z.eq_dec a b) as [->|Hne]; [apply F32_lt_irrefl|].
    apply F32_lt_asym.
    replace a with (b + Z.of_nat (S (Z.to_nat (a - b - 1)))) by lia.
    apply decode_increasing; lia.
Qed.

(** X18. Decoding Q8.8 to float keeps the order: for 16-bit values [a] and
    [b], the float comparison of the decoded values agrees with the
    integer comparison of [a] and [b]. *)
Theorem FixedToFloat_order :
  forall a b : Z,
    is_int16 a -> is_int16 b ->
    F32.lt (CNN_FixedToFloat a) (CNN_FixedToFloat b) = (a <? b) /\
    F32.gt (CNN_FixedToFloat a) (CNN_FixedToFloat b) = (b <? a).
Proof.
  intros a b Ha Hb. split; [apply decode_lt; assumption|].
  unfold F32.gt. apply (decode_lt b a); assumption.
Qed.

Lemma FixedToFloat_order_witness :
  F32.lt (CNN_FixedToFloat (-3)) (CNN_FixedToFloat 500) = (-3 <? 500) /\
  F32.gt (CNN_FixedToFloat (-3)) (CNN_FixedToFloat 500) = (500 <? -3).
Proof.
  apply (FixedToFloat_order (-3) 500); unfold is_int16; lia.
Defined.

(** ** The softmax *)

Lemma softmax_length (expf : F32.float -> F32.float) (input : Z -> Z) (size : Z) :
  length (CNN_Softmax expf input size) = Z.to_nat size.
Proof.
  unfold CNN_Softmax. rewrite !length_map, length_seq. reflexivity.
Qed.

Lemma max_logit_int16 (input : Z -> Z) :
  forall n : nat,
    (forall i, 0 <= i <= Z.of_nat n -> is_int16 (input i)) ->
    is_int16 (max_logit input n).
Proof.
  induction n as [|n IH]; intros Hin.
  - simpl. apply Hin. lia.
  - simpl max_logit. unfold is_int16 in *.
    pose proof (IH ltac:(intros i Hi; apply Hin; lia)).
    pose proof (Hin (Z.of_nat (S n)) ltac:(lia)). lia.
Qed.

(** The first loop of the softmax finds the decoded maximum logit. *)
Lemma softmax_running_max (input : Z -> Z) :
  forall n : nat,
    (forall i, 0 <= i <= Z.of_nat n -> is_int16 (input i)) ->
    fold_left (fun max_val i =>
                 if F32.gt (CNN_FixedToFloat (input i)) max_val
                 then CNN_FixedToFloat (input i) else max_val)
              (map Z.of_nat (seq 1 n)) (CNN_FixedToFloat (input 0))
    = CNN_FixedToFloat (max_logit input n).
Proof.
  induction n as [|n IH]; intros Hin; [reflexivity|].
  rewrite seq_S, map_app, fold_left_app.
  rewrite IH by (intros i Hi; apply Hin; lia).
  simpl fold_left.
  assert (Hm : is_int16 (max_logit input n))
    by (apply max_logit_int16; intros i Hi; apply Hin; lia).
  assert (Hx : is_int16 (input (Z.of_nat (S n)))) by (apply Hin; lia).
  change (F32.gt (CNN_FixedToFloat (input (Z.of_nat (S n))))
                 (CNN_FixedToFloat (max_logit input n)))
    with (F32.lt (CNN_FixedToFloat (max_logit input n))
                 (CNN_FixedToFloat (input (Z.of_nat (S n))))).
  rewrite (decode_lt _ _ Hm Hx). simpl max_logit.
  destruct (Z.ltb_spec (max_logit input n) (input (Z.of_nat (S n)))) as [H|H].
  - rewrite Z.max_r by lia. reflexivity.
  - rewrite Z.max_l by lia. reflexivity.
Qed.

Lemma self_sub_zero_all :
  forall_from (-32768) (Z.to_nat 65536) self_sub_zero = true.
Proof. vm_compute. reflexivity. Qed.

Lemma decode_self_sub (v : Z) :
  is_int16 v ->
  F32.sub (CNN_FixedToFloat v) (CNN_FixedToFloat v) = S754_zero false.
Proof.
  intros Hv. unfold is_int16 in Hv.
  pose proof (forall_from_sound _ _ _ self_sub_zero_all v ltac:(lia)) as H.
  unfold self_sub_zero in H.
  destruct (F32.sub (CNN_FixedToFloat v) (CNN_FixedToFloat v)) as [[]| | |];
    try discriminate H; reflexivity.
Qed.

Lemma max_logit_attained (input : Z -> Z) :
  forall n : nat, exists i : nat, (i <= n)%nat /\ input (Z.of_nat i) = max_logit input n.
Proof.
  induction n as [|n (i & Hi & Heq)].
  - exists 0%nat. split; [lia | reflexivity].
  - simpl max_logit.
    destruct (Z.max_spec (max_logit input n) (input (Z.of_nat (S n))))
      as [[_ ->] | [_ ->]].
    + exists (S n). split; [lia | reflexivity].
    + exists i. split; [lia | exact Heq].
Qed.

(** X19. For 16-bit logits, the maximum [CNN_Softmax] subtracts is the
    decoded largest logit: its result is the exponentials of the decoded
    logits minus that maximum, each divided by their running float sum.
    There are as many outputs as logits, every position holding the
    largest logit gets [expf(+0.0f)] as its exponential, and a size of 0
    or less gives no output. *)
Theorem Softmax_subtracts_max_logit :
  forall (expf : F32.float -> F32.float) (input : Z -> Z) (n : nat),
    (forall i, 0 <= i <= Z.of_nat n -> is_int16 (input i)) ->
    CNN_Softmax expf input (Z.of_nat (S n)) = softmax_of_max expf input n /\
    length (CNN_Softmax expf input (Z.of_nat (S n))) = S n /\
    (exists i : nat, (i <= n)%nat /\ input (Z.of_nat i) = max_logit input n) /\
    (forall i : nat,
        (i <= n)%nat -> input (Z.of_nat i) = max_logit input n ->
        expf (F32.sub (CNN_FixedToFloat (input (Z.of_nat i)))
                      (CNN_FixedToFloat (max_logit input n)))
        = expf (S754_zero false)) /\
    (forall size, size <= 0 -> CNN_Softmax expf input size = []).
Proof.
  intros expf input n Hin.
  split; [|split; [|split; [|split]]].
  - unfold CNN_Softmax, softmax_of_max. cbv zeta. rewrite Nat2Z.id.
    change (tail (map Z.of_nat (seq 0 (S n)))) with (map Z.of_nat (seq 1 n)).
    rewrite (softmax_running_max input n Hin). reflexivity.
  - rewrite softmax_length, Nat2Z.id. reflexivity.
  - apply max_logit_attained.
  - intros i Hi Heq. rewrite Heq. rewrite decode_self_sub; [reflexivity|].
    apply max_logit_int16. exact Hin.
  - intros size Hsize. unfold CNN_Softmax.
    replace (Z.to_nat size) with 0%nat by lia. reflexivity.
Qed.

Lemma Softmax_subtracts_max_logit_witness :
  CNN_Softmax unit_expf (fun i => 256 * i) (Z.of_nat 3)
  = softmax_of_max unit_expf (fun i => 256 * i) 2.
Proof.
  apply (Softmax_subtracts_max_logit unit_expf (fun i => 256 * i) 2).
  intros i Hi. unfold is_int16. simpl in Hi. lia.
Defined.

(** ** Fetching a result *)

(** X20. Once a completion has been observed, with at most
    [CNN_MAX_CLASSES] classes configured and room for five entries in the
    caller's array, [CNN_GetResult] succeeds within bounds.  Its only
    effect on the hardware is the invalidation of two bytes per class at
    the output address; the handle is unchanged.  The result reports
    min(classes, 5) entries; the entries written are at most that many,
    have distinct class ids below the class count, and the rest of the
    caller's array is as before. *)
Theorem GetResult_success :
  forall (dev_mem : list event -> Z -> Z) (expf : F32.float -> F32.float)
         (w : World) (res : InferenceResult_t),
    let h := handle w in
    let nc := num_classes (config h) in
    inference_done h <> 0 ->
    0 <= nc <= CNN_MAX_CLASSES ->
    (5 <= length (classifications res))%nat ->
    exists picks,
      CNN_GetResult dev_mem expf PTR (Some res) w
      = Some (XST_SUCCESS,
              Some (mkResult (Z.min nc 5)
                             (picks ++ drop (length picks) (classifications res))),
              mkWorld h (trace w ++ [EvInvalidate (output_result_addr h) (nc * 2)])) /\
      Z.of_nat (length picks) <= Z.min nc 5 /\
      NoDup (map class_id picks) /\
      Forall (fun c => 0 <= class_id c < nc) picks.
Proof.
  intros dev_mem expf w res h nc Hdone Hnc Hroom. subst h nc.
  set (h := handle w) in *. set (nc := num_classes (config h)) in *.
  unfold CNN_MAX_CLASSES in Hnc.
  unfold CNN_GetResult. fold h. fold nc.
  apply Z.eqb_neq in Hdone. rewrite Hdone.
  run_driver. fold h. fold nc.
  replace (CNN_MAX_CLASSES <? nc) with false
    by (symmetry; apply Z.ltb_ge; unfold CNN_MAX_CLASSES; lia).
  rewrite wrap32_small by lia.
  set (probs := CNN_Softmax expf _ nc).
  assert (Hlen : length probs = Z.to_nat nc) by apply softmax_length.
  assert (Hn : (if nc <? 5 then nc else 5) = Z.min nc 5).
  { destruct (Z.ltb_spec nc 5); lia. }
  rewrite Hn.
  unfold CNN_GetTopK.
  destruct (topk_rounds_picks probs (Z.to_nat (Z.min nc 5)) 0
              (replicate (Z.to_nat CNN_MAX_CLASSES) false) []
              (classifications res))
    as (picks & Heq & Hplen & Hdup & Hall).
  - exact sel_inv_init.
  - rewrite length_replicate, Hlen. unfold CNN_MAX_CLASSES. lia.
  - constructor.
  - intros i Hi. apply elem_of_nil in Hi. contradiction.
  - simpl. lia.
  - replace (Z.of_nat (length probs)) with nc in Heq by lia.
    rewrite Heq. simpl in Hplen. exists picks. split; [reflexivity|].
    split; [lia|]. split; [exact Hdup|].
    eapply Forall_impl; [exact Hall|].
    intros c (i & Hid & _ & Hp & _). apply lookup_lt_Some in Hp. lia.
Qed.

Lemma GetResult_success_witness :
  exists picks,
    CNN_GetResult zero_memory unit_expf PTR (Some (mkResult 0 sample_results))
                  done_world
    = Some (XST_SUCCESS,
            Some (mkResult (Z.min (num_classes (config (handle done_world))) 5)
                           (picks ++ drop (length picks) sample_results)),
            mkWorld (handle done_world)
                    (trace done_world
                       ++ [EvInvalidate (output_result_addr (handle done_world))
                                        (num_classes (config (handle done_world)) * 2)])) /\
    Z.of_nat (length picks) <= Z.min (num_classes (config (handle done_world))) 5 /\
    NoDup (map class_id picks) /\
    Forall (fun c => 0 <= class_id c < num_classes (config (handle done_world))) picks.
Proof.
  apply (GetResult_success zero_memory unit_expf done_world
                           (mkResult 0 sample_results)).
  - simpl. discriminate.
  - simpl. unfold CNN_MAX_CLASSES. lia.
  - simpl. lia.
Defined.

(* ------------------------------------------------------------------ *)
(** * Properties of the test-data generators *)

Lemma to_int16_small (z : Z) : -32768 <= z <= 32767 -> to_int16 z = z.
Proof. intros Hz. unfold to_int16. rewrite Z.mod_small by lia. lia. Qed.

Lemma random_fill_spec (rand : nat -> Z) (modulus offset : Z) :
  0 < modulus <= 32768 -> 0 <= offset <= 32768 ->
  (forall k, 0 <= rand k) ->
  forall (n i : nat) (buf : list Z) (calls : nat),
    (i + n <= length buf)%nat ->
    random_fill rand modulus offset n i (buf, calls)
    = Some (take i buf ++ random_values rand modulus offset calls n
              ++ drop (i + n) buf, (calls + n)%nat).
Proof.
  intros Hm Ho Hrand.
  induction n as [|n IH]; intros i buf calls Hlen.
  - simpl. unfold random_values. simpl.
    rewrite !Nat.add_0_r, take_drop. reflexivity.
  - simpl random_fill.
    destruct (lookup_lt_is_Some_2 buf i ltac:(lia)) as [old Hold].
    rewrite Hold. rewrite IH by (rewrite length_insert; lia).
    f_equal. f_equal; [|lia].
    assert (Hv : to_int16 (Z.rem (rand calls) modulus - offset)
                 = Z.rem (rand calls) modulus - offset).
    { apply to_int16_small.
      pose proof (Z.rem_bound_pos (rand calls) modulus (Hrand calls) ltac:(lia)).
      lia. }
    rewrite Hv.
    rewrite (take_S_r _ _ (Z.rem (rand calls) modulus - offset))
      by (apply list_lookup_insert_eq; lia).
    rewrite take_insert_ge by lia. rewrite drop_insert_lt by lia.
    rewrite <- app_assoc. f_equal.
    unfold random_values. simpl.
    rewrite Nat.add_0_r. f_equal.
    rewrite <- seq_shift, map_map.
    replace (S i + n)%nat with (i + S n)%nat by lia. f_equal.
    { apply map_ext. intros k. f_equal. f_equal. f_equal. lia. }
    f_equal. lia.
Qed.


Lemma random_fill_overrun (rand : nat -> Z) (modulus offset : Z) :
  forall (n i : nat) (st : list Z * nat),
    (length (fst st) < i + n)%nat -> (i <= length (fst st))%nat ->
    random_fill rand modulus offset n i st = None.
Proof.
  induction n as [|n IH]; intros i st Hlen Hi; [lia|].
  simpl. destruct (fst st !! i) eqn:Hl.
  - apply IH; simpl; rewrite length_insert; [lia|].
    apply lookup_lt_Some in Hl. lia.
  - reflexivity.
Qed.

Lemma random_values_range (rand : nat -> Z) (modulus offset : Z) (calls n : nat) :
  0 < modulus -> (forall k, 0 <= rand k) ->
  Forall (fun v => - offset <= v < modulus - offset)
         (random_values rand modulus offset calls n).
Proof.
  intros Hm Hrand. unfold random_values. apply Forall_forall.
  intros v Hv. apply list_elem_of_fmap in Hv. destruct Hv as (k & -> & _).
  pose proof (Z.rem_bound_pos (rand (calls + k)%nat) modulus (Hrand _) Hm). lia.
Qed.

(** X21. [GenerateTestWeights] fills the first [count] elements of the
    array, one call of [rand()] each in index order, with values in
    -128..127 (the source comment says up to 128), which decode to floats
    in [-0.5, 0.5); the rest of the array is untouched.  A count beyond
    the array runs out of its bounds. *)
Theorem GenerateTestWeights_range :
  forall (rand : nat -> Z) (weights : list Z) (count : Z) (calls : nat),
    (forall k, 0 <= rand k) ->
    let n := Z.to_nat count in
    ((n <= length weights)%nat ->
     exists ws,
       GenerateTestWeights rand weights count calls
       = Some (ws ++ drop n weights, (calls + n)%nat) /\
       length ws = n /\
       (forall k, (k < n)%nat ->
                  ws !! k = Some (Z.rem (rand (calls + k)%nat) 256 - 128)) /\
       Forall (fun v => -128 <= v <= 127 /\
                        F32.le (F32.div (F32.of_Z (-1)) (F32.of_Z 2))
                               (CNN_FixedToFloat v) = true /\
                        F32.lt (CNN_FixedToFloat v)
                               (F32.div (F32.of_Z 1) (F32.of_Z 2)) = true) ws) /\
    ((length weights < n)%nat ->
     GenerateTestWeights rand weights count calls = None).
Proof.
  intros rand weights count calls Hrand n. split.
  - intros Hfit. exists (random_values rand 256 128 calls n).
    unfold GenerateTestWeights. fold n.
    rewrite (random_fill_spec rand 256 128 ltac:(lia) ltac:(lia) Hrand n 0
                              weights calls ltac:(lia)).
    split; [reflexivity|]. split; [|split].
    + unfold random_values. rewrite length_map, length_seq. reflexivity.
    + intros k Hk. unfold random_values.
      rewrite list_lookup_fmap, lookup_seq_lt by exact Hk. reflexivity.
    + eapply Forall_impl;
        [exact (random_values_range rand 256 128 calls n ltac:(lia) Hrand)|].
      intros v Hv. simpl in Hv. split; [lia|].
      change (F32.div (F32.of_Z (-1)) (F32.of_Z 2)) with (CNN_FixedToFloat (-128)).
      change (F32.div (F32.of_Z 1) (F32.of_Z 2)) with (CNN_FixedToFloat 128).
      split.
      * destruct (Z.eq_dec v (-128)) as [->|Hne]; [reflexivity|].
        apply F32_lt_le. rewrite decode_lt by (unfold is_int16; lia).
        apply Z.ltb_lt. lia.
      * rewrite decode_lt by (unfold is_int16; lia). apply Z.ltb_lt. lia.
  - intros Hover. unfold GenerateTestWeights. fold n.
    apply random_fill_overrun; simpl; lia.
Qed.

Lemma random_values_length (rand : nat -> Z) (m o : Z) (calls n : nat) :
  length (random_values rand m o calls n) = n.
Proof. unfold random_values. rewrite length_map, length_seq. reflexivity. Qed.

Lemma GenerateTestWeights_range_witness :
  let rand := fun k : nat => 37 * Z.of_nat k in
  (forall k, 0 <= rand k) /\
  exists ws,
    GenerateTestWeights rand [0; 0; 0; 7] 3 0
    = Some (ws ++ drop 3 [0; 0; 0; 7], (0 + 3)%nat) /\
    length ws = 3%nat /\
    (forall k, (k < 3)%nat ->
               ws !! k = Some (Z.rem (rand (0 + k)%nat) 256 - 128)) /\
    Forall (fun v => -128 <= v <= 127 /\
                     F32.le (F32.div (F32.of_Z (-1)) (F32.of_Z 2))
                            (CNN_FixedToFloat v) = true /\
                     F32.lt (CNN_FixedToFloat v)
                            (F32.div (F32.of_Z 1) (F32.of_Z 2)) = true) ws.
Proof.
  intros rand.
  assert (Hrand : forall k, 0 <= rand k) by (intros k; unfold rand; lia).
  split; [exact Hrand|].
  apply (proj1 (GenerateTestWeights_range rand [0; 0; 0; 7] 3 0 Hrand)).
  simpl. lia.
Defined.

(** X22. [GenerateTestBiases] fills the first [count] elements with values
    in -32..31, one call of [rand()] each in index order, and leaves the
    rest of the array untouched; a count beyond the array runs out of its
    bounds. *)
Theorem GenerateTestBiases_range :
  forall (rand : nat -> Z) (biases : list Z) (count : Z) (calls : nat),
    (forall k, 0 <= rand k) ->
    let n := Z.to_nat count in
    ((n <= length biases)%nat ->
     exists bs,
       GenerateTestBiases rand biases count calls
       = Some (bs ++ drop n biases, (calls + n)%nat) /\
       length bs = n /\
       (forall k, (k < n)%nat ->
                  bs !! k = Some (Z.rem (rand (calls + k)%nat) 64 - 32)) /\
       Forall (fun v => -32 <= v <= 31) bs) /\
    ((length biases < n)%nat ->
     GenerateTestBiases rand biases count calls = None).
Proof.
  intros rand biases count calls Hrand n. split.
  - intros Hfit. exists (random_values rand 64 32 calls n).
    unfold GenerateTestBiases. fold n.
    rewrite (random_fill_spec rand 64 32 ltac:(lia) ltac:(lia) Hrand n 0
                              biases calls ltac:(lia)).
    split; [reflexivity|]. split; [apply random_values_length|]. split.
    + intros k Hk. unfold random_values.
      rewrite list_lookup_fmap, lookup_seq_lt by exact Hk. reflexivity.
    + eapply Forall_impl;
        [exact (random_values_range rand 64 32 calls n ltac:(lia) Hrand)|].
      intros v Hv. simpl in Hv. lia.
  - intros Hover. unfold GenerateTestBiases. fold n.
    apply random_fill_overrun; simpl; lia.
Qed.

Lemma GenerateTestBiases_range_witness :
  let rand := fun k : nat => 37 * Z.of_nat k in
  (forall k, 0 <= rand k) /\
  GenerateTestBiases rand [0; 0] 3 0 = None.
Proof.
  intros rand.
  assert (Hrand : forall k, 0 <= rand k) by (intros k; unfold rand; lia).
  split; [exact Hrand|].
  apply (proj2 (GenerateTestBiases_range rand [0; 0] 3 0 Hrand)).
  simpl. lia.
Defined.

(** ** The frame generator *)

Lemma store_pixel_spec (buffer : list Z) (i : nat) (b0 b1 b2 : Z) :
  (i + 3 <= length buffer)%nat ->
  store_pixel buffer (Z.of_nat i) (b0, b1, b2)
  = Some (take i buffer ++ [b0; b1; b2] ++ drop (i + 3) buffer).
Proof.
  intros Hlen. unfold store_pixel.
  replace (0 <=? Z.of_nat i) with true by (symmetry; apply Z.leb_le; lia).
  replace (Z.of_nat i + 2 <? Z.of_nat (length buffer)) with true
    by (symmetry; apply Z.ltb_lt; lia).
  simpl. f_equal.
  replace (Z.to_nat (Z.of_nat i + 2)) with (S (S i)) by lia.
  replace (Z.to_nat (Z.of_nat i + 1)) with (S i) by lia.
  rewrite Nat2Z.id.
  set (l1 := <[i := b0]> buffer). set (l2 := <[S i := b1]> l1).
  set (l3 := <[S (S i) := b2]> l2).
  assert (Hl1 : length l1 = length buffer) by apply length_insert.
  assert (Hl2 : length l2 = length buffer)
    by (unfold l2; rewrite length_insert; exact Hl1).
  rewrite <- (take_drop (i + 3) l3).
  replace (take i buffer ++ b0 :: b1 :: b2 :: drop (i + 3) buffer)
    with ((((take i buffer ++ [b0]) ++ [b1]) ++ [b2]) ++ drop (i + 3) buffer)
    by (rewrite <- !List.app_assoc; reflexivity).
  f_equal.
  - replace (i + 3)%nat with (S (S (S i))) by lia.
    rewrite (take_S_r l3 (S (S i)) b2)
      by (apply list_lookup_insert_eq; lia).
    unfold l3. rewrite take_insert_ge by lia.
    rewrite (take_S_r l2 (S i) b1) by (apply list_lookup_insert_eq; lia).
    unfold l2. rewrite take_insert_ge by lia.
    rewrite (take_S_r l1 i b0) by (apply list_lookup_insert_eq; lia).
    unfold l1. rewrite take_insert_ge by lia.
    reflexivity.
  - unfold l3, l2, l1. rewrite !drop_insert_lt by lia. reflexivity.
Qed.

Lemma store_pixel_overrun (buffer : list Z) (i : nat) (bytes : Z * Z * Z) :
  (length buffer < i + 3)%nat -> store_pixel buffer (Z.of_nat i) bytes = None.
Proof.
  intros Hlen. unfold store_pixel. destruct bytes as [[b0 b1] b2].
  replace (Z.of_nat i + 2 <? Z.of_nat (length buffer)) with false
    by (symmetry; apply Z.ltb_ge; lia).
  rewrite andb_false_r. reflexivity.
Qed.

Lemma is_int_small (z : Z) : 0 <= z <= 2147483647 -> is_int z = true.
Proof.
  intros Hz. unfold is_int. apply andb_true_iff. split; apply Z.leb_le; lia.
Qed.

Lemma to_uint8_range (z : Z) : 0 <= to_uint8 z <= 255.
Proof. unfold to_uint8. pose proof (Z.mod_pos_bound z 256). lia. Qed.

(** Inside the frame a pixel is computed without overflow; its bytes are
    bytes and it takes [calls_per_pixel] calls of [rand()]. *)
Lemma pixel_ok (rand : nat -> Z) (pattern : TestPattern_t)
    (w h x y calls : nat) :
  frame_dims_ok w h -> (x < w)%nat -> (y < h)%nat ->
  exists b0 b1 b2,
    pixel rand pattern (Z.of_nat x) (Z.of_nat y) (Z.of_nat w) (Z.of_nat h) calls
    = Some ((b0, b1, b2), (calls + calls_per_pixel pattern)%nat) /\
    Forall (fun b => 0 <= b <= 255) [b0; b1; b2].
Proof.
  intros (Hw & Hh & _) Hx Hy.
  assert (Hbytes : forall a b c, Forall (fun b => 0 <= b <= 255)
                                        [to_uint8 a; to_uint8 b; to_uint8 c])
    by (intros; repeat constructor; apply to_uint8_range).
  destruct pattern; simpl.
  - rewrite !is_int_small by lia.
    replace (Z.of_nat w =? 0) with false by (symmetry; apply Z.eqb_neq; lia).
    replace (Z.of_nat h =? 0) with false by (symmetry; apply Z.eqb_neq; lia).
    simpl. do 3 eexists. split; [f_equal; f_equal; lia | apply Hbytes].
  - destruct (_ =? 0); do 3 eexists;
      (split; [f_equal; f_equal; lia | apply Hbytes]).
  - do 3 eexists. split; [f_equal; f_equal; lia | apply Hbytes].
  - do 3 eexists. split; [f_equal; f_equal; lia | apply Hbytes].
Qed.

Lemma pixel_bytes_ok (rand : nat -> Z) (pattern : TestPattern_t)
    (w h x y calls : nat) :
  frame_dims_ok w h -> (x < w)%nat -> (y < h)%nat ->
  length (pixel_bytes rand pattern w (Z.of_nat h) calls y x) = 3%nat /\
  Forall (fun b => 0 <= b <= 255)
         (pixel_bytes rand pattern w (Z.of_nat h) calls y x).
Proof.
  intros Hd Hx Hy. unfold pixel_bytes.
  destruct (pixel_ok rand pattern w h x y
              (calls + calls_per_pixel pattern * (y * w + x))%nat Hd Hx Hy)
    as (b0 & b1 & b2 & -> & Hb).
  split; [reflexivity | exact Hb].
Qed.

Lemma row_bytes_ok (rand : nat -> Z) (pattern : TestPattern_t)
    (w h y calls : nat) :
  frame_dims_ok w h -> (y < h)%nat ->
  forall n x0, (x0 + n <= w)%nat ->
    length (row_bytes rand pattern w (Z.of_nat h) calls y x0 n) = (3 * n)%nat /\
    Forall (fun b => 0 <= b <= 255)
           (row_bytes rand pattern w (Z.of_nat h) calls y x0 n).
Proof.
  intros Hd Hy. induction n as [|n IH]; intros x0 Hn.
  - split; [reflexivity | constructor].
  - unfold row_bytes. simpl seq. simpl map. simpl concat.
    fold (row_bytes rand pattern w (Z.of_nat h) calls y (S x0) n).
    destruct (pixel_bytes_ok rand pattern w h x0 y calls Hd ltac:(lia) Hy)
      as [Hlen Hb].
    destruct (IH (S x0) ltac:(lia)) as [Hlen' Hb'].
    split.
    + rewrite length_app, Hlen, Hlen'. lia.
    + apply Forall_app. split; assumption.
Qed.

Lemma frame_bytes_ok (rand : nat -> Z) (pattern : TestPattern_t)
    (w h calls : nat) :
  frame_dims_ok w h ->
  forall m y0, (y0 + m <= h)%nat ->
    length (frame_bytes rand pattern w (Z.of_nat h) calls y0 m) = (3 * w * m)%nat /\
    Forall (fun b => 0 <= b <= 255)
           (frame_bytes rand pattern w (Z.of_nat h) calls y0 m).
Proof.
  intros Hd. induction m as [|m IH]; intros y0 Hm.
  - split; [simpl; lia | constructor].
  - unfold frame_bytes. simpl seq. simpl map. simpl concat.
    fold (frame_bytes rand pattern w (Z.of_nat h) calls (S y0) m).
    destruct (row_bytes_ok rand pattern w h y0 calls Hd ltac:(lia) w 0%nat
                           ltac:(lia)) as [Hlen Hb].
    destruct (IH (S y0) ltac:(lia)) as [Hlen' Hb'].
    split.
    + rewrite length_app, Hlen, Hlen'. lia.
    + apply Forall_app. split; assumption.
Qed.

Lemma frame_pixel_none rand pattern width height y (l : list nat) :
  fold_left (frame_pixel rand pattern width height y) l None = None.
Proof. induction l as [|x l IH]; [reflexivity | exact IH]. Qed.

Lemma frame_row_none rand pattern width height (l : list nat) :
  fold_left (frame_row rand pattern width height) l None = None.
Proof.
  induction l as [|y l IH]; [reflexivity|].
  simpl. unfold frame_row at 2. rewrite frame_pixel_none. exact IH.
Qed.

(** The inner loop from column [x0] on, [n] columns. *)
Lemma frame_row_from (rand : nat -> Z) (pattern : TestPattern_t)
    (w h : nat) (c0 : nat) (y : nat) :
  frame_dims_ok w h -> (y < h)%nat ->
  forall (n x0 : nat) (buffer : list Z),
    (x0 + n <= w)%nat ->
    (3 * (y * w + x0 + n) <= length buffer)%nat ->
    fold_left (frame_pixel rand pattern (Z.of_nat w) (Z.of_nat h) y) (seq x0 n)
              (Some (buffer,
                     (c0 + calls_per_pixel pattern * (y * w + x0))%nat))
    = Some (take (3 * (y * w + x0)) buffer
              ++ row_bytes rand pattern w (Z.of_nat h) c0 y x0 n
              ++ drop (3 * (y * w + x0 + n)) buffer,
            (c0 + calls_per_pixel pattern * (y * w + x0 + n))%nat).
Proof.
  intros Hd Hy.
  assert (Hwh : (y * w + w <= w * h)%nat) by nia.
  induction n as [|n IH]; intros x0 buffer Hn Hlen.
  - simpl. unfold row_bytes. simpl.
    rewrite !Nat.add_0_r, take_drop. reflexivity.
  - simpl seq. simpl fold_left.
    destruct Hd as (Hdw & Hdh & Hdsz).
    assert (Hp : Z.of_nat y * Z.of_nat w + Z.of_nat x0 + 1
                 <= Z.of_nat w * Z.of_nat h) by lia.
    rewrite !is_int_small by nia. simpl andb. cbv iota.
    replace ((Z.of_nat y * Z.of_nat w + Z.of_nat x0) * 3)
      with (Z.of_nat (3 * (y * w + x0))) by lia.
    destruct (pixel_ok rand pattern w h x0 y
                (c0 + calls_per_pixel pattern * (y * w + x0))%nat
                (conj Hdw (conj Hdh Hdsz)) ltac:(lia) Hy)
      as (b0 & b1 & b2 & Hpix & _).
    rewrite Hpix.
    rewrite store_pixel_spec by lia.
    replace (c0 + calls_per_pixel pattern * (y * w + x0)
             + calls_per_pixel pattern)%nat
      with (c0 + calls_per_pixel pattern * (y * w + S x0))%nat by lia.
    rewrite IH; [| lia |].
    2:{ rewrite !length_app, length_take, length_drop. simpl. lia. }
    assert (Hrow : row_bytes rand pattern w (Z.of_nat h) c0 y x0 (S n)
                   = [b0; b1; b2]
                       ++ row_bytes rand pattern w (Z.of_nat h) c0 y (S x0) n).
    { unfold row_bytes. simpl seq. simpl map. simpl concat.
      unfold pixel_bytes at 1. rewrite Hpix. reflexivity. }
    rewrite Hrow. clear Hrow Hpix IH.
    set (p := (y * w + x0)%nat) in *.
    replace (y * w + S x0)%nat with (S p) by lia.
    set (row := row_bytes rand pattern w (Z.of_nat h) c0 y (S x0) n).
    assert (Htake : take (3 * S p)
                      (take (3 * p) buffer ++ [b0; b1; b2] ++ drop (3 * p + 3) buffer)
                    = take (3 * p) buffer ++ [b0; b1; b2]).
    { replace (3 * S p)%nat with (3 * p + 3)%nat by lia.
      rewrite take_app_add' by (rewrite length_take; lia). reflexivity. }
    assert (Hdrop : drop (3 * (S p + n))
                      (take (3 * p) buffer ++ [b0; b1; b2] ++ drop (3 * p + 3) buffer)
                    = drop (3 * (p + S n)) buffer).
    { replace (3 * (S p + n))%nat with (3 * p + (3 + 3 * n))%nat by lia.
      rewrite drop_app_add' by (rewrite length_take; lia).
      change (drop (3 + 3 * n) ([b0; b1; b2] ++ drop (3 * p + 3) buffer))
        with (drop (3 * n) (drop (3 * p + 3) buffer)).
      rewrite drop_drop. f_equal. lia. }
    rewrite Htake, Hdrop. rewrite <- !List.app_assoc.
    f_equal. f_equal. lia.
Qed.

(** The outer loop from row [y0] on, [m] rows. *)
Lemma frame_from (rand : nat -> Z) (pattern : TestPattern_t)
    (w h : nat) (c0 : nat) :
  frame_dims_ok w h ->
  forall (m y0 : nat) (buffer : list Z),
    (y0 + m <= h)%nat ->
    (3 * w * (y0 + m) <= length buffer)%nat ->
    fold_left (frame_row rand pattern (Z.of_nat w) (Z.of_nat h)) (seq y0 m)
              (Some (buffer, (c0 + calls_per_pixel pattern * (y0 * w))%nat))
    = Some (take (3 * w * y0) buffer
              ++ frame_bytes rand pattern w (Z.of_nat h) c0 y0 m
              ++ drop (3 * w * (y0 + m)) buffer,
            (c0 + calls_per_pixel pattern * ((y0 + m) * w))%nat).
Proof.
  intros Hd. induction m as [|m IH]; intros y0 buffer Hm Hlen.
  - simpl. unfold frame_bytes. simpl.
    rewrite !Nat.add_0_r, take_drop. reflexivity.
  - simpl seq. simpl fold_left. unfold frame_row at 2.
    rewrite Nat2Z.id.
    assert (Hfit : (3 * (y0 * w + 0 + w) <= length buffer)%nat) by nia.
    pose proof (frame_row_from rand pattern w h c0 y0 Hd ltac:(lia) w 0%nat
                               buffer ltac:(lia) Hfit) as Hrow.
    rewrite Nat.add_0_r in Hrow. rewrite Hrow. clear Hrow.
    replace (y0 * w + w)%nat with (S y0 * w)%nat by lia.
    rewrite IH; [| lia |].
    2:{ rewrite !length_app, length_take, length_drop.
        destruct (row_bytes_ok rand pattern w h y0 c0 Hd ltac:(lia) w 0%nat
                               ltac:(lia)) as [-> _]. nia. }
    set (row := row_bytes rand pattern w (Z.of_nat h) c0 y0 0 w).
    assert (Hrl : length row = (3 * w)%nat)
      by (apply (row_bytes_ok rand pattern w h y0 c0 Hd ltac:(lia) w 0%nat
                              ltac:(lia))).
    assert (Hfb : frame_bytes rand pattern w (Z.of_nat h) c0 y0 (S m)
                  = row ++ frame_bytes rand pattern w (Z.of_nat h) c0 (S y0) m)
      by reflexivity.
    rewrite Hfb. clear Hfb IH.
    set (q := (3 * (y0 * w))%nat).
    replace (3 * w * y0)%nat with q by (unfold q; lia).
    replace (3 * (S y0 * w))%nat with (q + 3 * w)%nat by (unfold q; lia).
    assert (Htake : take (3 * w * S y0) (take q buffer ++ row ++ drop (q + 3 * w) buffer)
                    = take q buffer ++ row).
    { replace (3 * w * S y0)%nat with (q + length row)%nat by (unfold q; lia).
      rewrite take_app_add' by (rewrite length_take; unfold q; nia).
      rewrite take_app_length. reflexivity. }
    assert (Hdrop : drop (3 * w * (S y0 + m))
                         (take q buffer ++ row ++ drop (q + 3 * w) buffer)
                    = drop (3 * w * (y0 + S m)) buffer).
    { replace (3 * w * (S y0 + m))%nat with (q + (length row + 3 * w * m))%nat
        by (unfold q; lia).
      rewrite drop_app_add' by (rewrite length_take; unfold q; nia).
      rewrite drop_app_add' by reflexivity.
      rewrite drop_drop. f_equal. unfold q. lia. }
    rewrite Htake, Hdrop. rewrite <- !List.app_assoc.
    f_equal. f_equal. lia.
Qed.

(** Position [c * k + j] of a concatenation of chunks of length [c]. *)
Lemma concat_chunks_lookup {A} (f : nat -> list A) (c : nat) :
  forall n a k j,
    (forall i, (a <= i < a + n)%nat -> length (f i) = c) ->
    (k < n)%nat -> (j < c)%nat ->
    concat (map f (seq a n)) !! (c * k + j)%nat = f (a + k)%nat !! j.
Proof.
  induction n as [|n IH]; intros a k j Hlen Hk Hj; [lia|].
  simpl seq. simpl map. simpl concat.
  destruct k as [|k].
  - rewrite Nat.mul_0_r, Nat.add_0_r. simpl.
    apply lookup_app_l. rewrite Hlen by lia. exact Hj.
  - rewrite lookup_app_r by (rewrite Hlen by lia; nia).
    rewrite Hlen by lia.
    replace (c * S k + j - c)%nat with (c * k + j)%nat
      by (rewrite Nat.mul_succ_r; lia).
    rewrite IH; [| intros i Hi; apply Hlen; lia | lia | exact Hj].
    replace (S a + k)%nat with (a + S k)%nat by lia. reflexivity.
Qed.

Lemma frame_bytes_lookup (rand : nat -> Z) (pattern : TestPattern_t)
    (w h calls x y j : nat) :
  frame_dims_ok w h -> (x < w)%nat -> (y < h)%nat -> (j < 3)%nat ->
  frame_bytes rand pattern w (Z.of_nat h) calls 0 h !! (3 * (y * w + x) + j)%nat
  = pixel_bytes rand pattern w (Z.of_nat h) calls y x !! j.
Proof.
  intros Hd Hx Hy Hj. unfold frame_bytes.
  replace (3 * (y * w + x) + j)%nat with (3 * w * y + (3 * x + j))%nat by lia.
  rewrite (concat_chunks_lookup
             (fun y => row_bytes rand pattern w (Z.of_nat h) calls y 0 w) (3 * w)).
  - cbv beta. change (0 + y)%nat with y. unfold row_bytes.
    rewrite (concat_chunks_lookup
               (pixel_bytes rand pattern w (Z.of_nat h) calls y) 3).
    + reflexivity.
    + intros i Hi.
      apply (pixel_bytes_ok rand pattern w h i y calls Hd ltac:(lia) Hy).
    + exact Hx.
    + exact Hj.
  - intros i Hi.
    apply (row_bytes_ok rand pattern w h i calls Hd ltac:(lia) w 0%nat ltac:(lia)).
  - exact Hy.
  - lia.
Qed.

(** X23. [GenerateTestFrame] on a buffer that holds the [3 * w * h] bytes of
    the frame (and dimensions that keep the index arithmetic inside [int])
    overwrites exactly that prefix: every byte written is in 0..255, the
    three bytes of the pixel (x, y) lie at offset [3 * (y * w + x)] and are
    those of the pattern, the rest of the buffer is untouched, and
    [rand()] is called three times per pixel for the noise pattern and
    never for the others. *)
Theorem GenerateTestFrame_fills :
  forall (rand : nat -> Z) (buffer : list Z) (w h : nat)
         (pattern : TestPattern_t) (calls : nat),
    frame_dims_ok w h ->
    (3 * w * h <= length buffer)%nat ->
    exists frame,
      GenerateTestFrame rand buffer (Z.of_nat w) (Z.of_nat h) pattern calls
      = Some (frame ++ drop (3 * w * h) buffer,
              (calls + calls_per_pixel pattern * (w * h))%nat) /\
      length frame = (3 * w * h)%nat /\
      Forall (fun b => 0 <= b <= 255) frame /\
      forall x y j, (x < w)%nat -> (y < h)%nat -> (j < 3)%nat ->
        frame !! (3 * (y * w + x) + j)%nat
        = pixel_bytes rand pattern w (Z.of_nat h) calls y x !! j.
Proof.
  intros rand buffer w h pattern calls Hd Hlen.
  exists (frame_bytes rand pattern w (Z.of_nat h) calls 0 h).
  destruct (frame_bytes_ok rand pattern w h calls Hd h 0%nat ltac:(lia))
    as [Hfl Hfb].
  split; [|split; [exact Hfl | split; [exact Hfb|]]].
  - unfold GenerateTestFrame. rewrite Nat2Z.id.
    pose proof (frame_from rand pattern w h calls Hd h 0%nat buffer
                           ltac:(lia) ltac:(simpl; lia)) as Hrun.
    simpl in Hrun. rewrite Nat.mul_0_r, Nat.add_0_r in Hrun.
    rewrite Nat.mul_0_r in Hrun. simpl in Hrun.
    rewrite Hrun. f_equal. f_equal. lia.
  - intros x y j Hx Hy Hj. apply frame_bytes_lookup; assumption.
Qed.

Lemma GenerateTestFrame_fills_witness :
  let rand := fun k : nat => 37 * Z.of_nat k in
  let buffer := [9; 9; 9; 9; 9; 9; 7] in
  frame_dims_ok 2 1 /\ (3 * 2 * 1 <= length buffer)%nat /\
  exists frame,
    GenerateTestFrame rand buffer (Z.of_nat 2) (Z.of_nat 1) PATTERN_NOISE 0
    = Some (frame ++ drop (3 * 2 * 1) buffer,
            (0 + calls_per_pixel PATTERN_NOISE * (2 * 1))%nat) /\
    length frame = (3 * 2 * 1)%nat /\
    Forall (fun b => 0 <= b <= 255) frame /\
    forall x y j, (x < 2)%nat -> (y < 1)%nat -> (j < 3)%nat ->
      frame !! (3 * (y * 2 + x) + j)%nat
      = pixel_bytes rand PATTERN_NOISE 2 (Z.of_nat 1) 0 y x !! j.
Proof.
  intros rand buffer.
  assert (Hd : frame_dims_ok 2 1) by (unfold frame_dims_ok; lia).
  assert (Hlen : (3 * 2 * 1 <= length buffer)%nat) by (simpl; lia).
  split; [exact Hd|]. split; [exact Hlen|].
  exact (GenerateTestFrame_fills rand buffer 2 1 PATTERN_NOISE 0 Hd Hlen).
Defined.

(** The bytes of a pixel, pattern by pattern, once the conversions to
    [uint8_t] are seen to lose nothing. *)
Lemma pixel_bytes_gradient (rand : nat -> Z) (w h x y calls : nat) :
  frame_dims_ok w h -> (x < w)%nat -> (y < h)%nat ->
  pixel_bytes rand PATTERN_GRADIENT w (Z.of_nat h) calls y x
  = [Z.of_nat x * 255 / Z.of_nat w; Z.of_nat y * 255 / Z.of_nat h; 128].
Proof.
  intros (Hw & Hh & _) Hx Hy. unfold pixel_bytes. simpl.
  rewrite !is_int_small by lia.
  replace (Z.of_nat w =? 0) with false by (symmetry; apply Z.eqb_neq; lia).
  replace (Z.of_nat h =? 0) with false by (symmetry; apply Z.eqb_neq; lia).
  simpl. rewrite !Z.quot_div_nonneg by lia.
  assert (Hq : forall a b, 0 <= a < b -> 0 <= a * 255 / b < 255).
  { intros a b Hab. split.
    - apply Z.div_pos; lia.
    - apply Z.div_lt_upper_bound; lia. }
  unfold to_uint8. rewrite !Z.mod_small; [reflexivity | lia | |];
    match goal with |- 0 <= ?a * 255 / ?b < 256 =>
      pose proof (Hq a b ltac:(lia)); lia end.
Qed.

Lemma pixel_bytes_checkerboard (rand : nat -> Z) (w x y calls : nat) (height : Z) :
  pixel_bytes rand PATTERN_CHECKERBOARD w height calls y x
  = let v := if (Z.of_nat x / 16 + Z.of_nat y / 16) mod 2 =? 0
             then 255 else 0 in
    [v; v; v].
Proof.
  unfold pixel_bytes. simpl.
  rewrite !Z.quot_div_nonneg by lia.
  rewrite Z.rem_mod_nonneg
    by (try lia; pose proof (Z.div_pos (Z.of_nat x) 16);
        pose proof (Z.div_pos (Z.of_nat y) 16); lia).
  destruct (_ =? 0); reflexivity.
Qed.

Lemma pixel_bytes_noise (rand : nat -> Z) (w x y calls : nat) (height : Z) :
  (forall k, 0 <= rand k) ->
  forall j, (j < 3)%nat ->
    pixel_bytes rand PATTERN_NOISE w height calls y x !! j
    = Some (rand (calls + (3 * (y * w + x) + j))%nat mod 256).
Proof.
  intros Hrand j Hj. unfold pixel_bytes. simpl pixel. cbv iota.
  set (c := (calls + calls_per_pixel PATTERN_NOISE * (y * w + x))%nat).
  assert (Hc : c = (calls + 3 * (y * w + x))%nat) by (unfold c; simpl; lia).
  clearbody c. subst c.
  unfold to_uint8. rewrite !Z.rem_mod_nonneg by (try lia; apply Hrand).
  rewrite !Z.mod_mod by lia.
  destruct j as [|[|[|j]]]; [| | |lia]; simpl lookup; do 2 f_equal; f_equal; lia.
Qed.

(** X24. What each pattern of [GenerateTestFrame] draws.  In a frame that fits the buffer,
    - the gradient stores at pixel (x, y) the bytes [x * 255 / w],
      [y * 255 / h] and 128, none of them truncated by the store;
    - the checkerboard stores three equal bytes, 255 on the 16-pixel
      tiles whose coordinates sum to an even number and 0 on the others;
    - the noise is the stream of [rand()] values modulo 256, byte after
      byte in buffer order;
    - the solid pattern stores 128 everywhere. *)
Theorem GenerateTestFrame_patterns :
  forall (rand : nat -> Z) (buffer : list Z) (w h : nat)
         (pattern : TestPattern_t) (calls : nat),
    frame_dims_ok w h ->
    (3 * w * h <= length buffer)%nat ->
    (forall k, 0 <= rand k) ->
    exists frame calls',
      GenerateTestFrame rand buffer (Z.of_nat w) (Z.of_nat h) pattern calls
      = Some (frame ++ drop (3 * w * h) buffer, calls') /\
      length frame = (3 * w * h)%nat /\
      match pattern with
      | PATTERN_GRADIENT =>
          forall x y, (x < w)%nat -> (y < h)%nat ->
            frame !! (3 * (y * w + x))%nat
            = Some (Z.of_nat x * 255 / Z.of_nat w) /\
            frame !! (3 * (y * w + x) + 1)%nat
            = Some (Z.of_nat y * 255 / Z.of_nat h) /\
            frame !! (3 * (y * w + x) + 2)%nat = Some 128
      | PATTERN_CHECKERBOARD =>
          forall x y j, (x < w)%nat -> (y < h)%nat -> (j < 3)%nat ->
            frame !! (3 * (y * w + x) + j)%nat
            = Some (if (Z.of_nat x / 16 + Z.of_nat y / 16) mod 2 =? 0
                    then 255 else 0)
      | PATTERN_NOISE =>
          forall k, (k < 3 * w * h)%nat ->
            frame !! k = Some (rand (calls + k)%nat mod 256)
      | PATTERN_SOLID =>
          forall k, (k < 3 * w * h)%nat -> frame !! k = Some 128
      end.
Proof.
  intros rand buffer w h pattern calls Hd Hlen Hrand.
  exists (frame_bytes rand pattern w (Z.of_nat h) calls 0 h).
  exists (calls + calls_per_pixel pattern * (w * h))%nat.
  split; [|split].
  - unfold GenerateTestFrame. rewrite Nat2Z.id.
    pose proof (frame_from rand pattern w h calls Hd h 0%nat buffer
                           ltac:(lia) ltac:(simpl; lia)) as Hrun.
    simpl in Hrun. rewrite Nat.mul_0_r, Nat.add_0_r in Hrun.
    rewrite Nat.mul_0_r in Hrun. simpl in Hrun.
    rewrite Hrun. f_equal. f_equal. lia.
  - apply (frame_bytes_ok rand pattern w h calls Hd h 0%nat). lia.
  - assert (Hsplit : forall k, (k < 3 * w * h)%nat ->
              exists x y j, (x < w)%nat /\ (y < h)%nat /\ (j < 3)%nat /\
                            k = (3 * (y * w + x) + j)%nat).
    { intros k Hk.
      assert (Hw : w <> 0%nat) by (intros ->; lia).
      exists ((k / 3) mod w)%nat, ((k / 3) / w)%nat, (k mod 3)%nat.
      pose proof (Nat.div_mod k 3 ltac:(lia)) as H3.
      pose proof (Nat.mod_upper_bound k 3 ltac:(lia)) as Hj.
      pose proof (Nat.div_mod (k / 3) w Hw) as Hp.
      pose proof (Nat.mod_upper_bound (k / 3) w Hw) as Hx.
      split; [exact Hx|]. split.
      - apply Nat.Div0.div_lt_upper_bound. nia.
      - split; [exact Hj|]. nia. }
    destruct pattern.
    + intros x y Hx Hy.
      pose proof (frame_bytes_lookup rand PATTERN_GRADIENT w h calls x y) as Hl.
      pose proof (Hl 0%nat Hd Hx Hy ltac:(lia)) as H0.
      pose proof (Hl 1%nat Hd Hx Hy ltac:(lia)) as H1.
      pose proof (Hl 2%nat Hd Hx Hy ltac:(lia)) as H2.
      rewrite Nat.add_0_r in H0.
      rewrite pixel_bytes_gradient in H0, H1, H2 by assumption.
      auto.
    + intros x y j Hx Hy Hj.
      rewrite frame_bytes_lookup by assumption.
      rewrite pixel_bytes_checkerboard. cbv zeta.
      destruct j as [|[|[|j]]]; [reflexivity..|lia].
    + intros k Hk. destruct (Hsplit k Hk) as (x & y & j & Hx & Hy & Hj & ->).
      rewrite frame_bytes_lookup by assumption.
      apply pixel_bytes_noise; assumption.
    + intros k Hk. destruct (Hsplit k Hk) as (x & y & j & Hx & Hy & Hj & ->).
      rewrite frame_bytes_lookup by assumption.
      unfold pixel_bytes. simpl.
      destruct j as [|[|[|j]]]; [reflexivity..|lia].
Qed.

Lemma GenerateTestFrame_patterns_witness :
  let rand := fun k : nat => 37 * Z.of_nat k in
  let buffer := [9; 9; 9; 9; 9; 9; 7] in
  frame_dims_ok 2 1 /\ (3 * 2 * 1 <= length buffer)%nat /\
  (forall k, 0 <= rand k) /\
  exists frame calls',
    GenerateTestFrame rand buffer (Z.of_nat 2) (Z.of_nat 1) PATTERN_GRADIENT 0
    = Some (frame ++ drop (3 * 2 * 1) buffer, calls') /\
    length frame = (3 * 2 * 1)%nat /\
    forall x y, (x < 2)%nat -> (y < 1)%nat ->
      frame !! (3 * (y * 2 + x))%nat = Some (Z.of_nat x * 255 / Z.of_nat 2) /\
      frame !! (3 * (y * 2 + x) + 1)%nat = Some (Z.of_nat y * 255 / Z.of_nat 1) /\
      frame !! (3 * (y * 2 + x) + 2)%nat = Some 128.
Proof.
  intros rand buffer.
  assert (Hd : frame_dims_ok 2 1) by (unfold frame_dims_ok; lia).
  assert (Hlen : (3 * 2 * 1 <= length buffer)%nat) by (simpl; lia).
  assert (Hrand : forall k, 0 <= rand k) by (intros k; unfold rand; lia).
  split; [exact Hd|]. split; [exact Hlen|]. split; [exact Hrand|].
  exact (GenerateTestFrame_patterns rand buffer 2 1 PATTERN_GRADIENT 0
                                    Hd Hlen Hrand).
Defined.

Lemma splice_length {A} (l mid : list A) (n : nat) :
  (n + length mid <= length l)%nat ->
  length (take n l ++ mid ++ drop (n + length mid) l) = length l.
Proof.
  intros Hn. rewrite !length_app, length_take, length_drop. lia.
Qed.

(** X25. A buffer shorter than the [3 * w * h] bytes of the frame is
    overrun: [GenerateTestFrame] has no length argument and stores the
    first pixel that does not fit outside the buffer. *)
Theorem GenerateTestFrame_overrun :
  forall (rand : nat -> Z) (buffer : list Z) (w h : nat)
         (pattern : TestPattern_t) (calls : nat),
    frame_dims_ok w h ->
    (length buffer < 3 * w * h)%nat ->
    GenerateTestFrame rand buffer (Z.of_nat w) (Z.of_nat h) pattern calls = None.
Proof.
  intros rand buffer w h pattern calls Hd Hshort.
  assert (Hw : w <> 0%nat) by (intros ->; lia).
  set (p := (length buffer / 3)%nat).
  pose proof (Nat.div_mod (length buffer) 3 ltac:(lia)) as Hp3.
  pose proof (Nat.mod_upper_bound (length buffer) 3 ltac:(lia)) as Hr3.
  fold p in Hp3.
  set (y0 := (p / w)%nat). set (x0 := (p mod w)%nat).
  pose proof (Nat.div_mod p w Hw) as Hpw. fold y0 x0 in Hpw.
  pose proof (Nat.mod_upper_bound p w Hw) as Hx0. fold x0 in Hx0.
  assert (Hpwh : (p < w * h)%nat) by nia.
  assert (Hy0 : (y0 < h)%nat) by nia.
  unfold GenerateTestFrame. rewrite Nat2Z.id.
  replace h with (y0 + S (h - y0 - 1))%nat at 2 by lia.
  rewrite seq_app, fold_left_app. simpl seq at 2. simpl fold_left at 1.
  pose proof (frame_from rand pattern w h calls Hd y0 0%nat buffer
                         ltac:(lia) ltac:(nia)) as Hrows.
  rewrite Nat.mul_0_l, Nat.mul_0_r, Nat.add_0_r in Hrows.
  rewrite Hrows. clear Hrows.
  set (B1 := take (3 * w * 0) buffer
               ++ frame_bytes rand pattern w (Z.of_nat h) calls 0 y0
               ++ drop (3 * w * (0 + y0)) buffer).
  assert (HB1 : length B1 = length buffer).
  { unfold B1.
    destruct (frame_bytes_ok rand pattern w h calls Hd y0 0%nat ltac:(lia))
      as [Hfl _].
    replace (3 * w * (0 + y0))%nat
      with (3 * w * 0
            + length (frame_bytes rand pattern w (Z.of_nat h) calls 0 y0))%nat
      by (rewrite Hfl; lia).
    apply splice_length. rewrite Hfl. nia. }
  clearbody B1.
  unfold frame_row at 2. rewrite Nat2Z.id.
  replace w with (x0 + S (w - x0 - 1))%nat at 3 by lia.
  rewrite seq_app, fold_left_app. simpl seq at 2. simpl fold_left at 1.
  pose proof (frame_row_from rand pattern w h calls y0 Hd Hy0 x0 0%nat B1
                             ltac:(lia) ltac:(nia)) as Hcols.
  rewrite !Nat.add_0_r in Hcols.
  replace ((0 + y0) * w)%nat with (y0 * w)%nat by lia.
  rewrite Hcols. clear Hcols.
  set (B2 := take (3 * (y0 * w)) B1
               ++ row_bytes rand pattern w (Z.of_nat h) calls y0 0 x0
               ++ drop (3 * (y0 * w + x0)) B1).
  assert (HB2 : length B2 = length buffer).
  { unfold B2.
    destruct (row_bytes_ok rand pattern w h y0 calls Hd Hy0 x0 0%nat ltac:(lia))
      as [Hrl _].
    replace (3 * (y0 * w + x0))%nat
      with (3 * (y0 * w)
            + length (row_bytes rand pattern w (Z.of_nat h) calls y0 0 x0))%nat
      by (rewrite Hrl; lia).
    rewrite splice_length; [exact HB1 | rewrite Hrl; nia]. }
  clearbody B2.
  assert (Hfail : frame_pixel rand pattern (Z.of_nat w) (Z.of_nat h) y0
                    (Some (B2, (calls + calls_per_pixel pattern * (y0 * w + x0))%nat))
                    x0 = None).
  { unfold frame_pixel.
    destruct Hd as (Hdw & Hdh & Hdsz).
    assert (Hpz : Z.of_nat y0 * Z.of_nat w + Z.of_nat x0 + 1
                  <= Z.of_nat w * Z.of_nat h) by nia.
    rewrite !is_int_small by nia. simpl andb. cbv iota.
    destruct (pixel_ok rand pattern w h x0 y0
                (calls + calls_per_pixel pattern * (y0 * w + x0))%nat
                (conj Hdw (conj Hdh Hdsz)) Hx0 Hy0)
      as (b0 & b1 & b2 & -> & _).
    replace ((Z.of_nat y0 * Z.of_nat w + Z.of_nat x0) * 3)
      with (Z.of_nat (3 * (y0 * w + x0))) by lia.
    rewrite store_pixel_overrun by nia. reflexivity. }
  rewrite Hfail. rewrite frame_pixel_none. apply frame_row_none.
Qed.

Lemma GenerateTestFrame_overrun_witness :
  frame_dims_ok 2 1 /\ (length [9; 9; 9; 9; 9] < 3 * 2 * 1)%nat /\
  GenerateTestFrame (fun k => 37 * Z.of_nat k) [9; 9; 9; 9; 9]
                    (Z.of_nat 2) (Z.of_nat 1) PATTERN_SOLID 0 = None.
Proof.
  assert (Hd : frame_dims_ok 2 1) by (unfold frame_dims_ok; lia).
  assert (Hlen : (length [9; 9; 9; 9; 9] < 3 * 2 * 1)%nat) by (simpl; lia).
  split; [exact Hd|]. split; [exact Hlen|].
  exact (GenerateTestFrame_overrun (fun k => 37 * Z.of_nat k) [9; 9; 9; 9; 9]
                                   2 1 PATTERN_SOLID 0 Hd Hlen).
Defined.

(* ------------------------------------------------------------------ *)
(** * The softmax as a probability distribution *)

(** * Rounding to binary32 *)

Lemma fexp32 (e : Z) : fexp 24 128 e = Z.max (e - 24) (-149).
Proof. reflexivity. Qed.

Lemma pow2_pos (n : Z) : 0 <= n -> 0 < 2 ^ n.
Proof. intros Hn. apply Z.pow_pos_nonneg; lia. Qed.

Lemma pow2_add (a b : Z) : 0 <= a -> 0 <= b -> 2 ^ (a + b) = 2 ^ a * 2 ^ b.
Proof. intros Ha Hb. apply Z.pow_add_r; assumption. Qed.

Lemma pow2_le (a b : Z) : 0 <= a <= b -> 2 ^ a <= 2 ^ b.
Proof. intros H. apply Z.pow_le_mono_r; lia. Qed.

Lemma pow2_lt (a b : Z) : 0 <= a < b -> 2 ^ a < 2 ^ b.
Proof. intros H. apply Z.pow_lt_mono_r; lia. Qed.

Lemma digits2_pos_bounds (p : positive) :
  2 ^ (Z.pos (digits2_pos p) - 1) <= Z.pos p < 2 ^ Z.pos (digits2_pos p).
Proof.
  induction p as [p IH|p IH|]; simpl digits2_pos.
  - rewrite Pos2Z.inj_succ. change (Z.pos p~1) with (2 * Z.pos p + 1).
    replace (Z.succ (Z.pos (digits2_pos p)) - 1)
      with (Z.succ (Z.pos (digits2_pos p) - 1)) by lia.
    rewrite !Z.pow_succ_r by lia. lia.
  - rewrite Pos2Z.inj_succ. change (Z.pos p~0) with (2 * Z.pos p).
    replace (Z.succ (Z.pos (digits2_pos p)) - 1)
      with (Z.succ (Z.pos (digits2_pos p) - 1)) by lia.
    rewrite !Z.pow_succ_r by lia. lia.
  - simpl. lia.
Qed.

Lemma Zdigits2_bounds (m : Z) :
  0 < m -> 0 < Zdigits2 m /\ 2 ^ (Zdigits2 m - 1) <= m < 2 ^ Zdigits2 m.
Proof.
  intros Hm. destruct m as [|p|p]; try lia.
  simpl. split; [lia | apply digits2_pos_bounds].
Qed.

Lemma Zdigits2_le (m k : Z) : 0 < m < 2 ^ k -> 0 <= k -> Zdigits2 m <= k.
Proof.
  intros Hm Hk. destruct (Zdigits2_bounds m ltac:(lia)) as (Hd & Hlo & _).
  destruct (Z_le_gt_dec (Zdigits2 m) k) as [|Hgt]; [assumption|].
  pose proof (pow2_le k (Zdigits2 m - 1) ltac:(lia)). lia.
Qed.

Lemma Zdigits2_ge (m k : Z) : 2 ^ (k - 1) <= m -> 0 < m -> 0 < k -> k <= Zdigits2 m.
Proof.
  intros Hm Hpos Hk. destruct (Zdigits2_bounds m Hpos) as (Hd & _ & Hhi).
  destruct (Z_le_gt_dec k (Zdigits2 m)) as [|Hgt]; [assumption|].
  pose proof (pow2_le (Zdigits2 m) (k - 1) ltac:(lia)). lia.
Qed.

Ltac bool_cases :=
  repeat match goal with
         | |- context [?x <=? ?y] => destruct (Z.leb_spec x y)
         | |- context [?x =? ?y] => destruct (Z.eqb_spec x y)
         end;
  simpl; try reflexivity; try lia.

(** One step of the right shift halves the unit: the record stands for
    the same rational over twice the denominator. *)
Lemma shr_1_ok (N D : Z) (r : shr_record) :
  0 < D -> rec_ok N D r -> rec_ok N (2 * D) (shr_1 r).
Proof.
  intros HD. destruct r as [m rb sb]. unfold rec_ok. simpl.
  intros (Hm & Ha & Hr & Hs). subst rb sb.
  destruct m as [|p|p]; [|destruct p as [p|p|]|lia]; simpl;
    try change (Z.pos p~1) with (2 * Z.pos p + 1) in *;
    try change (Z.pos p~0) with (2 * Z.pos p) in *;
    (split; [lia|]); (split; [lia|]); split; bool_cases.
Qed.

Lemma iter_shr_1_ok (N : Z) (p : positive) :
  forall (D : Z) (r : shr_record),
    0 < D -> rec_ok N D r -> rec_ok N (D * 2 ^ Z.pos p) (SpecFloat.iter_pos shr_1 p r).
Proof.
  induction p as [p IH|p IH|]; intros D r HD Hr; simpl SpecFloat.iter_pos.
  - assert (H1 := shr_1_ok N D r HD Hr).
    assert (H2 := IH (2 * D) _ ltac:(lia) H1).
    pose proof (pow2_pos (Z.pos p) ltac:(lia)).
    assert (H3 := IH (2 * D * 2 ^ Z.pos p) _ ltac:(nia) H2).
    replace (D * 2 ^ Z.pos p~1) with (2 * D * 2 ^ Z.pos p * 2 ^ Z.pos p);
      [exact H3|].
    change (Z.pos p~1) with (2 * Z.pos p + 1).
    replace (2 * Z.pos p + 1) with (Z.pos p + Z.pos p + 1) by lia.
    rewrite !pow2_add by lia. change (2 ^ 1) with 2. ring.
  - assert (H2 := IH D _ HD Hr).
    pose proof (pow2_pos (Z.pos p) ltac:(lia)).
    assert (H3 := IH (D * 2 ^ Z.pos p) _ ltac:(nia) H2).
    replace (D * 2 ^ Z.pos p~0) with (D * 2 ^ Z.pos p * 2 ^ Z.pos p);
      [exact H3|].
    change (Z.pos p~0) with (2 * Z.pos p).
    replace (2 * Z.pos p) with (Z.pos p + Z.pos p) by lia.
    rewrite !pow2_add by lia. ring.
  - change (2 ^ 1) with 2. replace (D * 2) with (2 * D) by ring.
    apply shr_1_ok; assumption.
Qed.

Lemma shr_ok (N D : Z) (r : shr_record) (e n : Z) :
  0 < D -> 0 <= n -> rec_ok N D r ->
  rec_ok N (D * 2 ^ n) (fst (shr r e n)) /\ snd (shr r e n) = e + n.
Proof.
  intros HD Hn Hr. destruct n as [|p|p]; [| |lia]; simpl.
  - change (2 ^ 0) with 1. replace (D * 1) with D by ring.
    split; [exact Hr | lia].
  - split; [|reflexivity]. apply iter_shr_1_ok; assumption.
Qed.

(** Rounding to nearest even moves to one of the two neighbours, at most
    half a unit away. *)
Lemma round_nearest_even_ok (N D : Z) (r : shr_record) :
  0 < D -> rec_ok N D r ->
  let m2 := round_nearest_even (shr_m r) (loc_of_shr_record r) in
  shr_m r <= m2 <= shr_m r + 1 /\ 2 * Z.abs (m2 * D - N) <= D.
Proof.
  intros HD. destruct r as [m rb sb]. unfold rec_ok. simpl.
  intros (Hm & Ha & Hr & Hs).
  destruct rb, sb; simpl;
    symmetry in Hr; symmetry in Hs;
    rewrite ?Z.leb_le, ?Z.leb_gt in Hr;
    rewrite ?andb_true_iff, ?andb_false_iff, ?negb_true_iff, ?negb_false_iff,
      ?Z.eqb_eq, ?Z.eqb_neq in Hs;
    try (destruct (Z.even m)); lia.
Qed.

Lemma shr_record_of_loc_m (m : Z) (l : location) :
  shr_m (shr_record_of_loc m l) = m.
Proof. destruct l as [|[]]; reflexivity. Qed.

Lemma shr_no_shift (r : shr_record) (e n : Z) : n <= 0 -> shr r e n = (r, e).
Proof. intros Hn. destruct n as [|p|p]; [reflexivity | lia | reflexivity]. Qed.

(** [binary_round_aux] on a mantissa that needs no left shift: the result
    is the nearest multiple of the unit of the result's exponent, and the
    truncated mantissa is normal unless the exponent is the smallest
    one. *)
Lemma binary_round_aux_spec (s : bool) (mx ex : Z) (lx : location) (N D : Z) :
  0 < D -> rec_ok N D (shr_record_of_loc mx lx) ->
  0 <= fexp 24 128 (Zdigits2 mx + ex) - ex ->
  exists n m1 m2 : Z,
    n = fexp 24 128 (Zdigits2 mx + ex) - ex /\
    m1 * (D * 2 ^ n) <= N < (m1 + 1) * (D * 2 ^ n) /\
    0 <= m1 /\ m1 <= m2 <= m1 + 1 /\
    2 * Z.abs (m2 * (D * 2 ^ n) - N) <= D * 2 ^ n /\
    m1 < 16777216 /\ (ex + n = -149 \/ 8388608 <= m1) /\ -149 <= ex + n /\
    binary_round_aux 24 128 s mx ex lx = round_result s m2 (ex + n).
Proof.
  intros HD Hrec Hn.
  set (n := fexp 24 128 (Zdigits2 mx + ex) - ex) in *.
  assert (HP : 0 < 2 ^ n) by (apply pow2_pos; exact Hn).
  destruct (shr_ok N D (shr_record_of_loc mx lx) ex n HD Hn Hrec) as [Hr1 He1].
  unfold binary_round_aux, shr_fexp. fold n.
  destruct (shr (shr_record_of_loc mx lx) ex n) as [r1 e1] eqn:Hshr.
  simpl in Hr1, He1. subst e1.
  set (D' := D * 2 ^ n) in *.
  assert (HD' : 0 < D') by (unfold D'; nia).
  destruct (round_nearest_even_ok N D' r1 HD' Hr1) as [Hm2 Hnear].
  set (m2 := round_nearest_even (shr_m r1) (loc_of_shr_record r1)) in *.
  set (m1 := shr_m r1) in *.
  destruct Hrec as (Hmx & Hax & _). rewrite shr_record_of_loc_m in Hmx, Hax.
  destruct Hr1 as (Hm1 & Ha1 & _). fold m1 in Hm1, Ha1.
  (* the truncated mantissa against the given one *)
  assert (Hlo : m1 * 2 ^ n <= mx) by (unfold D' in *; nia).
  assert (Hhi : mx < (m1 + 1) * 2 ^ n) by (unfold D' in *; nia).
  assert (Hfexp : n = Z.max (Zdigits2 mx + ex - 24) (-149) - ex)
    by (unfold n; rewrite fexp32; reflexivity).
  assert (Hdig : m1 < 16777216 /\ (ex + n = -149 \/ 8388608 <= m1) /\ -149 <= ex + n).
  { destruct (Z.eq_dec mx 0) as [Hz|Hnz].
    - subst mx. simpl in Hfexp. split; [nia|]. split; [left|]; lia.
    - destruct (Zdigits2_bounds mx ltac:(lia)) as (Hd & Hdlo & Hdhi).
      set (d := Zdigits2 mx) in *.
      destruct (Z_le_gt_dec (-149) (d + ex - 24)) as [Hnorm|Hsub].
      + assert (Hnd : n = d - 24) by lia.
        assert (H24 : 2 ^ d = 16777216 * 2 ^ n).
        { replace d with (24 + n) by lia. rewrite pow2_add by lia. reflexivity. }
        assert (H23 : 2 ^ (d - 1) = 8388608 * 2 ^ n).
        { replace (d - 1) with (23 + n) by lia. rewrite pow2_add by lia.
          reflexivity. }
        split; [nia|]. split; [right; nia | lia].
      + assert (Hnd : ex + n = -149) by lia.
        assert (H24 : 2 ^ d <= 16777216 * 2 ^ n).
        { change 16777216 with (2 ^ 24). rewrite <- pow2_add by lia.
          apply pow2_le. lia. }
        split; [nia|]. split; [left; exact Hnd | lia]. }
  exists n, m1, m2.
  split; [reflexivity|]. split; [unfold D' in *; lia|].
  split; [exact Hm1|]. split; [exact Hm2|]. split; [exact Hnear|].
  destruct Hdig as (H1 & H2 & H3).
  split; [exact H1|]. split; [exact H2|]. split; [exact H3|].
  (* the second, exact, shift *)
  set (e1 := ex + n) in *.
  unfold round_result.
  destruct (Z.eqb_spec m2 0) as [Hz|Hnz].
  - rewrite Hz. simpl Zdigits2. rewrite shr_no_shift by (rewrite fexp32; lia).
    reflexivity.
  - destruct (Z.ltb_spec m2 16777216) as [Hlt|Hge].
    + assert (Hd2 : Zdigits2 m2 <= 24)
        by (apply Zdigits2_le; [change (2 ^ 24) with 16777216; lia | lia]).
      rewrite shr_no_shift by (rewrite fexp32; lia).
      simpl. destruct m2 as [|p|p]; [lia | | lia].
      reflexivity.
    + assert (Hm2eq : m2 = 16777216) by lia.
      rewrite Hm2eq.
      change (Zdigits2 16777216) with 25.
      replace (fexp 24 128 (25 + e1) - e1) with 1 by (rewrite fexp32; lia).
      change (Z.to_pos (16777216 / 2)) with 8388608%positive.
      reflexivity.
Qed.

(** The value and the validity of the result. *)
Lemma round_result_valid (s : bool) (m2 e1 : Z) :
  0 <= m2 <= 16777216 -> -149 <= e1 -> (e1 = -149 \/ 8388608 <= m2) ->
  valid32 (round_result s m2 e1).
Proof.
  intros Hm He Hn. unfold round_result, valid32.
  destruct (Z.eqb_spec m2 0); [reflexivity|].
  destruct (Z.ltb_spec m2 16777216).
  - destruct (Z.leb_spec e1 104); [|reflexivity].
    simpl. unfold bounded, canonical_mantissa.
    apply andb_true_iff. split; [|apply Z.leb_le; unfold F32.emax, F32.prec; lia].
    apply Z.eqb_eq. unfold F32.prec, F32.emax. rewrite fexp32.
    destruct (Zdigits2_bounds m2 ltac:(lia)) as (Hd & Hlo & Hhi).
    assert (Hd24 : Zdigits2 m2 <= 24)
      by (apply Zdigits2_le; [change (2 ^ 24) with 16777216; lia | lia]).
    destruct m2 as [|p|p]; try lia. simpl Z.to_pos. simpl in Hd24, Hd, Hlo, Hhi.
    destruct Hn as [Hn|Hn]; [lia|].
    assert (24 <= Z.pos (digits2_pos p)).
    { apply (Zdigits2_ge (Z.pos p) 24); [exact Hn | lia | lia]. }
    lia.
  - destruct (Z.leb_spec (e1 + 1) 104); [|reflexivity].
    assert (m2 = 16777216) as -> by lia.
    simpl. unfold bounded, canonical_mantissa.
    apply andb_true_iff. split; [|apply Z.leb_le; unfold F32.emax, F32.prec; lia].
    apply Z.eqb_eq. unfold F32.prec, F32.emax. rewrite fexp32. simpl. lia.
Qed.

Lemma round_result_value (m2 e1 : Z) :
  0 <= m2 <= 16777216 -> -149 <= e1 -> (e1 = -149 \/ 8388608 <= m2) ->
  m2 * 2 ^ (e1 + 149) <= 2 ^ 156 ->
  F2Z (round_result false m2 e1) = m2 * 2 ^ (e1 + 149) /\
  nonneg32 (round_result false m2 e1).
Proof.
  intros Hm He Hn Hbound. unfold round_result.
  destruct (Z.eqb_spec m2 0) as [->|Hnz]; [split; [reflexivity | exact I]|].
  assert (He1 : e1 <= -16).
  { destruct Hn as [->|Hn]; [lia|].
    destruct (Z_le_gt_dec e1 (-16)) as [|Hgt]; [assumption|].
    pose proof (pow2_le 134 (e1 + 149) ltac:(lia)).
    change (2 ^ 156) with (8388608 * 2 ^ 133) in Hbound.
    change (2 ^ 134) with (2 * 2 ^ 133) in H.
    pose proof (pow2_pos 133 ltac:(lia)). nia. }
  destruct (Z.ltb_spec m2 16777216).
  - replace (e1 <=? 104) with true by (symmetry; apply Z.leb_le; lia).
    simpl. rewrite Z2Pos.id by lia. split; [reflexivity | exact I].
  - replace (e1 + 1 <=? 104) with true by (symmetry; apply Z.leb_le; lia).
    assert (m2 = 16777216) as -> by lia.
    simpl. split; [|exact I].
    replace (e1 + 1 + 149) with (1 + (e1 + 149)) by lia.
    rewrite pow2_add by lia. change (2 ^ 1) with 2. lia.
Qed.

(** ** Consequences of nearest rounding *)

(** A representable bound above the exact value is above the result. *)
Lemma grid_upper (e1 m1 m2 N D mU eU : Z) :
  0 < D -> -149 <= e1 -> 0 <= m1 -> m1 <= m2 <= m1 + 1 ->
  (e1 = -149 \/ 8388608 <= m1) ->
  m1 * 2 ^ (e1 + 149) * D <= N ->
  2 * Z.abs (m2 * 2 ^ (e1 + 149) * D - N) <= 2 ^ (e1 + 149) * D ->
  0 <= mU < 16777216 -> -149 <= eU ->
  N <= mU * 2 ^ (eU + 149) * D ->
  m2 * 2 ^ (e1 + 149) <= mU * 2 ^ (eU + 149).
Proof.
  intros HD He1 Hm1 Hm2 Hnorm Hlo Hnear HmU HeU HN.
  set (u := 2 ^ (e1 + 149)) in *. set (uU := 2 ^ (eU + 149)) in *.
  assert (Hu : 0 < u) by (apply pow2_pos; lia).
  assert (HuU : 0 < uU) by (apply pow2_pos; lia).
  destruct (Z_le_gt_dec e1 eU) as [Hle|Hgt].
  - assert (HuUu : uU = 2 ^ (eU - e1) * u).
    { unfold uU, u. rewrite <- pow2_add by lia. f_equal. lia. }
    pose proof (pow2_pos (eU - e1) ltac:(lia)) as Hk'.
    set (k' := 2 ^ (eU - e1)) in *. rewrite HuUu in *.
    set (k := mU * k').
    assert (HuD : 0 < u * D) by nia.
    assert (HN' : N <= k * (u * D)) by (unfold k; nia).
    assert (Hlo' : m1 * (u * D) <= N) by nia.
    assert (Hmk : m1 <= k) by nia.
    assert (Hgoal : m2 <= k).
    { destruct (Z.eq_dec m1 k) as [Heq|Hne]; [|lia].
      assert (HNeq : N = k * (u * D)) by nia.
      destruct (Z.eq_dec m2 m1) as [|Hm2']; [lia|].
      assert (m2 = k + 1) by lia. subst m2.
      replace ((k + 1) * u * D - N) with (u * D) in Hnear by (rewrite HNeq; ring).
      rewrite Z.abs_eq in Hnear by lia. lia. }
    unfold k in Hgoal. nia.
  - exfalso.
    assert (Hnm : 8388608 <= m1) by lia.
    assert (HuuU : u = 2 ^ (e1 - eU) * uU).
    { unfold uU, u. rewrite <- pow2_add by lia. f_equal. lia. }
    pose proof (pow2_le 1 (e1 - eU) ltac:(lia)) as Hk'.
    change (2 ^ 1) with 2 in Hk'.
    set (k' := 2 ^ (e1 - eU)) in *.
    assert (HuD : 0 < uU * D) by nia.
    assert (H1 : N <= mU * (uU * D)) by nia.
    assert (H2 : m1 * k' * (uU * D) <= N) by (rewrite HuuU in Hlo; nia).
    assert (H3 : 16777216 <= m1 * k') by nia.
    nia.
Qed.

(** A representable bound below the exact value is below the truncation. *)
Lemma grid_lower (e1 m1 N D mA eA : Z) :
  0 < D -> -149 <= e1 -> 0 <= m1 ->
  (e1 = -149 \/ 8388608 <= m1) ->
  N < (m1 + 1) * 2 ^ (e1 + 149) * D ->
  0 <= mA < 16777216 -> -149 <= eA ->
  mA * 2 ^ (eA + 149) * D <= N ->
  mA * 2 ^ (eA + 149) <= m1 * 2 ^ (e1 + 149).
Proof.
  intros HD He1 Hm1 Hnorm Hhi HmA HeA HN.
  set (u := 2 ^ (e1 + 149)) in *. set (uA := 2 ^ (eA + 149)) in *.
  assert (Hu : 0 < u) by (apply pow2_pos; lia).
  assert (HuA : 0 < uA) by (apply pow2_pos; lia).
  destruct (Z_le_gt_dec e1 eA) as [Hle|Hgt].
  - assert (HuAu : uA = 2 ^ (eA - e1) * u).
    { unfold uA, u. rewrite <- pow2_add by lia. f_equal. lia. }
    pose proof (pow2_pos (eA - e1) ltac:(lia)) as Hk'.
    set (k' := 2 ^ (eA - e1)) in *. rewrite HuAu in *.
    set (k := mA * k').
    assert (HuD : 0 < u * D) by nia.
    assert (HN' : k * (u * D) <= N) by (unfold k; nia).
    assert (Hhi' : N < (m1 + 1) * (u * D)) by nia.
    assert (Hmk : k <= m1) by nia.
    unfold k in Hmk. nia.
  - assert (Hnm : 8388608 <= m1) by lia.
    assert (HuuA : u = 2 ^ (e1 - eA) * uA).
    { unfold uA, u. rewrite <- pow2_add by lia. f_equal. lia. }
    pose proof (pow2_le 1 (e1 - eA) ltac:(lia)) as Hk'.
    change (2 ^ 1) with 2 in Hk'.
    set (k' := 2 ^ (e1 - eA)) in *. rewrite HuuA.
    assert (H3 : 16777216 <= m1 * k') by nia.
    nia.
Qed.

(** A canonical finite number. *)
Lemma valid_finite (s : bool) (m : positive) (e : Z) :
  valid32 (S754_finite s m e) ->
  -149 <= e <= 104 /\ Z.pos m < 16777216 /\ (e = -149 \/ 8388608 <= Z.pos m).
Proof.
  unfold valid32, valid_binary, bounded, canonical_mantissa, F32.prec, F32.emax.
  rewrite andb_true_iff, Z.eqb_eq, Z.leb_le, fexp32.
  intros [Hc He].
  pose proof (digits2_pos_bounds m) as [Hlo Hhi].
  set (d := Z.pos (digits2_pos m)) in *.
  assert (Hd : 0 < d) by (unfold d; lia).
  split; [lia|]. split.
  - pose proof (pow2_le d 24 ltac:(lia)) as H. change (2 ^ 24) with 16777216 in H.
    lia.
  - destruct (Z.eq_dec e (-149)) as [|Hne]; [left; assumption | right].
    assert (d = 24) as Hd24 by lia. rewrite Hd24 in Hlo. exact Hlo.
Qed.

(** What a result of rounding below 128 is worth. *)
Lemma rounded32_result (N D : Z) (r : F32.float) :
  0 < D -> 0 <= N <= 2 ^ 156 * D ->
  rounded32 false N D r ->
  valid32 r /\ nonneg32 r /\ 0 <= F2Z r /\
  2 ^ 25 * Z.abs (F2Z r * D - N) <= (2 * F2Z r + 2 ^ 24) * D /\
  (D = 1 -> 2 ^ 24 * Z.abs (F2Z r - N) <= F2Z r) /\
  (forall mA eA, 0 <= mA < 16777216 -> -149 <= eA ->
                 mA * 2 ^ (eA + 149) * D <= N -> mA * 2 ^ (eA + 149) <= F2Z r) /\
  (forall mU eU, 0 <= mU < 16777216 -> -149 <= eU ->
                 N <= mU * 2 ^ (eU + 149) * D -> F2Z r <= mU * 2 ^ (eU + 149)).
Proof.
  intros HD HN (e1 & m1 & m2 & He1 & Hm1 & Hm2 & Hnorm & Hfl & Hnear & ->).
  set (u := 2 ^ (e1 + 149)) in *.
  assert (Hu : 0 < u) by (apply pow2_pos; lia).
  assert (Hup : forall mU eU, 0 <= mU < 16777216 -> -149 <= eU ->
                 N <= mU * 2 ^ (eU + 149) * D -> m2 * u <= mU * 2 ^ (eU + 149)).
  { intros mU eU HmU HeU HNU.
    apply (grid_upper e1 m1 m2 N D mU eU); try assumption; lia. }
  assert (Hbound : m2 * u <= 2 ^ 156).
  { specialize (Hup 8388608 (-16) ltac:(lia) ltac:(lia)).
    change (8388608 * 2 ^ (-16 + 149)) with (2 ^ 156) in Hup.
    apply Hup. lia. }
  assert (Hnorm2 : e1 = -149 \/ 8388608 <= m2) by lia.
  destruct (round_result_value m2 e1 ltac:(lia) He1 Hnorm2 Hbound) as [Hval Hnn].
  rewrite Hval. fold u.
  split; [apply round_result_valid; [lia | exact He1 | exact Hnorm2]|].
  split; [exact Hnn|]. split; [nia|].
  assert (HuD : 0 < u * D) by nia.
  split; [|split; [|split]].
  - change (2 ^ 25) with 33554432. change (2 ^ 24) with 16777216.
    destruct Hnorm as [He|Hn].
    + assert (u = 1) as Hu1 by (unfold u; rewrite He; reflexivity).
      rewrite Hu1 in *. nia.
    + assert (8388608 * u <= m2 * u) by nia.
      assert (2 * Z.abs (m2 * u * D - N) <= u * D) by lia.
      nia.
  - intros ->. change (2 ^ 24) with 16777216.
    destruct Hnorm as [He|Hn].
    + assert (u = 1) as Hu1 by (unfold u; rewrite He; reflexivity).
      rewrite Hu1 in *. lia.
    + assert (8388608 * u <= m2 * u) by nia. lia.
  - intros mA eA HmA HeA HNA.
    pose proof (grid_lower e1 m1 N D mA eA HD He1 ltac:(lia) Hnorm
                           ltac:(lia) HmA HeA HNA) as Hlow.
    fold u in Hlow. nia.
  - exact Hup.
Qed.

(** ** Addition *)

Lemma Zdigits2_unique (m d : Z) :
  0 < d -> 2 ^ (d - 1) <= m < 2 ^ d -> Zdigits2 m = d.
Proof.
  intros Hd Hm.
  assert (Hpos : 0 < m) by (pose proof (pow2_pos (d - 1) ltac:(lia)); lia).
  pose proof (Zdigits2_le m d ltac:(lia) ltac:(lia)).
  pose proof (Zdigits2_ge m d ltac:(lia) Hpos Hd). lia.
Qed.

Lemma iter_xO (m d : positive) :
  Z.pos (Pos.iter xO m d) = Z.pos m * 2 ^ Z.pos d.
Proof.
  induction d as [|d IH] using Pos.peano_ind.
  - simpl. lia.
  - rewrite Pos.iter_succ, Pos2Z.inj_succ, Z.pow_succ_r by lia.
    change (Z.pos (Pos.iter xO m d)~0) with (2 * Z.pos (Pos.iter xO m d)).
    rewrite IH. ring.
Qed.

Lemma shl_align_le (mx : positive) (ex ez : Z) :
  ez <= ex ->
  exists m', shl_align mx ex ez = (m', ez) /\ Z.pos m' = Z.pos mx * 2 ^ (ex - ez).
Proof.
  intros Hle. unfold shl_align.
  destruct (ez - ex) as [|p|p] eqn:Hd; [|lia|].
  - exists mx. assert (ex = ez) as -> by lia.
    split; [reflexivity|]. rewrite Z.sub_diag. simpl. lia.
  - exists (Pos.iter xO mx p). split; [reflexivity|].
    rewrite iter_xO. f_equal. f_equal. lia.
Qed.

Lemma shl_align_ge (mx : positive) (ex ez : Z) :
  ex <= ez -> shl_align mx ex ez = (mx, ex).
Proof.
  intros Hle. unfold shl_align.
  destruct (ez - ex) as [|p|p] eqn:Hd; [reflexivity | reflexivity | lia].
Qed.

Lemma rec_ok_exact (N : Z) : 0 <= N -> rec_ok N 1 (shr_record_of_loc N loc_Exact).
Proof.
  intros HN. unfold rec_ok. simpl.
  replace (N - N * 1) with 0 by ring.
  repeat split; try lia; reflexivity.
Qed.

(** [binary_round] gives the number nearest to [m * 2^e]. *)
Lemma binary_round_spec (s : bool) (pM : positive) (ez : Z) :
  -149 <= ez ->
  rounded32 s (Z.pos pM * 2 ^ (ez + 149)) 1 (binary_round 24 128 s pM ez).
Proof.
  intros Hez. unfold binary_round.
  pose proof (digits2_pos_bounds pM) as [Hdlo Hdhi].
  set (d := Z.pos (digits2_pos pM)) in *.
  assert (Hd : 0 < d) by (unfold d; lia).
  set (f := fexp 24 128 (d + ez)).
  assert (Hf : f = Z.max (d + ez - 24) (-149)) by (unfold f; apply fexp32).
  assert (Hcore : exists (N ex : Z),
             0 <= N /\ -149 <= ex /\
             N * 2 ^ (ex + 149) = Z.pos pM * 2 ^ (ez + 149) /\
             0 <= fexp 24 128 (Zdigits2 N + ex) - ex /\
             (let '(mz, ez') := shl_align pM ez f in
              binary_round_aux 24 128 s (Z.pos mz) ez' loc_Exact)
             = binary_round_aux 24 128 s N ex loc_Exact).
  { destruct (Z_le_gt_dec f ez) as [Hle|Hgt].
    - destruct (shl_align_le pM ez f Hle) as (m' & -> & Hm').
      exists (Z.pos m'), f.
      split; [lia|]. split; [lia|]. split; [|split; [|reflexivity]].
      + rewrite Hm'. rewrite <- Z.mul_assoc, <- pow2_add by lia.
        f_equal. f_equal. lia.
      + assert (Hdig : Zdigits2 (Z.pos m') = d + (ez - f)).
        { apply Zdigits2_unique; [lia|]. rewrite Hm'.
          replace (d + (ez - f) - 1) with ((d - 1) + (ez - f)) by lia.
          rewrite !pow2_add by lia.
          pose proof (pow2_pos (ez - f) ltac:(lia)). nia. }
        rewrite Hdig. replace (d + (ez - f) + f) with (d + ez) by lia.
        fold f. lia.
    - rewrite (shl_align_ge pM ez f ltac:(lia)).
      exists (Z.pos pM), ez.
      split; [lia|]. split; [lia|]. split; [reflexivity|].
      split; [|reflexivity]. simpl Zdigits2. fold d. fold f. lia. }
  destruct Hcore as (N & ex & HN & Hex & Hval & Hn & ->).
  destruct (binary_round_aux_spec s N ex loc_Exact N 1 ltac:(lia)
              (rec_ok_exact N HN) Hn)
    as (n & m1 & m2 & Hndef & Hfl & Hm1 & Hm2 & Hnear & Hlt & Hnorm & He1 & ->).
  rewrite <- Hndef in Hn.
  exists (ex + n), m1, m2.
  rewrite <- Hval.
  replace (ex + n + 149) with (n + (ex + 149)) by lia.
  rewrite pow2_add by lia.
  pose proof (pow2_pos n Hn) as HPn.
  pose proof (pow2_pos (ex + 149) ltac:(lia)) as HPe.
  set (P := 2 ^ n) in *. set (c := 2 ^ (ex + 149)) in *.
  rewrite !Z.mul_1_l in Hfl, Hnear.
  split; [lia|]. split; [lia|]. split; [exact Hm2|]. split; [exact Hnorm|].
  split; [nia|]. split; [|reflexivity].
  replace (m2 * (P * c) * 1 - N * c) with ((m2 * P - N) * c) by ring.
  rewrite Z.abs_mul, (Z.abs_eq c) by lia. nia.
Qed.

Lemma add_finite_rounded (ma mb : positive) (ea eb : Z) :
  -149 <= ea -> -149 <= eb ->
  rounded32 false (Z.pos ma * 2 ^ (ea + 149) + Z.pos mb * 2 ^ (eb + 149)) 1
            (F32.add (S754_finite false ma ea) (S754_finite false mb eb)).
Proof.
  intros Hea Heb. unfold F32.add, SFadd, F32.prec, F32.emax. cbv zeta.
  set (ez := Z.min ea eb).
  destruct (shl_align_le ma ea ez ltac:(lia)) as (ma' & -> & Hma').
  destruct (shl_align_le mb eb ez ltac:(lia)) as (mb' & -> & Hmb').
  simpl fst. simpl cond_Zopp.
  change (Z.pos ma' + Z.pos mb') with (Z.pos (ma' + mb')).
  simpl binary_normalize.
  replace (Z.pos ma * 2 ^ (ea + 149) + Z.pos mb * 2 ^ (eb + 149))
    with (Z.pos (ma' + mb') * 2 ^ (ez + 149)).
  - apply binary_round_spec. lia.
  - rewrite Pos2Z.inj_add, Hma', Hmb', Z.mul_add_distr_r.
    rewrite <- !Z.mul_assoc, <- !pow2_add by lia.
    f_equal; f_equal; f_equal; lia.
Qed.

(** The sum of two non-negative numbers below 128: the result is at
    least each operand and differs from the exact sum by at most
    2^-24 of itself. *)
Lemma add_nonneg_spec (a b : F32.float) :
  valid32 a -> valid32 b -> nonneg32 a -> nonneg32 b ->
  F2Z a + F2Z b <= 2 ^ 156 ->
  valid32 (F32.add a b) /\ nonneg32 (F32.add a b) /\
  F2Z a <= F2Z (F32.add a b) /\ F2Z b <= F2Z (F32.add a b) /\
  2 ^ 24 * Z.abs (F2Z (F32.add a b) - (F2Z a + F2Z b)) <= F2Z (F32.add a b).
Proof.
  intros Hva Hvb Hna Hnb Hsum.
  destruct a as [sa| | |sa ma ea]; try contradiction;
    destruct b as [sb| | |sb mb eb]; try contradiction.
  - destruct sa, sb; simpl; repeat split; lia.
  - destruct sb; [contradiction|]. simpl F32.add.
    assert (0 <= F2Z (S754_finite false mb eb)).
    { simpl. apply Z.mul_nonneg_nonneg; [lia|].
      destruct (valid_finite _ _ _ Hvb) as (He & _).
      pose proof (pow2_pos (eb + 149) ltac:(lia)). lia. }
    change (F2Z (S754_zero sa)) with 0.
    repeat split; try assumption; lia.
  - destruct sa; [contradiction|]. simpl F32.add.
    assert (0 <= F2Z (S754_finite false ma ea)).
    { simpl. apply Z.mul_nonneg_nonneg; [lia|].
      destruct (valid_finite _ _ _ Hva) as (He & _).
      pose proof (pow2_pos (ea + 149) ltac:(lia)). lia. }
    change (F2Z (S754_zero sb)) with 0.
    repeat split; try assumption; lia.
  - destruct sa; [contradiction|]. destruct sb; [contradiction|].
    destruct (valid_finite _ _ _ Hva) as (Hea & Hma & _).
    destruct (valid_finite _ _ _ Hvb) as (Heb & Hmb & _).
    change (F2Z (S754_finite false ma ea)) with (Z.pos ma * 2 ^ (ea + 149)) in *.
    change (F2Z (S754_finite false mb eb)) with (Z.pos mb * 2 ^ (eb + 149)) in *.
    pose proof (pow2_pos (ea + 149) ltac:(lia)) as Hpa.
    pose proof (pow2_pos (eb + 149) ltac:(lia)) as Hpb.
    pose proof (add_finite_rounded ma mb ea eb ltac:(lia) ltac:(lia)) as Hr.
    assert (HN : 0 <= Z.pos ma * 2 ^ (ea + 149) + Z.pos mb * 2 ^ (eb + 149)
                 <= 2 ^ 156 * 1) by nia.
    destruct (rounded32_result _ 1 _ ltac:(lia) HN Hr)
      as (Hv & Hn & H0 & _ & Herr & Hlow & _).
    split; [exact Hv|]. split; [exact Hn|].
    split; [|split].
    + apply (Hlow (Z.pos ma) ea); [lia | lia | nia].
    + apply (Hlow (Z.pos mb) eb); [lia | lia | nia].
    + apply Herr. reflexivity.
Qed.

(** ** Division *)

Lemma new_location_ok (q m2 r : Z) :
  0 <= q -> 0 <= r < m2 ->
  rec_ok (q * m2 + r) m2 (shr_record_of_loc q (new_location m2 r)).
Proof.
  intros Hq Hr. unfold rec_ok. rewrite shr_record_of_loc_m.
  replace (q * m2 + r - q * m2) with r by ring.
  split; [exact Hq|]. split; [exact Hr|].
  assert (Hodd : Z.even m2 = false -> 2 * r <> m2).
  { intros He Heq. rewrite <- Heq, Z.even_mul in He. discriminate He. }
  unfold new_location, new_location_even, new_location_odd.
  destruct (Z.even m2); destruct (Z.eqb_spec r 0) as [Hz|Hnz];
    try (subst r; simpl; split; bool_cases).
  - destruct (Z.compare_spec (2 * r) m2); simpl; split; bool_cases.
  - specialize (Hodd eq_refl).
    destruct (Z.compare_spec (2 * r + 1) m2); simpl; split; bool_cases.
Qed.

(** The quotient of two positive finite numbers, rounded. *)
Lemma div_finite_rounded (s : bool) (sx sy : bool) (mE mS : positive) (eE eS : Z) :
  -149 <= eE -> -149 <= eS -> s = xorb sx sy ->
  rounded32 s (Z.pos mE * 2 ^ (eE + 149) * 2 ^ 149) (Z.pos mS * 2 ^ (eS + 149))
            (F32.div (S754_finite sx mE eE) (S754_finite sy mS eS)).
Proof.
  intros HeE HeS ->. unfold F32.div, SFdiv, SFdiv_core_binary, F32.prec, F32.emax.
  cbv zeta.
  pose proof (digits2_pos_bounds mE) as [HElo HEhi].
  pose proof (digits2_pos_bounds mS) as [HSlo HShi].
  change (Zdigits2 (Z.pos mE)) with (Z.pos (digits2_pos mE)).
  change (Zdigits2 (Z.pos mS)) with (Z.pos (digits2_pos mS)).
  set (d1 := Z.pos (digits2_pos mE)) in *.
  set (d2 := Z.pos (digits2_pos mS)) in *.
  assert (Hd1 : 0 < d1) by (unfold d1; lia).
  assert (Hd2 : 0 < d2) by (unfold d2; lia).
  set (X := d1 + eE - (d2 + eS)).
  assert (HfX : fexp 24 128 X = Z.max (X - 24) (-149)) by apply fexp32.
  set (e' := Z.min (fexp 24 128 X) (eE - eS)) in *.
  set (sh := eE - eS - e').
  assert (Hsh : 0 <= sh) by (unfold sh, e'; lia).
  set (m' := match sh with
             | 0 => Z.pos mE
             | Z.pos _ => Z.shiftl (Z.pos mE) sh
             | Z.neg _ => 0
             end).
  assert (Hm' : m' = Z.pos mE * 2 ^ sh).
  { unfold m'. destruct sh as [|p|p] eqn:Hp; [simpl; lia | | lia].
    apply Z.shiftl_mul_pow2. lia. }
  clearbody m'.
  pose proof (pow2_pos sh Hsh) as HPsh.
  pose proof (Z_div_mod m' (Z.pos mS) ltac:(lia)) as Hdm.
  destruct (Z.div_eucl m' (Z.pos mS)) as [q r]. destruct Hdm as [Hdm Hr].
  assert (Hq : 0 <= q) by nia.
  assert (HN : m' = q * Z.pos mS + r) by lia.
  pose proof (new_location_ok q (Z.pos mS) r Hq Hr) as Hrec.
  rewrite <- HN in Hrec.
  (* the quotient has enough digits: no left shift is needed *)
  assert (Hn : 0 <= fexp 24 128 (Zdigits2 q + e') - e').
  { rewrite fexp32.
    destruct (Z.eq_dec q 0) as [Hq0|Hq0].
    - subst q. simpl Zdigits2.
      assert (Hlt : m' < Z.pos mS) by lia.
      assert (d1 + sh <= d2).
      { destruct (Z_le_gt_dec (d1 + sh) d2) as [|Hgt]; [assumption|exfalso].
        pose proof (pow2_le d2 (d1 - 1 + sh) ltac:(lia)) as Hle.
        rewrite pow2_add in Hle by lia. nia. }
      unfold sh, e' in *. lia.
    - destruct (Zdigits2_bounds q ltac:(lia)) as (Hdq & Hqlo & Hqhi).
      set (dq := Zdigits2 q) in *.
      assert (d1 + sh - d2 <= dq).
      { destruct (Z_le_gt_dec (d1 + sh - d2) dq) as [|Hgt]; [assumption|exfalso].
        pose proof (pow2_le (dq + d2) (d1 - 1 + sh) ltac:(lia)) as Hle.
        rewrite !pow2_add in Hle by lia.
        assert (m' < (q + 1) * Z.pos mS) by nia.
        assert ((q + 1) * Z.pos mS <= 2 ^ dq * 2 ^ d2).
        { apply Z.mul_le_mono_nonneg; lia. }
        nia. }
      unfold sh, e', X in *. lia. }
  destruct (binary_round_aux_spec (xorb sx sy) q e' (new_location (Z.pos mS) r)
              m' (Z.pos mS) ltac:(lia) Hrec Hn)
    as (n & m1 & m2 & Hndef & Hfl & Hm1 & Hm2 & Hnear & Hlt & Hnorm & He1 & ->).
  rewrite <- Hndef in Hn.
  exists (e' + n), m1, m2.
  assert (Hc : 0 <= e' + eS + 298) by (unfold e'; lia).
  pose proof (pow2_pos n Hn) as HPn.
  pose proof (pow2_pos (e' + eS + 298) Hc) as HPc.
  assert (Hu : 2 ^ (e' + n + 149) * 2 ^ (eS + 149) = 2 ^ n * 2 ^ (e' + eS + 298)).
  { rewrite <- !pow2_add by lia. f_equal. lia. }
  assert (HNt : Z.pos mE * 2 ^ (eE + 149) * 2 ^ 149 = m' * 2 ^ (e' + eS + 298)).
  { rewrite Hm'. rewrite <- !Z.mul_assoc, <- !pow2_add by lia.
    f_equal. f_equal. unfold sh. lia. }
  rewrite HNt.
  set (P := 2 ^ n) in *. set (c := 2 ^ (e' + eS + 298)) in *.
  set (u := 2 ^ (e' + n + 149)) in *. set (uS := 2 ^ (eS + 149)) in *.
  assert (HuS : forall k, k * u * (Z.pos mS * uS) = k * (Z.pos mS * P) * c).
  { intros k. replace (k * u * (Z.pos mS * uS)) with (k * Z.pos mS * (u * uS)) by ring.
    rewrite Hu. ring. }
  split; [lia|]. split; [lia|]. split; [exact Hm2|]. split; [exact Hnorm|].
  split; [rewrite !HuS; nia|]. split; [|reflexivity].
  rewrite HuS.
  replace (u * (Z.pos mS * uS)) with (1 * u * (Z.pos mS * uS)) by ring.
  rewrite HuS.
  replace (m2 * (Z.pos mS * P) * c - m' * c)
    with ((m2 * (Z.pos mS * P) - m') * c) by ring.
  rewrite Z.abs_mul, (Z.abs_eq c) by lia. nia.
Qed.

(** A quotient of a non-negative number by a positive one that is not
    smaller: the result is at most 1, and differs from the exact
    quotient by at most 2^-24 of itself plus half the smallest unit. *)
Lemma div_nonneg_spec (x y : F32.float) :
  valid32 x -> valid32 y -> nonneg32 x -> nonneg32 y ->
  0 < F2Z y -> F2Z x <= F2Z y ->
  valid32 (F32.div x y) /\ nonneg32 (F32.div x y) /\
  0 <= F2Z (F32.div x y) <= one_val /\
  2 ^ 25 * Z.abs (F2Z (F32.div x y) * F2Z y - F2Z x * 2 ^ 149)
  <= (2 * F2Z (F32.div x y) + 2 ^ 24) * F2Z y.
Proof.
  intros Hvx Hvy Hnx Hny Hy Hxy.
  destruct y as [sy| | |sy mS eS]; try contradiction;
    [simpl in Hy; lia|].
  destruct sy; [contradiction|].
  destruct (valid_finite _ _ _ Hvy) as (HeS & HmS & _).
  change (F2Z (S754_finite false mS eS)) with (Z.pos mS * 2 ^ (eS + 149)) in *.
  pose proof (pow2_pos (eS + 149) ltac:(lia)) as HpS.
  destruct x as [sx| | |sx mE eE]; try contradiction.
  - simpl F32.div. change (F2Z (S754_zero (xorb sx false))) with 0.
    change (F2Z (S754_zero sx)) with 0.
    split; [reflexivity|]. split; [exact I|].
    split; [unfold one_val; pose proof (pow2_pos 149 ltac:(lia)); lia|].
    simpl Z.abs. change (2 ^ 24) with 16777216. nia.
  - destruct sx; [contradiction|].
    destruct (valid_finite _ _ _ Hvx) as (HeE & HmE & _).
    change (F2Z (S754_finite false mE eE)) with (Z.pos mE * 2 ^ (eE + 149)) in *.
    pose proof (pow2_pos (eE + 149) ltac:(lia)) as HpE.
    pose proof (div_finite_rounded false false false mE mS eE eS
                                   ltac:(lia) ltac:(lia) eq_refl) as Hr.
    pose proof (pow2_pos 149 ltac:(lia)) as Hp149.
    assert (HN : 0 <= Z.pos mE * 2 ^ (eE + 149) * 2 ^ 149
                 <= 2 ^ 156 * (Z.pos mS * 2 ^ (eS + 149))).
    { split; [nia|]. change (2 ^ 156) with (128 * 2 ^ 149). nia. }
    destruct (rounded32_result _ _ _ Hy HN Hr)
      as (Hv & Hn & H0 & Herr & _ & _ & Hup).
    split; [exact Hv|]. split; [exact Hn|]. split; [|exact Herr].
    split; [exact H0|].
    specialize (Hup 8388608 (-23) ltac:(lia) ltac:(lia)).
    change (8388608 * 2 ^ (-23 + 149)) with (2 ^ 149) in Hup.
    unfold one_val. apply Hup. nia.
Qed.

(** ** Values of the decoded logits and of their differences *)

Lemma decode_values_all :
  forall_from (-32768) (Z.to_nat 65536) decode_value_ok = true.
Proof. vm_compute. reflexivity. Qed.

Lemma decode_value (v : Z) :
  is_int16 v ->
  valid32 (CNN_FixedToFloat v) /\ F2Z (CNN_FixedToFloat v) = v * 2 ^ 141 /\
  (exists s, CNN_FixedToFloat v = S754_zero s) \/
  valid32 (CNN_FixedToFloat v) /\ F2Z (CNN_FixedToFloat v) = v * 2 ^ 141 /\
  (exists s m e, CNN_FixedToFloat v = S754_finite s m e).
Proof.
  intros Hv. unfold is_int16 in Hv.
  pose proof (forall_from_sound _ _ _ decode_values_all v ltac:(lia)) as H.
  unfold decode_value_ok in H. unfold valid32.
  destruct (CNN_FixedToFloat v) as [s| | |s m e]; try discriminate H;
    apply andb_true_iff in H; destruct H as [Hval Heq]; apply Z.eqb_eq in Heq.
  - left. split; [exact Hval|]. split; [exact Heq|]. exists s. reflexivity.
  - right. split; [exact Hval|]. split; [exact Heq|]. exists s, m, e. reflexivity.
Qed.

Lemma round_result_nonpos (m2 e1 : Z) :
  F32.le (round_result true m2 e1) (S754_zero false) = true.
Proof.
  unfold round_result.
  destruct (m2 =? 0); [reflexivity|].
  destruct (m2 <? 16777216).
  - destruct (e1 <=? 104); reflexivity.
  - destruct (e1 + 1 <=? 104); reflexivity.
Qed.

(** A difference of a number and one that is not smaller compares at
    most zero. *)
Lemma sub_nonpositive (x y : F32.float) :
  valid32 x -> valid32 y ->
  (exists s, x = S754_zero s) \/ (exists s m e, x = S754_finite s m e) ->
  (exists s, y = S754_zero s) \/ (exists s m e, y = S754_finite s m e) ->
  F2Z x <= F2Z y ->
  F32.le (F32.sub x y) (S754_zero false) = true.
Proof.
  intros Hvx Hvy Hx Hy Hxy.
  destruct Hx as [(sx & ->) | (sx & mx & ex & ->)];
    destruct Hy as [(sy & ->) | (sy & my & ey & ->)].
  - destruct sx, sy; reflexivity.
  - destruct (valid_finite _ _ _ Hvy) as (Hey & _).
    pose proof (pow2_pos (ey + 149) ltac:(lia)).
    simpl in Hxy. destruct sy; simpl in Hxy; [nia | reflexivity].
  - destruct (valid_finite _ _ _ Hvx) as (Hex & _).
    pose proof (pow2_pos (ex + 149) ltac:(lia)).
    simpl in Hxy. destruct sx; simpl in Hxy; [reflexivity | nia].
  - destruct (valid_finite _ _ _ Hvx) as (Hex & _).
    destruct (valid_finite _ _ _ Hvy) as (Hey & _).
    unfold F32.sub, SFsub, F32.prec, F32.emax. cbv zeta.
    set (ez := Z.min ex ey).
    destruct (shl_align_le mx ex ez ltac:(lia)) as (mx' & -> & Hmx').
    destruct (shl_align_le my ey ez ltac:(lia)) as (my' & -> & Hmy').
    simpl fst.
    set (K := cond_Zopp sx (Z.pos mx') - cond_Zopp sy (Z.pos my')).
    assert (HK : K <= 0).
    { assert (Hval : F2Z (S754_finite sx mx ex) - F2Z (S754_finite sy my ey)
                     = K * 2 ^ (ez + 149)).
      { unfold K. simpl F2Z.
        assert (Ha : Z.pos mx * 2 ^ (ex + 149) = Z.pos mx' * 2 ^ (ez + 149)).
        { rewrite Hmx', <- Z.mul_assoc, <- pow2_add by lia. f_equal. f_equal. lia. }
        assert (Hb : Z.pos my * 2 ^ (ey + 149) = Z.pos my' * 2 ^ (ez + 149)).
        { rewrite Hmy', <- Z.mul_assoc, <- pow2_add by lia. f_equal. f_equal. lia. }
        rewrite Ha, Hb. destruct sx, sy; simpl cond_Zopp; ring. }
      pose proof (pow2_pos (ez + 149) ltac:(lia)). nia. }
    destruct K as [|p|p]; [reflexivity | lia |].
    simpl binary_normalize.
    destruct (binary_round_spec true p ez ltac:(lia))
      as (e1 & m1 & m2 & _ & _ & _ & _ & _ & _ & ->).
    apply round_result_nonpos.
Qed.

Lemma max_logit_ge (input : Z -> Z) :
  forall (n i : nat), (i <= n)%nat -> input (Z.of_nat i) <= max_logit input n.
Proof.
  induction n as [|n IH]; intros i Hi.
  - assert (i = 0%nat) as -> by lia. apply Z.le_refl.
  - change (max_logit input (S n))
      with (Z.max (max_logit input n) (input (Z.of_nat (S n)))).
    destruct (Nat.eq_dec i (S n)) as [->|Hne]; [apply Z.le_max_r|].
    pose proof (IH i ltac:(lia)). lia.
Qed.

(** ** Probabilities and their values *)

Lemma of_Z_0 : F32.of_Z 0 = S754_zero false.
Proof. reflexivity. Qed.

Lemma of_Z_1 : F32.of_Z 1 = S754_finite false 8388608 (-23).
Proof. vm_compute. reflexivity. Qed.

Lemma probability_unit (x : F32.float) :
  valid32 x -> is_probability x -> unit32 x.
Proof.
  intros Hv [H0 H1]. rewrite of_Z_0 in H0. rewrite of_Z_1 in H1.
  unfold unit32. split; [exact Hv|].
  pose proof (pow2_pos 149 ltac:(lia)) as Hone.
  destruct x as [s|s| |s m e].
  - split; [exact I|]. unfold one_val. simpl. lia.
  - destruct s; discriminate.
  - discriminate.
  - destruct s; [discriminate|]. split; [exact I|].
    destruct (valid_finite _ _ _ Hv) as (He & Hm & _).
    pose proof (pow2_pos (e + 149) ltac:(lia)) as Hp.
    change (F2Z (S754_finite false m e)) with (Z.pos m * 2 ^ (e + 149)).
    split; [nia|]. unfold one_val.
    unfold F32.le, SFleb, SFcompare in H1.
    destruct (Z.compare_spec e (-23)) as [->|Hlt|Hgt]; [| |discriminate].
    + rewrite Pos.compare_cont_spec in H1.
      change (-23 + 149) with 126.
      change (2 ^ 149) with (8388608 * 2 ^ 126).
      pose proof (pow2_pos 126 ltac:(lia)).
      set (c := 2 ^ 126) in *. clearbody c.
      destruct (Pos.compare_spec m 8388608) as [Heq|Hml|Hmg].
      * rewrite Heq. apply Z.le_refl.
      * clear Hv H0 H1 Hone.
        assert (Hmz : Z.pos m <= 8388608)
          by (apply Pos2Z.pos_le_pos, Pos.lt_le_incl; exact Hml).
        apply Z.mul_le_mono_nonneg_r; [apply Z.lt_le_incl; assumption | exact Hmz].
      * discriminate H1.
    + pose proof (pow2_le (e + 149) 125 ltac:(lia)) as Hle.
      change (2 ^ 149) with (16777216 * 2 ^ 125).
      pose proof (pow2_pos 125 ltac:(lia)). nia.
Qed.

Lemma unit_probability (x : F32.float) : unit32 x -> is_probability x.
Proof.
  intros (Hv & Hn & H0 & H1). unfold is_probability.
  rewrite of_Z_0, of_Z_1.
  destruct x as [s|s| |s m e]; try contradiction.
  - destruct s; split; reflexivity.
  - destruct s; [contradiction|]. split; [reflexivity|].
    destruct (valid_finite _ _ _ Hv) as (He & Hm & Hnorm).
    change (F2Z (S754_finite false m e)) with (Z.pos m * 2 ^ (e + 149)) in H1.
    unfold one_val in H1.
    unfold F32.le, SFleb, SFcompare.
    destruct (Z.compare_spec e (-23)) as [->|Hlt|Hgt]; [|reflexivity|exfalso].
    + rewrite Pos.compare_cont_spec.
      change (-23 + 149) with 126 in H1.
      change (2 ^ 149) with (8388608 * 2 ^ 126) in H1.
      pose proof (pow2_pos 126 ltac:(lia)).
      set (c := 2 ^ 126) in *. clearbody c.
      destruct (Pos.compare_spec m 8388608) as [->|Hml|Hmg];
        [reflexivity | reflexivity | nia].
    + destruct Hnorm as [->|Hnorm]; [lia|].
      pose proof (pow2_le 127 (e + 149) ltac:(lia)) as Hle.
      change (2 ^ 149) with (4194304 * 2 ^ 127) in H1.
      pose proof (pow2_pos 127 ltac:(lia)). nia.
Qed.

(** ** The sum and the normalisation of the softmax *)

Lemma one_val_pos : 1152921504606846976 <= one_val.
Proof. unfold one_val. vm_compute. discriminate. Qed.

Lemma sum_val_cons (x : F32.float) (l : list F32.float) :
  sum_val (x :: l) = F2Z x + sum_val l.
Proof. reflexivity. Qed.

(** The running float sum of numbers in [0, 1], at most 100 of them: it
    never decreases, stays below 128, and is off the exact sum by at most
    2^-24 of itself per addition. *)
Lemma fold_add_spec (exps : list F32.float) :
  Forall unit32 exps ->
  forall (acc : F32.float) (k b Ta : Z),
    valid32 acc -> nonneg32 acc -> 0 <= F2Z acc -> 0 <= k ->
    F2Z acc <= b ->
    b + Z.of_nat (length exps) * (one_val + 2 ^ 132) <= 100 * (one_val + 2 ^ 132) ->
    16777216 * Z.abs (F2Z acc - Ta) <= k * F2Z acc ->
    let S := fold_left F32.add exps acc in
    valid32 S /\ nonneg32 S /\ F2Z acc <= F2Z S /\
    Forall (fun e => F2Z e <= F2Z S) exps /\
    16777216 * Z.abs (F2Z S - (Ta + sum_val exps))
    <= (k + Z.of_nat (length exps)) * F2Z S.
Proof.
  assert (HW : one_val = 131072 * 2 ^ 132) by reflexivity.
  assert (H156 : 2 ^ 156 = 128 * one_val) by reflexivity.
  pose proof (pow2_pos 132 ltac:(lia)) as Hc.
  set (c := 2 ^ 132) in *. clearbody c.
  pose proof one_val_pos as HWpos.
  induction 1 as [|e exps He Hexps IH]; intros acc k b Ta Hv Hn H0 Hk Hb Hlen Herr.
  - simpl. rewrite Z.add_0_r in *. repeat split; try assumption; try lia.
    constructor.
  - simpl fold_left. rewrite sum_val_cons.
    destruct He as (Hve & Hne & He0 & He1).
    simpl length in Hlen. rewrite Nat2Z.inj_succ in Hlen.
    assert (Hl0 : 0 <= Z.of_nat (length exps) * (one_val + c)) by nia.
    assert (Hsum : F2Z acc + F2Z e <= 2 ^ 156) by (rewrite H156; lia).
    destruct (add_nonneg_spec acc e Hv Hve Hn Hne Hsum)
      as (Hv' & Hn' & Hge & Hge' & Hadd).
    change (2 ^ 24) with 16777216 in Hadd.
    set (acc' := F32.add acc e) in *.
    assert (Hb' : F2Z acc' <= b + one_val + c) by lia.
    assert (Hkk : k * F2Z acc <= k * F2Z acc')
      by (apply Z.mul_le_mono_nonneg_l; lia).
    destruct (IH acc' (k + 1) (b + one_val + c) (Ta + F2Z e) Hv' Hn' ltac:(lia)
                 ltac:(lia) Hb' ltac:(lia))
      as (HvS & HnS & HgeS & Hall & HerrS).
    { lia. }
    split; [exact HvS|]. split; [exact HnS|]. split; [lia|]. split.
    + constructor; [lia | exact Hall].
    + simpl length. rewrite Nat2Z.inj_succ.
      replace (Ta + (F2Z e + sum_val exps)) with (Ta + F2Z e + sum_val exps) by ring.
      replace (k + Z.succ (Z.of_nat (length exps)))
        with (k + 1 + Z.of_nat (length exps)) by lia.
      exact HerrS.
Qed.

(** Dividing each of them by a sum that is at least as large. *)
Lemma div_sum_spec (S : F32.float) (exps : list F32.float) :
  valid32 S -> nonneg32 S -> 0 < F2Z S ->
  Forall unit32 exps -> Forall (fun e => F2Z e <= F2Z S) exps ->
  let outs := map (fun e => F32.div e S) exps in
  Forall unit32 outs /\ 0 <= sum_val outs /\
  33554432 * Z.abs (sum_val outs * F2Z S - sum_val exps * one_val)
  <= (2 * sum_val outs + Z.of_nat (length exps) * 16777216) * F2Z S.
Proof.
  intros HvS HnS HS Hexps. induction Hexps as [|e exps He Hexps IH]; intros Hle.
  - simpl. split; [constructor|]. split; lia.
  - apply Forall_cons in Hle. destruct Hle as [Hle Hles].
    destruct (IH Hles) as (Hall & H0 & Herr). clear IH.
    destruct He as (Hve & Hne & He0 & He1).
    destruct (div_nonneg_spec e S Hve HvS Hne HnS HS Hle)
      as (Hvo & Hno & Ho & Hoerr).
    change (2 ^ 25) with 33554432 in Hoerr.
    change (2 ^ 24) with 16777216 in Hoerr.
    change (2 ^ 149) with one_val in Hoerr.
    assert (Hunit : unit32 (F32.div e S))
      by (unfold unit32; repeat split; try assumption; lia).
    cbv zeta in *. simpl map. rewrite !sum_val_cons. simpl length.
    rewrite Nat2Z.inj_succ.
    set (o := F2Z (F32.div e S)) in *.
    set (O := sum_val (map (fun e0 => F32.div e0 S) exps)) in *.
    set (W := one_val) in *. clearbody W.
    split; [constructor; [exact Hunit | exact Hall]|].
    split; [lia|].
    replace ((o + O) * F2Z S - (F2Z e + sum_val exps) * W)
      with ((o * F2Z S - F2Z e * W) + (O * F2Z S - sum_val exps * W)) by ring.
    pose proof (Z.abs_triangle (o * F2Z S - F2Z e * W)
                               (O * F2Z S - sum_val exps * W)).
    nia.
Qed.

(** The tolerance: with a float sum [S] at least 1 off the exact sum [T]
    by at most [n * 2^-24] of itself, and outputs whose exact sum [O] is
    off [T / S] by at most [2^-24 * O + n / 2] units, [O] is within 1e-5
    of 1 when [n] is at most 100. *)
Lemma tolerance_bound (S T O n W : Z) :
  1152921504606846976 <= W -> W <= S -> 0 <= O -> 0 <= n <= 100 ->
  16777216 * Z.abs (S - T) <= n * S ->
  33554432 * Z.abs (O * S - T * W) <= (2 * O + n * 16777216) * S ->
  100000 * Z.abs (O - W) <= W.
Proof.
  intros HW HS HO Hn H1 H2.
  assert (HnS : 0 <= n * S) by nia.
  assert (HnW : 0 <= n * W) by nia.
  assert (Hup : 33554432 * (O * S) <=
                (33554432 * W + 2 * (n * W) + 2 * O + n * 16777216) * S).
  { assert (33554432 * (T * W) <= 33554432 * (S * W) + 2 * (n * S) * W) by nia.
    nia. }
  assert (Hlo : (33554432 * W - 2 * (n * W) - 2 * O - n * 16777216) * S
                <= 33554432 * (O * S)).
  { assert (33554432 * (S * W) - 2 * (n * S) * W <= 33554432 * (T * W)) by nia.
    nia. }
  assert (Hup' : 33554432 * O <= 33554432 * W + 2 * (n * W) + 2 * O + n * 16777216).
  { apply (Z.mul_le_mono_pos_r _ _ S); lia. }
  assert (Hlo' : 33554432 * W - 2 * (n * W) - 2 * O - n * 16777216 <= 33554432 * O).
  { apply (Z.mul_le_mono_pos_r _ _ S); lia. }
  assert (n * W <= 100 * W) by nia.
  lia.
Qed.

Lemma expf_two_valued_ok : expf_on_nonpositive expf_two_valued.
Proof.
  split; [reflexivity|]. intros x _.
  destruct x; (split; [vm_compute; reflexivity | split; vm_compute; reflexivity]).
Qed.

Lemma one_large_logit_int16 (i : Z) : is_int16 (one_large_logit i).
Proof. unfold one_large_logit, is_int16. destruct (i =? 0); lia. Qed.

Lemma large_array_check : large_array_within_tolerance = false.
Proof. vm_compute. reflexivity. Qed.



